(** * ServerSidePublishEngine (src/lib/findservers.js): a shallow embedding

    The engine multiplexes client Publish requests against server-owned
    subscriptions.  The JavaScript class is embedded as state-passing code in
    a state-and-exception monad: a failed [assert] or a [TypeError] aborts the
    running operation and leaves the state as it was at that point, as an
    uncaught JavaScript exception does.

    - Engine fields are a record; the [_subscriptions] object is an
      association list kept in JavaScript property order.
    - Subscription objects live in a store shared by all engines and are
      named by reference; the engine only reads their properties and writes
      the [publishEngine] back-reference.
    - [publishData.callback(request, response)] appends to a log of callback
      invocations; calls of Subscription methods append to a second log.
    - [(new Date()).getTime()] reads a clock kept in the store. *)

From Stdlib Require Import List ZArith Bool Lia Permutation Sorted.
Import ListNotations.
Local Open Scope Z_scope.

Set Implicit Arguments.

(** ** State-and-exception monad *)

Inductive Exn := AssertionError | TypeError | OutOfFuel.

Inductive Result (A : Type) :=
| Ok (a : A)
| Throw (e : Exn).
Arguments Ok {A} a.
Arguments Throw {A} e.

Definition M (S A : Type) : Type := S -> Result A * S.

Definition ret {S A} (a : A) : M S A := fun s => (Ok a, s).

Definition bind {S A B} (m : M S A) (k : A -> M S B) : M S B :=
  fun s => match m s with
           | (Ok a, s') => k a s'
           | (Throw e, s') => (Throw e, s')
           end.

Definition throw {S A} (e : Exn) : M S A := fun s => (Throw e, s).
Definition gets {S A} (f : S -> A) : M S A := fun s => (Ok (f s), s).
Definition modify {S} (f : S -> S) : M S unit := fun s => (Ok tt, f s).

(** [assert(cond)] of better-assert. *)
Definition assert {S} (cond : bool) : M S unit :=
  if cond then ret tt else throw AssertionError.

Declare Scope monad_scope.
Delimit Scope monad_scope with monad.
Notation "x <- m ;; k" := (bind m (fun x => k))
  (at level 61, m at next level, right associativity) : monad_scope.
Notation "m ;; k" := (bind m (fun _ => k))
  (at level 61, right associativity) : monad_scope.
Local Open Scope monad_scope.

(** [array.forEach(f)] *)
Fixpoint forEach {S A} (f : A -> M S unit) (l : list A) : M S unit :=
  match l with
  | [] => ret tt
  | x :: r => f x ;; forEach f r
  end.

(** [array.map(f)] with an effectful [f] *)
Fixpoint mapM {S A B} (f : A -> M S B) (l : list A) : M S (list B) :=
  match l with
  | [] => ret []
  | x :: r => y <- f x ;; ys <- mapM f r ;; ret (y :: ys)
  end.

(** ** JavaScript objects used as maps from numbers

    Own properties are enumerated with the array-index keys (integers from 0
    to 2^32-2) first, in ascending order, followed by the other keys in the
    order in which they were created. *)

Definition JSObject (V : Type) : Type := list (Z * V).

Definition is_array_index (k : Z) : bool := (0 <=? k) && (k <? 4294967295).

Fixpoint obj_get {V} (k : Z) (o : JSObject V) : option V :=
  match o with
  | [] => None
  | (k', v) :: r => if k' =? k then Some v else obj_get k r
  end.

Definition obj_has {V} (k : Z) (o : JSObject V) : bool :=
  match obj_get k o with Some _ => true | None => false end.

Fixpoint obj_delete {V} (k : Z) (o : JSObject V) : JSObject V :=
  match o with
  | [] => []
  | (k', v) :: r => if k' =? k then obj_delete k r else (k', v) :: obj_delete k r
  end.

Fixpoint obj_replace {V} (k : Z) (v : V) (o : JSObject V) : JSObject V :=
  match o with
  | [] => []
  | (k', v') :: r => if k' =? k then (k, v) :: r else (k', v') :: obj_replace k v r
  end.

Fixpoint obj_insert_index {V} (k : Z) (v : V) (o : JSObject V) : JSObject V :=
  match o with
  | [] => [(k, v)]
  | (k', v') :: r =>
      if negb (is_array_index k') || (k <? k')
      then (k, v) :: (k', v') :: r
      else (k', v') :: obj_insert_index k v r
  end.

(** [o[k] = v] *)
Definition obj_set {V} (k : Z) (v : V) (o : JSObject V) : JSObject V :=
  if obj_has k o then obj_replace k v o
  else if is_array_index k then obj_insert_index k v o
  else o ++ [(k, v)].

(** [_.map(o)], [_.filter(o, ...)] walk the values in property order. *)
Definition obj_values {V} (o : JSObject V) : list V := map snd o.

(** [Object.keys(o).length] *)
Definition obj_size {V} (o : JSObject V) : Z := Z.of_nat (length o).

(** ** Messages *)

Inductive StatusCode :=
| Good
| GoodSubscriptionTransferred
| BadSubscriptionIdInvalid
| BadSessionClosed
| BadNoSubscription
| BadTooManyPublishRequests
| BadTimeout
| BadSecureChannelClosed
| BadSequenceNumberUnknown
| BadSequenceNumberInvalid.

Inductive NotificationData :=
| StatusChangeNotification (statusCode : StatusCode)
| DataNotification (payload : Z).

Record SubscriptionAcknowledgement := {
  ack_subscriptionId : Z;
  ack_sequenceNumber : Z
}.

Record RequestHeader := {
  requestHandle : Z;
  timeoutHint : Z
}.

(** A PublishRequest object.  [received_time] and [timeout_time] are the
    properties that [prepare_timeout_info] adds to the object; they are
    [undefined] ([None]) on a request as decoded. *)
Record PublishRequest := {
  requestHeader : RequestHeader;
  subscriptionAcknowledgements : list SubscriptionAcknowledgement;
  received_time : option Z;
  timeout_time : option Z
}.

Definition new_PublishRequest (h : RequestHeader)
    (acks : list SubscriptionAcknowledgement) : PublishRequest :=
  {| requestHeader := h; subscriptionAcknowledgements := acks;
     received_time := None; timeout_time := None |}.

Inductive Callback :=
| dummy_function
| client_callback (k : nat).

(** [{ request, results, callback }] *)
Record PublishData := {
  request : PublishRequest;
  results : list StatusCode;
  callback : Callback
}.

Record NotificationMessage := {
  sequenceNumber : Z;
  publishTime : Z;
  notificationData : list NotificationData
}.

Record ResponseHeader := {
  rh_requestHandle : Z;
  serviceResult : StatusCode
}.

Record PublishResponse := {
  responseHeader : ResponseHeader;
  subscriptionId : Z;
  availableSequenceNumbers : list Z;
  moreNotifications : bool;
  notificationMessage : option NotificationMessage;
  rs_results : list StatusCode
}.

(** The [param] object of [send_notification_message]: exactly the four
    properties that the method asserts to be present. *)
Record NotificationParam := {
  p_subscriptionId : Z;
  p_sequenceNumber : Z;
  p_notificationData : list NotificationData;
  p_moreNotifications : bool
}.

(** ** Subscriptions, engines and the store *)

Definition EngineRef := nat.
Definition SubRef := nat.

(** Modelled from the spec: the SubscriptionState enumeration
    (lib/server/SubscriptionState is not part of the sources at hand); the
    spec lists the states Creating, Normal, Late, KeepAlive and Closed. *)
Inductive SubscriptionState := CREATING | NORMAL | LATE | KEEPALIVE | CLOSED.

Definition SubscriptionState_eqb (a b : SubscriptionState) : bool :=
  match a, b with
  | CREATING, CREATING | NORMAL, NORMAL | LATE, LATE
  | KEEPALIVE, KEEPALIVE | CLOSED, CLOSED => true
  | _, _ => false
  end.

(** The properties of a subscription that the engine reads and that the
    subscription's own code changes. [retained] is what
    [getAvailableSequenceNumbers()] returns. *)
Record SubAttrs := {
  priority : Z;
  publishingEnabled : bool;
  state : SubscriptionState;
  messageSent : bool;
  timeToExpiration : Z;
  hasPendingNotifications : bool;
  retained : list Z;
  nextSequenceNumber : Z
}.

Record Subscription := {
  subscription_id : Z;
  publishEngine : option EngineRef;
  attrs : SubAttrs
}.

Definition set_publishEngine (pe : option EngineRef) (s : Subscription) :=
  {| subscription_id := subscription_id s; publishEngine := pe; attrs := attrs s |}.

Definition set_attrs (a : SubAttrs) (s : Subscription) :=
  {| subscription_id := subscription_id s; publishEngine := publishEngine s;
     attrs := a |}.

(** Methods of Subscription that the engine invokes. *)
Inductive Method :=
| m_process_subscription
| m_publish_pending_notifications
| m_acknowledgeNotification
| m_notifyTransfer
| m_resetLifeTimeCounter
| m_resendInitialValues.

(** One invocation [callback(request, response)]. *)
Record CallbackCall := {
  cc_callback : Callback;
  cc_request : PublishRequest;
  cc_response : PublishResponse
}.

Record Store := {
  heap : SubRef -> Subscription;
  calls : list CallbackCall;
  invocations : list (SubRef * Method);
  clock : Z
}.

Record Engine := {
  _publish_request_queue : list PublishData;
  _publish_response_queue : list PublishResponse;
  _subscriptions : JSObject SubRef;
  _closed_subscriptions : list SubRef;
  maxPublishRequestInQueue : Z;
  isSessionClosed : bool
}.

(** An engine together with the store it works on. *)
Record ES := {
  engine : Engine;
  store : Store
}.

Definition set_publish_request_queue (q : list PublishData) (E : Engine) :=
  {| _publish_request_queue := q;
     _publish_response_queue := _publish_response_queue E;
     _subscriptions := _subscriptions E;
     _closed_subscriptions := _closed_subscriptions E;
     maxPublishRequestInQueue := maxPublishRequestInQueue E;
     isSessionClosed := isSessionClosed E |}.

Definition set_publish_response_queue (q : list PublishResponse) (E : Engine) :=
  {| _publish_request_queue := _publish_request_queue E;
     _publish_response_queue := q;
     _subscriptions := _subscriptions E;
     _closed_subscriptions := _closed_subscriptions E;
     maxPublishRequestInQueue := maxPublishRequestInQueue E;
     isSessionClosed := isSessionClosed E |}.

Definition set_subscriptions (o : JSObject SubRef) (E : Engine) :=
  {| _publish_request_queue := _publish_request_queue E;
     _publish_response_queue := _publish_response_queue E;
     _subscriptions := o;
     _closed_subscriptions := _closed_subscriptions E;
     maxPublishRequestInQueue := maxPublishRequestInQueue E;
     isSessionClosed := isSessionClosed E |}.

Definition set_closed_subscriptions (l : list SubRef) (E : Engine) :=
  {| _publish_request_queue := _publish_request_queue E;
     _publish_response_queue := _publish_response_queue E;
     _subscriptions := _subscriptions E;
     _closed_subscriptions := l;
     maxPublishRequestInQueue := maxPublishRequestInQueue E;
     isSessionClosed := isSessionClosed E |}.

Definition set_isSessionClosed (b : bool) (E : Engine) :=
  {| _publish_request_queue := _publish_request_queue E;
     _publish_response_queue := _publish_response_queue E;
     _subscriptions := _subscriptions E;
     _closed_subscriptions := _closed_subscriptions E;
     maxPublishRequestInQueue := maxPublishRequestInQueue E;
     isSessionClosed := b |}.

Definition set_heap (h : SubRef -> Subscription) (st : Store) :=
  {| heap := h; calls := calls st; invocations := invocations st;
     clock := clock st |}.

Definition set_calls (l : list CallbackCall) (st : Store) :=
  {| heap := heap st; calls := l; invocations := invocations st;
     clock := clock st |}.

Definition set_invocations (l : list (SubRef * Method)) (st : Store) :=
  {| heap := heap st; calls := calls st; invocations := l; clock := clock st |}.

Definition set_clock (t : Z) (st : Store) :=
  {| heap := heap st; calls := calls st; invocations := invocations st;
     clock := t |}.

Definition on_engine (f : Engine -> Engine) (w : ES) : ES :=
  {| engine := f (engine w); store := store w |}.

Definition on_store (f : Store -> Store) (w : ES) : ES :=
  {| engine := engine w; store := f (store w) |}.

(** Writing the object behind a reference. *)
Definition heap_write (r : SubRef) (s : Subscription) (st : Store) : Store :=
  set_heap (fun r' => if Nat.eqb r' r then s else heap st r') st.

Definition log_call (c : CallbackCall) (st : Store) : Store :=
  set_calls (calls st ++ [c]) st.

Definition log_invocation (r : SubRef) (m : Method) (st : Store) : Store :=
  set_invocations (invocations st ++ [(r, m)]) st.

(** Modelled from the spec: the bodies of the Subscription methods that the
    engine invokes (lib/server/Subscription is not part of the sources at
    hand).  By the spec a subscription "never calls the engine synchronously
    from inside its tick except through send_notification_message /
    send_keep_alive_response"; besides that, a step may change the
    subscription's own properties. *)
Inductive SubStep :=
| do_send_notification_message (param : NotificationParam) (force : bool)
| do_send_keep_alive_response (subscriptionId future_sequence_number : Z)
| do_update (a : SubAttrs).

(** The collaborators of the engine whose code is not part of
    src/lib/findservers.js.

    - [defaultRequestHandle]: the value of [responseHeader.requestHandle] in a
      PublishResponse as constructed by [subscription_service].
    - [Array_sort]: [Array.prototype.sort] of the JavaScript engine, applied
      to an array of subscriptions with a comparison function whose result
      has been converted to a number.
    - The Subscription methods.  Modelled from the spec: lib/server/Subscription
      is not part of the sources at hand; the spec says that
      [process_subscription] produces zero or one message and calls back into
      the engine via [send_notification_message], and that a subscription
      calls the engine only through [send_notification_message] and
      [send_keep_alive_response].  A method body is any function from the
      subscription and the current engine and store to a list of such steps;
      [acknowledgeNotification] returns a status code and changes the
      subscription's own properties; [resetLifeTimeCounter] and
      [resendInitialValues] change the subscription's own properties. *)
Class Collaborators := {
  defaultRequestHandle : Z;
  Array_sort : (SubRef -> SubRef -> Z) -> list SubRef -> list SubRef;
  acknowledgeNotification : Subscription -> Z -> StatusCode * SubAttrs;
  process_subscription : SubRef -> ES -> list SubStep;
  _publish_pending_notifications : SubRef -> ES -> list SubStep;
  resetLifeTimeCounter : SubAttrs -> SubAttrs;
  resendInitialValues : SubAttrs -> SubAttrs
}.

(** [_(list).sortBy(key)] of underscore: ascending by [key], elements with
    equal keys in their original order. *)
Fixpoint sortBy_insert {A} (key : A -> Z) (x : A) (l : list A) : list A :=
  match l with
  | [] => [x]
  | y :: r => if key x <=? key y then x :: y :: r else y :: sortBy_insert key x r
  end.

Fixpoint sortBy {A} (key : A -> Z) (l : list A) : list A :=
  match l with
  | [] => []
  | x :: r => sortBy_insert key x (sortBy key r)
  end.

(** [a[a.length - 1]] *)
Fixpoint last_error {A} (l : list A) : option A :=
  match l with
  | [] => None
  | [x] => Some x
  | _ :: r => last_error r
  end.

(** [a || b] on values that are an object or null *)
Definition js_or {A} (a b : option A) : option A :=
  match a with Some _ => a | None => b end.

Definition compare_subscriptions (s1 s2 : Subscription) : bool :=
  if priority (attrs s1) =? priority (attrs s2)
  then timeToExpiration (attrs s1) <? timeToExpiration (attrs s2)
  else priority (attrs s1) >? priority (attrs s2).

(** [constructor(options = {})] *)
Definition new_ServerSidePublishEngine (options_maxPublishRequestInQueue : option Z)
  : Engine :=
  {| _publish_request_queue := [];
     _publish_response_queue := [];
     _subscriptions := [];
     _closed_subscriptions := [];
     maxPublishRequestInQueue :=
       match options_maxPublishRequestInQueue with
       | Some n => if n =? 0 then 100 else n
       | None => 100
       end;
     isSessionClosed := false |}.

Definition pendingPublishRequestCount (E : Engine) : Z :=
  Z.of_nat (length (_publish_request_queue E)).

Definition subscriptionCount (E : Engine) : Z := obj_size (_subscriptions E).

Definition getSubscriptionById (subscriptionId : Z) (E : Engine) : option SubRef :=
  obj_get subscriptionId (_subscriptions E).

Definition pendingClosedSubscriptionCount (E : Engine) : Z :=
  Z.of_nat (length (_closed_subscriptions E)).

Definition sub (w : ES) (r : SubRef) : Subscription := heap (store w) r.

(** [prepare_timeout_info(request)] at time [now]. *)
Definition prepare_timeout_info (now : Z) (rq : PublishRequest)
  : M ES PublishRequest :=
  assert (0 <=? timeoutHint (requestHeader rq)) ;;
  ret {| requestHeader := requestHeader rq;
         subscriptionAcknowledgements := subscriptionAcknowledgements rq;
         received_time := Some now;
         timeout_time :=
           Some (if 0 <? timeoutHint (requestHeader rq)
                 then now + timeoutHint (requestHeader rq) else 0) |}.

(** ** The methods of ServerSidePublishEngine *)

Section Engine.
Context {C : Collaborators}.

(** Modelled from the spec: the PublishResponse constructor of
    lib/services/subscription_service, which is not part of the sources at
    hand.  Properties that the caller does not give take default values;
    a response built from a [responseHeader] alone carries no notification
    message (a status-only response). *)
Definition new_PublishResponse (code : StatusCode) (subscriptionId : Z)
    (availableSequenceNumbers : list Z) (moreNotifications : bool)
    (msg : option NotificationMessage) : PublishResponse :=
  {| responseHeader :=
       {| rh_requestHandle := defaultRequestHandle; serviceResult := code |};
     subscriptionId := subscriptionId;
     availableSequenceNumbers := availableSequenceNumbers;
     moreNotifications := moreNotifications;
     notificationMessage := msg;
     rs_results := [] |}.

(** [new PublishResponse({ responseHeader: { serviceResult: statusCode } })] *)
Definition status_only_response (statusCode : StatusCode) : PublishResponse :=
  new_PublishResponse statusCode 0 [] false None.

(** [response.results = ...; response.responseHeader.requestHandle = ...] *)
Definition complete_response (publishData : PublishData)
    (response : PublishResponse) : PublishResponse :=
  {| responseHeader :=
       {| rh_requestHandle := requestHandle (requestHeader (request publishData));
          serviceResult := serviceResult (responseHeader response) |};
     subscriptionId := subscriptionId response;
     availableSequenceNumbers := availableSequenceNumbers response;
     moreNotifications := moreNotifications response;
     notificationMessage := notificationMessage response;
     rs_results := results publishData |}.

(** [publishData.callback(publishData.request, response)] *)
Definition answer (publishData : PublishData) (response : PublishResponse)
  : CallbackCall :=
  {| cc_callback := callback publishData;
     cc_request := request publishData;
     cc_response := complete_response publishData response |}.

Definition send_response_for_request (publishData : PublishData)
    (response : PublishResponse) : M ES unit :=
  assert (negb (rh_requestHandle (responseHeader response) =? 0)) ;;
  modify (on_store (log_call (answer publishData response))).

Definition send_error_for_request (publishData : PublishData)
    (statusCode : StatusCode) : M ES unit :=
  send_response_for_request publishData (status_only_response statusCode).

(** [self._publish_request_queue.shift()]; [None] is [undefined]. *)
Definition shift_publish_request : M ES (option PublishData) :=
  q <- gets (fun w => _publish_request_queue (engine w)) ;;
  match q with
  | [] => ret None
  | publishData :: rest =>
      modify (on_engine (set_publish_request_queue rest)) ;;
      ret (Some publishData)
  end.

(** A response sent for [undefined] fails in [_assertValidPublishData]. *)
Definition send_response_for_shifted (shifted : option PublishData)
    (response : PublishResponse) : M ES unit :=
  match shifted with
  | Some publishData => send_response_for_request publishData response
  | None => throw TypeError
  end.

Definition push_publish_request (publishData : PublishData) : M ES unit :=
  modify (on_engine (fun E =>
    set_publish_request_queue (_publish_request_queue E ++ [publishData]) E)).

Definition process_subscriptionAcknowledgements
    (subscriptionAcknowledgements : list SubscriptionAcknowledgement)
  : M ES (list StatusCode) :=
  mapM (fun subscriptionAcknowledgement =>
    subscription <- gets (fun w =>
      getSubscriptionById (ack_subscriptionId subscriptionAcknowledgement) (engine w)) ;;
    match subscription with
    | None => ret BadSubscriptionIdInvalid
    | Some r =>
        s <- gets (fun w => sub w r) ;;
        let (code, a) :=
          acknowledgeNotification s (ack_sequenceNumber subscriptionAcknowledgement) in
        modify (on_store (log_invocation r m_acknowledgeNotification)) ;;
        modify (on_store (heap_write r (set_attrs a s))) ;;
        ret code
    end) subscriptionAcknowledgements.

Definition _cancelPendingPublishRequest (statusCode : StatusCode) : M ES unit :=
  q <- gets (fun w => _publish_request_queue (engine w)) ;;
  forEach (fun publishData => send_error_for_request publishData statusCode) q ;;
  modify (on_engine (set_publish_request_queue [])).

Definition cancelPendingPublishRequestBeforeChannelChange : M ES unit :=
  _cancelPendingPublishRequest BadSecureChannelClosed.

Definition cancelPendingPublishRequest : M ES unit :=
  n <- gets (fun w => subscriptionCount (engine w)) ;;
  assert (n =? 0) ;;
  _cancelPendingPublishRequest BadNoSubscription.

Definition onSessionClose : M ES unit :=
  modify (on_engine (set_isSessionClosed true)) ;;
  _cancelPendingPublishRequest BadSessionClosed.

Definition _handle_too_many_requests : M ES unit :=
  n <- gets (fun w => pendingPublishRequestCount (engine w)) ;;
  limit <- gets (fun w => maxPublishRequestInQueue (engine w)) ;;
  if limit <? n then
    assert (n =? limit + 1) ;;
    publishData <- shift_publish_request ;;
    send_response_for_shifted publishData (status_only_response BadTooManyPublishRequests)
  else ret tt.

Definition send_notification_message (param : NotificationParam) (force : bool)
  : M ES unit :=
  n <- gets (fun w => pendingPublishRequestCount (engine w)) ;;
  assert ((0 <? n) || force) ;;
  subscription <- gets (fun w => getSubscriptionById (p_subscriptionId param) (engine w)) ;;
  availableSequenceNumbers <- gets (fun w =>
    match subscription with
    | Some r => retained (attrs (sub w r))
    | None => []
    end) ;;
  now <- gets (fun w => clock (store w)) ;;
  let response :=
    new_PublishResponse Good (p_subscriptionId param) availableSequenceNumbers
      (p_moreNotifications param)
      (Some {| sequenceNumber := p_sequenceNumber param;
               publishTime := now;
               notificationData := p_notificationData param |}) in
  if n =? 0 then
    modify (on_engine (fun E =>
      set_publish_response_queue (_publish_response_queue E ++ [response]) E))
  else
    publishData <- shift_publish_request ;;
    send_response_for_shifted publishData response.

Definition send_keep_alive_response (subscriptionId future_sequence_number : Z)
  : M ES bool :=
  subscription <- gets (fun w => getSubscriptionById subscriptionId (engine w)) ;;
  match subscription with
  | None => ret false
  | Some _ =>
      n <- gets (fun w => pendingPublishRequestCount (engine w)) ;;
      if n =? 0 then ret false
      else
        send_notification_message
          {| p_subscriptionId := subscriptionId;
             p_sequenceNumber := future_sequence_number;
             p_notificationData := [];
             p_moreNotifications := false |} false ;;
        ret true
  end.

Definition timeout_filter (current_time : Z) (data : PublishData) : bool :=
  match timeout_time (request data) with
  | None => false
  | Some t => if t =? 0 then false else t <? current_time
  end.

Definition _cancelTimeoutRequests : M ES unit :=
  n <- gets (fun w => pendingPublishRequestCount (engine w)) ;;
  if n =? 0 then ret tt
  else
    current_time <- gets (fun w => clock (store w)) ;;
    q <- gets (fun w => _publish_request_queue (engine w)) ;;
    let partition := List.partition (timeout_filter current_time) q in
    modify (on_engine (set_publish_request_queue (snd partition))) ;;
    forEach (fun publishData =>
      send_response_for_request publishData (status_only_response BadTimeout))
      (fst partition).

Definition _on_tick : M ES unit := _cancelTimeoutRequests.

Definition _process_pending_publish_response (publishData : PublishData)
  : M ES bool :=
  rs <- gets (fun w => _publish_response_queue (engine w)) ;;
  match rs with
  | [] => ret false
  | response :: rest =>
      n <- gets (fun w => pendingPublishRequestCount (engine w)) ;;
      assert (n =? 0) ;;
      modify (on_engine (set_publish_response_queue rest)) ;;
      send_response_for_request publishData response ;;
      ret true
  end.

(** Running the body of a Subscription method of the subscription [r]. *)
Definition run_step (r : SubRef) (st : SubStep) : M ES unit :=
  match st with
  | do_send_notification_message param force => send_notification_message param force
  | do_send_keep_alive_response subscriptionId future_sequence_number =>
      send_keep_alive_response subscriptionId future_sequence_number ;; ret tt
  | do_update a => modify (fun w => on_store (heap_write r (set_attrs a (sub w r))) w)
  end.

Definition call_method (r : SubRef) (m : Method) (body : SubRef -> ES -> list SubStep)
  : M ES unit :=
  modify (on_store (log_invocation r m)) ;;
  steps <- gets (body r) ;;
  forEach (run_step r) steps.

Definition findSubscriptionWaitingForFirstPublish (w : ES) : option SubRef :=
  let subscriptions_waiting_for_first_reply :=
    filter (fun r => negb (messageSent (attrs (sub w r)))
                     && SubscriptionState_eqb (state (attrs (sub w r))) LATE)
           (obj_values (_subscriptions (engine w))) in
  if negb (Nat.eqb (length subscriptions_waiting_for_first_reply) 0) then
    hd_error (sortBy (fun r => timeToExpiration (attrs (sub w r)))
                     subscriptions_waiting_for_first_reply)
  else None.

Definition findLateSubscriptions (w : ES) : list SubRef :=
  filter (fun r => SubscriptionState_eqb (state (attrs (sub w r))) LATE
                   && publishingEnabled (attrs (sub w r)))
         (obj_values (_subscriptions (engine w))).

Definition findLateSubscriptionSortedByPriority (w : ES) : option SubRef :=
  let late_subscriptions := findLateSubscriptions w in
  if Nat.eqb (length late_subscriptions) 0 then None
  else
    last_error
      (Array_sort (fun r1 r2 => Z.b2z (compare_subscriptions (sub w r1) (sub w r2)))
                  late_subscriptions).

Definition findLateSubscriptionsSortedByAge (w : ES) : list SubRef :=
  sortBy (fun r => timeToExpiration (attrs (sub w r))) (findLateSubscriptions w).

Definition _feed_late_subscription : M ES unit :=
  n <- gets (fun w => pendingPublishRequestCount (engine w)) ;;
  if n =? 0 then ret tt
  else
    starving_subscription <- gets (fun w =>
      js_or (findSubscriptionWaitingForFirstPublish w)
            (findLateSubscriptionSortedByPriority w)) ;;
    match starving_subscription with
    | Some r => call_method r m_process_subscription process_subscription
    | None => ret tt
    end.

Definition _feed_closed_subscription : M ES bool :=
  n <- gets (fun w => pendingPublishRequestCount (engine w)) ;;
  if n =? 0 then ret false
  else
    closed <- gets (fun w => _closed_subscriptions (engine w)) ;;
    match closed with
    | [] => ret false
    | closed_subscription :: rest =>
        modify (on_engine (set_closed_subscriptions rest)) ;;
        pending <- gets (fun w => hasPendingNotifications (attrs (sub w closed_subscription))) ;;
        if pending then
          call_method closed_subscription m_publish_pending_notifications
                      _publish_pending_notifications ;;
          ret true
        else ret false
    end.

Definition _on_PublishRequest (rq : PublishRequest) (cb : option Callback)
  : M ES unit :=
  let callback := match cb with Some f => f | None => dummy_function end in
  subscriptionAckResults <-
    process_subscriptionAcknowledgements (subscriptionAcknowledgements rq) ;;
  let publishData :=
    {| request := rq; results := subscriptionAckResults; callback := callback |} in
  processed <- _process_pending_publish_response publishData ;;
  if processed then ret tt
  else
    closed <- gets (fun w => isSessionClosed (engine w)) ;;
    if closed then send_error_for_request publishData BadSessionClosed
    else
      count <- gets (fun w => subscriptionCount (engine w)) ;;
      if count =? 0 then
        head_pending <- gets (fun w =>
          match _closed_subscriptions (engine w) with
          | [] => false
          | c :: _ => hasPendingNotifications (attrs (sub w c))
          end) ;;
        if head_pending then
          verif <- gets (fun w => pendingPublishRequestCount (engine w)) ;;
          push_publish_request publishData ;;
          processed <- _feed_closed_subscription ;;
          n <- gets (fun w => pendingPublishRequestCount (engine w)) ;;
          assert (verif =? n) ;;
          assert processed
        else send_error_for_request publishData BadNoSubscription
      else
        now <- gets (fun w => clock (store w)) ;;
        rq' <- prepare_timeout_info now rq ;;
        push_publish_request
          {| request := rq'; results := subscriptionAckResults; callback := callback |} ;;
        _feed_late_subscription ;;
        _feed_closed_subscription ;;
        _handle_too_many_requests.

Definition add_subscription (self : EngineRef) (subscription : SubRef)
  : M ES SubRef :=
  s <- gets (fun w => sub w subscription) ;;
  let pe := match publishEngine s with Some e => e | None => self end in
  modify (on_store (heap_write subscription (set_publishEngine (Some pe) s))) ;;
  assert (Nat.eqb pe self) ;;
  known <- gets (fun w => obj_has (subscription_id s) (_subscriptions (engine w))) ;;
  assert (negb known) ;;
  modify (on_engine (fun E =>
    set_subscriptions (obj_set (subscription_id s) subscription (_subscriptions E)) E)) ;;
  ret subscription.

Definition detach_subscription (self : EngineRef) (subscription : SubRef)
  : M ES SubRef :=
  s <- gets (fun w => sub w subscription) ;;
  assert (match publishEngine s with Some e => Nat.eqb e self | None => false end) ;;
  found <- gets (fun w => getSubscriptionById (subscription_id s) (engine w)) ;;
  assert (match found with Some r => Nat.eqb r subscription | None => false end) ;;
  modify (on_engine (fun E =>
    set_subscriptions (obj_delete (subscription_id s) (_subscriptions E)) E)) ;;
  modify (on_store (heap_write subscription (set_publishEngine None s))) ;;
  ret subscription.

Definition shutdown : M ES unit :=
  n <- gets (fun w => subscriptionCount (engine w)) ;;
  assert (n =? 0) ;;
  modify (on_engine (set_publish_request_queue [])) ;;
  modify (on_engine (set_publish_response_queue [])) ;;
  modify (on_engine (set_closed_subscriptions [])).

(** [while (self._feed_closed_subscription()) { }].  Every round that goes
    on takes one subscription off the closed list, so one more round than
    the list is long is enough ([on_close_subscription_fuel] below). *)
Fixpoint while_feed_closed_subscription (fuel : nat) : M ES unit :=
  match fuel with
  | O => throw OutOfFuel
  | S k =>
      fed <- _feed_closed_subscription ;;
      if fed then while_feed_closed_subscription k else ret tt
  end.

Definition on_close_subscription (subscription : SubRef) : M ES unit :=
  s <- gets (fun w => sub w subscription) ;;
  known <- gets (fun w => obj_has (subscription_id s) (_subscriptions (engine w))) ;;
  assert known ;;
  (if hasPendingNotifications (attrs s) then
     modify (on_engine (fun E =>
       set_closed_subscriptions (_closed_subscriptions E ++ [subscription]) E))
   else ret tt) ;;
  modify (on_engine (fun E =>
    set_subscriptions (obj_delete (subscription_id s) (_subscriptions E)) E)) ;;
  n <- gets (fun w => subscriptionCount (engine w)) ;;
  if n =? 0 then
    rounds <- gets (fun w => S (length (_closed_subscriptions (engine w)))) ;;
    while_feed_closed_subscription rounds ;;
    cancelPendingPublishRequest
  else ret tt.

(** ** Sequences of public operations on one engine *)

(** The public operations, and what the rest of the server does to the store
    between them: the clock advances, and subscriptions and other engines
    change the subscription objects. *)
Inductive Op :=
| Op_on_PublishRequest (h : RequestHeader)
    (acks : list SubscriptionAcknowledgement) (cb : option Callback)
| Op_send_notification_message (param : NotificationParam) (force : bool)
| Op_send_keep_alive_response (subscriptionId future_sequence_number : Z)
| Op_on_tick
| Op_add_subscription (subscription : SubRef)
| Op_detach_subscription (subscription : SubRef)
| Op_on_close_subscription (subscription : SubRef)
| Op_onSessionClose
| Op_cancelPendingPublishRequestBeforeChannelChange
| Op_shutdown
| Env_clock (t : Z)
| Env_subscription (r : SubRef) (s : Subscription).

Definition exec (self : EngineRef) (op : Op) : M ES unit :=
  match op with
  | Op_on_PublishRequest h acks cb => _on_PublishRequest (new_PublishRequest h acks) cb
  | Op_send_notification_message param force => send_notification_message param force
  | Op_send_keep_alive_response i n => send_keep_alive_response i n ;; ret tt
  | Op_on_tick => _on_tick
  | Op_add_subscription r => add_subscription self r ;; ret tt
  | Op_detach_subscription r => detach_subscription self r ;; ret tt
  | Op_on_close_subscription r => on_close_subscription r
  | Op_onSessionClose => onSessionClose
  | Op_cancelPendingPublishRequestBeforeChannelChange =>
      cancelPendingPublishRequestBeforeChannelChange
  | Op_shutdown => shutdown
  | Env_clock t => modify (on_store (set_clock t))
  | Env_subscription r s => modify (on_store (heap_write r s))
  end.

(** [reaches self w w']: the engine [self] gets from [w] to [w'] by a
    sequence of operations, whether they returned or threw. *)
Inductive reaches (self : EngineRef) (w : ES) : ES -> Prop :=
| reaches_refl : reaches self w w
| reaches_exec : forall w1 op,
    reaches self w w1 -> reaches self w (snd (exec self op w1)).

(** [reaches_ok self w w']: the same by operations that all returned. *)
Inductive reaches_ok (self : EngineRef) (w : ES) : ES -> Prop :=
| reaches_ok_refl : reaches_ok self w w
| reaches_ok_exec : forall w1 op w2,
    reaches_ok self w w1 -> exec self op w1 = (Ok tt, w2) -> reaches_ok self w w2.

(** A freshly constructed engine, on any store. *)
Definition fresh (options_maxPublishRequestInQueue : option Z) (st : Store) : ES :=
  {| engine := new_ServerSidePublishEngine options_maxPublishRequestInQueue;
     store := st |}.

(** Running a list of operations, stopping at the first that throws. *)
Fixpoint run (self : EngineRef) (ops : list Op) : M ES unit :=
  match ops with
  | [] => ret tt
  | op :: r => exec self op ;; run self r
  end.

End Engine.

(** ** Several engines: transfer of a subscription *)

Record World := {
  engines : EngineRef -> Engine;
  shared : Store
}.

(** Running a method of the engine [e]. *)
Definition at_engine {A} (e : EngineRef) (m : M ES A) : M World A :=
  fun w =>
    let (r, es) := m {| engine := engines w e; store := shared w |} in
    (r, {| engines := fun e' => if Nat.eqb e' e then engine es else engines w e';
           shared := store es |}).

Section Transfer.
Context {C : Collaborators}.

(** The parameter of the notification that [notifyTransfer] sends. *)
Definition transfer_notification (s : Subscription) : NotificationParam :=
  {| p_subscriptionId := subscription_id s;
     p_sequenceNumber := nextSequenceNumber (attrs s);
     p_notificationData := [StatusChangeNotification GoodSubscriptionTransferred];
     p_moreNotifications := false |}.

(** Modelled from the spec: [Subscription.notifyTransfer] (lib/server/Subscription
    is not part of the sources at hand): "the subscription emits a
    StatusChangeNotification(GoodSubscriptionTransferred) to the source
    engine's queue", that is, through [send_notification_message] of the
    engine that [publishEngine] refers to, forced so that the response is
    stashed when no request is pending. *)
Definition notifyTransfer (subscription : SubRef) : M World unit :=
  modify (fun w =>
    {| engines := engines w;
       shared := log_invocation subscription m_notifyTransfer (shared w) |}) ;;
  s <- gets (fun w => heap (shared w) subscription) ;;
  match publishEngine s with
  | None => throw TypeError
  | Some e => at_engine e (send_notification_message (transfer_notification s) true)
  end.

(** A method of Subscription that only changes the subscription's own
    properties. *)
Definition call_hook (subscription : SubRef) (m : Method)
    (f : SubAttrs -> SubAttrs) : M World unit :=
  modify (fun w =>
    let s := heap (shared w) subscription in
    {| engines := engines w;
       shared := heap_write subscription (set_attrs (f (attrs s)) s)
                   (log_invocation subscription m (shared w)) |}).

(** [static transferSubscription(subscription, destPublishEngine, sendInitialValues)] *)
Definition transferSubscription (subscription : SubRef)
    (destPublishEngine : EngineRef) (sendInitialValues : bool) : M World unit :=
  srcPublishEngine <- gets (fun w => publishEngine (heap (shared w) subscription)) ;;
  notifyTransfer subscription ;;
  match srcPublishEngine with
  | None => throw TypeError
  | Some src =>
      detached <- at_engine src (detach_subscription src subscription) ;;
      at_engine destPublishEngine (add_subscription destPublishEngine detached) ;;
      call_hook subscription m_resetLifeTimeCounter resetLifeTimeCounter ;;
      if sendInitialValues
      then call_hook subscription m_resendInitialValues resendInitialValues
      else ret tt
  end.

End Transfer.

(** ** [Array.prototype.sort] as V8 has implemented it since version 7.0

    An array shorter than 64 elements is sorted in one piece: the run at its
    start is found (and reversed when it descends), then the remaining
    elements are put in place by binary insertion.  Every decision is
    [order < 0] on the number that the comparison function returns. *)

Section V8Sort.
Variable A : Type.
Variable comparefn : A -> A -> Z.

(** How many elements after [previous] continue the run. *)
Fixpoint run_continues (descending : bool) (previous : A) (l : list A) : nat :=
  match l with
  | [] => O
  | current :: r =>
      let order := comparefn current previous in
      if (if descending then 0 <=? order else order <? 0) then O
      else S (run_continues descending current r)
  end.

(** [CountAndMakeRun]: the length of the first run and the array with that
    run made ascending. *)
Definition CountAndMakeRun (a : list A) : nat * list A :=
  match a with
  | [] => (O, a)
  | [_] => (1%nat, a)
  | low :: high :: r =>
      let descending := comparefn high low <? 0 in
      let runLength := (2 + run_continues descending high r)%nat in
      (runLength,
       if descending then rev (firstn runLength a) ++ skipn runLength a else a)
  end.

(** The place of [pivot] in [a[left..right)], by bisection. *)
Fixpoint insertion_point (fuel : nat) (pivot : A) (a : list A) (left right : nat)
  : nat :=
  match fuel with
  | O => left
  | S k =>
      if Nat.ltb left right then
        let mid := (left + Nat.div2 (right - left))%nat in
        match nth_error a mid with
        | Some x =>
            if comparefn pivot x <? 0
            then insertion_point k pivot a left mid
            else insertion_point k pivot a (S mid) right
        | None => left
        end
      else left
  end.

(** One round of [BinaryInsertionSort]: [a[start]] moves to its place in
    [a[0..start)]. *)
Definition insert_at_start (a : list A) (start : nat) : list A :=
  match nth_error a start with
  | None => a
  | Some pivot =>
      let left := insertion_point (S start) pivot a O start in
      firstn left a ++ [pivot] ++ skipn left (firstn start a) ++ skipn (S start) a
  end.

Fixpoint BinaryInsertionSort (rounds : nat) (start : nat) (a : list A) : list A :=
  match rounds with
  | O => a
  | S k => BinaryInsertionSort k (S start) (insert_at_start a start)
  end.

Definition v8_sort (a : list A) : list A :=
  let (runLength, a') := CountAndMakeRun a in
  BinaryInsertionSort (length a - runLength) runLength a'.

End V8Sort.

(** ** [Array.prototype.sort] as V8 implemented it before version 7.0

    [InnerArraySort] of V8's array.js, for arrays of at most 1000 elements
    (longer arrays choose the third pivot candidate differently): insertion
    sort for up to 10 elements, quicksort above.  [InsertionSort] decides by
    [order > 0]; [QuickSort] also by [order >= 0] and [order < 0].  The
    loops take the length of the array as fuel, which bounds their rounds. *)

Section V8LegacySort.
Variable A : Type.
Variable d : A.
Variable comparefn : A -> A -> Z.

(** [a[i]]; [d] stands for [undefined]. *)
Definition aget (a : list A) (i : nat) : A := nth i a d.

(** [a[i] = x] within the bounds of the array *)
Fixpoint aset (a : list A) (i : nat) (x : A) : list A :=
  match a, i with
  | [], _ => []
  | _ :: r, O => x :: r
  | y :: r, S k => y :: aset r k x
  end.

(** The inner loop of [InsertionSort]: [for (j = i - 1; j >= from; j--)]
    with [count = j - from + 1] rounds left; returns the array and [j + 1]. *)
Fixpoint insertion_shift (count : nat) (a : list A) (from : nat) (element : A)
  : list A * nat :=
  match count with
  | O => (a, from)
  | S k =>
      let j := (from + k)%nat in
      let tmp := aget a j in
      let order := comparefn tmp element in
      if 0 <? order then insertion_shift k (aset a (S j) tmp) from element
      else (a, S j)
  end.

(** The outer loop of [InsertionSort]: [for (i = from + 1; i < to; i++)]. *)
Fixpoint insertion_rounds (rounds : nat) (a : list A) (from i : nat) : list A :=
  match rounds with
  | O => a
  | S k =>
      let element := aget a i in
      let (a', pos) := insertion_shift (i - from) a from element in
      insertion_rounds k (aset a' pos element) from (S i)
  end.

Definition InsertionSort (a : list A) (from to : nat) : list A :=
  insertion_rounds (to - from - 1) a from (S from).

(** [do { high_start--; if (high_start == i) break partition; ... }
     while (order > 0)]; returns [high_start], the last [order] and whether
    the partition loop was left. *)
Fixpoint scan_down (fuel : nat) (a : list A) (pivot : A) (i high_start : nat)
  : nat * Z * bool :=
  match fuel with
  | O => (high_start, 0, true)
  | S k =>
      let high_start := Nat.pred high_start in
      if Nat.eqb high_start i then (high_start, 0, true)
      else
        let order := comparefn (aget a high_start) pivot in
        if 0 <? order then scan_down k a pivot i high_start
        else (high_start, order, false)
  end.

(** [partition: for (i = low_end + 1; i < high_start; i++)]; returns the
    array, [low_end] and [high_start]. *)
Fixpoint partition_loop (fuel : nat) (a : list A) (pivot : A)
    (i low_end high_start : nat) : list A * nat * nat :=
  match fuel with
  | O => (a, low_end, high_start)
  | S k =>
      if Nat.ltb i high_start then
        let element := aget a i in
        let order := comparefn element pivot in
        if order <? 0 then
          let a := aset a i (aget a low_end) in
          let a := aset a low_end element in
          partition_loop k a pivot (S i) (S low_end) high_start
        else if 0 <? order then
          match scan_down (S (length a)) a pivot i high_start with
          | (hs, _, true) => (a, low_end, hs)
          | (hs, order', false) =>
              let a := aset a i (aget a hs) in
              let a := aset a hs element in
              if order' <? 0 then
                let element := aget a i in
                let a := aset a i (aget a low_end) in
                let a := aset a low_end element in
                partition_loop k a pivot (S i) (S low_end) hs
              else partition_loop k a pivot (S i) low_end hs
          end
        else partition_loop k a pivot (S i) low_end high_start
      else (a, low_end, high_start)
  end.

(** [QuickSort(a, from, to)]: the pivot is the median of the first, the last
    and the middle element; the smaller part is sorted by a recursive call
    and the loop goes on with the other part. *)
Fixpoint QuickSort (fuel : nat) (a : list A) (from to : nat) : list A :=
  match fuel with
  | O => a
  | S k =>
      if Nat.leb (to - from) 10 then InsertionSort a from to
      else
        let third_index := (from + Nat.div2 (to - from))%nat in
        let v0 := aget a from in
        let v1 := aget a (to - 1) in
        let v2 := aget a third_index in
        let c01 := comparefn v0 v1 in
        let (v0, v1) := if 0 <? c01 then (v1, v0) else (v0, v1) in
        let c02 := comparefn v0 v2 in
        let '(v0, v1, v2) :=
          if 0 <=? c02 then (v2, v0, v1)
          else
            let c12 := comparefn v1 v2 in
            if 0 <? c12 then (v0, v2, v1) else (v0, v1, v2) in
        let a := aset a from v0 in
        let a := aset a (to - 1) v2 in
        let pivot := v1 in
        let low_end := S from in
        let high_start := (to - 1)%nat in
        let a := aset a third_index (aget a low_end) in
        let a := aset a low_end pivot in
        let '(a, low_end, high_start) :=
          partition_loop (length a) a pivot (S low_end) low_end high_start in
        if Nat.ltb (to - high_start) (low_end - from) then
          QuickSort k (QuickSort k a high_start to) from low_end
        else
          QuickSort k (QuickSort k a from low_end) high_start to
  end.

Definition v8_legacy_sort (a : list A) : list A :=
  QuickSort (length a) a O (length a).

End V8LegacySort.

(** ** Concrete collaborators, for running the engine on examples

    A subscription that publishes one data notification per call and accepts
    every acknowledgement; [Array.prototype.sort] of V8; 0xDEADBEEF as the
    request handle of a response that has not been sent yet. *)

Definition publish_one (r : SubRef) (w : ES) : list SubStep :=
  [do_send_notification_message
     {| p_subscriptionId := subscription_id (sub w r);
        p_sequenceNumber := nextSequenceNumber (attrs (sub w r));
        p_notificationData := [DataNotification 0];
        p_moreNotifications := false |} false].

Definition v8_collaborators : Collaborators :=
  {| defaultRequestHandle := 3735928559;
     Array_sort := v8_sort (A := SubRef);
     acknowledgeNotification := fun s _ => (Good, attrs s);
     process_subscription := publish_one;
     _publish_pending_notifications := publish_one;
     resetLifeTimeCounter := fun a => a;
     resendInitialValues := fun a => a |}.

(** The same with the sort of V8 before version 7.0. *)
Definition v8_legacy_collaborators : Collaborators :=
  {| defaultRequestHandle := 3735928559;
     Array_sort := v8_legacy_sort O;
     acknowledgeNotification := fun s _ => (Good, attrs s);
     process_subscription := publish_one;
     _publish_pending_notifications := publish_one;
     resetLifeTimeCounter := fun a => a;
     resendInitialValues := fun a => a |}.

(** An idle subscription of [priority] [p]: state Normal, a message has been
    sent, nothing to publish. *)
Definition idle_attrs (p : Z) : SubAttrs :=
  {| priority := p; publishingEnabled := true; state := NORMAL;
     messageSent := true; timeToExpiration := 100;
     hasPendingNotifications := false; retained := [];
     nextSequenceNumber := 1 |}.

(** A late subscription of [priority] [p] with [t] ticks to live. *)
Definition late_attrs (p t : Z) : SubAttrs :=
  {| priority := p; publishingEnabled := true; state := LATE;
     messageSent := true; timeToExpiration := t;
     hasPendingNotifications := true; retained := [];
     nextSequenceNumber := 1 |}.

(** A closed subscription that still has notifications to deliver. *)
Definition draining_attrs : SubAttrs :=
  {| priority := 0; publishingEnabled := true; state := CLOSED;
     messageSent := true; timeToExpiration := 100;
     hasPendingNotifications := true; retained := [4; 5];
     nextSequenceNumber := 6 |}.

(** A store in which the subscription behind the reference [r] has id [r],
    is idle and belongs to no engine; the clock shows [t]. *)
Definition store0 (t : Z) : Store :=
  {| heap := fun r => {| subscription_id := Z.of_nat r; publishEngine := None;
                         attrs := idle_attrs 0 |};
     calls := []; invocations := []; clock := t |}.

Definition header (handle hint : Z) : RequestHeader :=
  {| requestHandle := handle; timeoutHint := hint |}.

(** What the callback log shows: who was called, for which request handle,
    with which service result, and whether a notification came along. *)
Definition summary (c : CallbackCall) : Callback * Z * StatusCode * bool :=
  (cc_callback c,
   rh_requestHandle (responseHeader (cc_response c)),
   serviceResult (responseHeader (cc_response c)),
   match notificationMessage (cc_response c) with Some _ => true | None => false end).

(** * The vocabulary of the properties *)

(** [keeps I m]: the computation [m] maintains [I], also when it throws. *)
Definition keeps {S A} (I : S -> Prop) (m : M S A) : Prop :=
  forall s, I s -> I (snd (m s)).

(** [follows_ok R m]: whenever [m] returns, the states before and after are
    related by [R]. *)
Definition follows_ok {S A} (R : S -> S -> Prop) (m : M S A) : Prop :=
  forall s a s', m s = (Ok a, s') -> R s s'.

(** [never_out_of_fuel m]: [m] does not stop for lack of fuel. *)
Definition never_out_of_fuel {S A} (m : M S A) : Prop :=
  forall s, fst (m s) <> Throw OutOfFuel.

Definition requests (w : ES) : list PublishData := _publish_request_queue (engine w).
Definition responses (w : ES) : list PublishResponse := _publish_response_queue (engine w).

Definition queues_exclusive (w : ES) : Prop :=
  responses w = [] \/ requests w = [].

(** The call [c] answers the record [pd]. *)
Definition answers_to (pd : PublishData) (c : CallbackCall) : Prop :=
  cc_callback c = callback pd /\ cc_request c = request pd /\
  rs_results (cc_response c) = results pd /\
  rh_requestHandle (responseHeader (cc_response c)) =
    requestHandle (requestHeader (request pd)).

(** [drains w w']: from [w] to [w'] the oldest pending requests, and only
    they, were answered, in their order; nothing was added to the queue and
    the subscription map, the limit and the session flag are as they were. *)
Record drains (w w' : ES) : Prop := {
  drains_consumed :
    exists consumed answers,
      requests w = consumed ++ requests w' /\
      calls (store w') = calls (store w) ++ answers /\
      Forall2 answers_to consumed answers;
  drains_limit :
    maxPublishRequestInQueue (engine w') = maxPublishRequestInQueue (engine w);
  drains_session : isSessionClosed (engine w') = isSessionClosed (engine w);
  drains_subscriptions : _subscriptions (engine w') = _subscriptions (engine w)
}.

Definition ledger (w : ES) : list Callback :=
  map cc_callback (calls (store w)) ++ map callback (requests w).

(** [settles w w']: nothing was admitted and nothing was lost: the queue did
    not grow, the limit is the same, and every callback that left the queue
    was invoked. *)
Record settles (w w' : ES) : Prop := {
  settles_limit :
    maxPublishRequestInQueue (engine w') = maxPublishRequestInQueue (engine w);
  settles_length : (length (requests w') <= length (requests w))%nat;
  settles_ledger : Permutation (ledger w') (ledger w)
}.

(** Appending to the callback log. *)
Definition log_calls (l : list CallbackCall) (st : Store) : Store :=
  set_calls (calls st ++ l) st.

(** [store_only w w']: only subscription objects and the log of method
    invocations changed. *)
Definition store_only (w w' : ES) : Prop :=
  engine w' = engine w /\
  calls (store w') = calls (store w) /\
  clock (store w') = clock (store w).

(** [self._closed_subscriptions.length > 0 &&
     self._closed_subscriptions[0].hasPendingNotifications] *)
Definition closed_head_pending (w : ES) : bool :=
  match _closed_subscriptions (engine w) with
  | [] => false
  | c :: _ => hasPendingNotifications (attrs (sub w c))
  end.

Definition callback_or_dummy (cb : option Callback) : Callback :=
  match cb with Some f => f | None => dummy_function end.

(** The request object after [prepare_timeout_info] at time [now]. *)
Definition prepared (now : Z) (rq : PublishRequest) : PublishRequest :=
  {| requestHeader := requestHeader rq;
     subscriptionAcknowledgements := subscriptionAcknowledgements rq;
     received_time := Some now;
     timeout_time :=
       Some (if 0 <? timeoutHint (requestHeader rq)
             then now + timeoutHint (requestHeader rq) else 0) |}.

Definition pushed (pd : PublishData) (w : ES) : ES :=
  on_engine (fun E => set_publish_request_queue (_publish_request_queue E ++ [pd]) E) w.

(** The callbacks of the records that an operation admits. *)
Definition admitted (op : Op) : list Callback :=
  match op with
  | Op_on_PublishRequest _ _ cb => [callback_or_dummy cb]
  | _ => []
  end.

Definition is_shutdown (op : Op) : bool :=
  match op with Op_shutdown => true | _ => false end.

Definition within_limit (w : ES) : Prop :=
  1 <= maxPublishRequestInQueue (engine w) /\
  pendingPublishRequestCount (engine w) <= maxPublishRequestInQueue (engine w).

Definition session_closed (w : ES) : Prop := isSessionClosed (engine w) = true.

(** The engine [e] of a world, with the shared store. *)
Definition view (w : World) (e : EngineRef) : ES :=
  {| engine := engines w e; store := shared w |}.

Definition waiting_for_first_publish (w : ES) (r : SubRef) : bool :=
  negb (messageSent (attrs (sub w r)))
  && SubscriptionState_eqb (state (attrs (sub w r))) LATE.

Definition late_and_enabled (w : ES) (r : SubRef) : bool :=
  SubscriptionState_eqb (state (attrs (sub w r))) LATE
  && publishingEnabled (attrs (sub w r)).

Section Vocabulary.
Context {C : Collaborators}.

(** The response that [send_notification_message] builds in the state [w]. *)
Definition notification_response (param : NotificationParam) (w : ES)
  : PublishResponse :=
  new_PublishResponse Good (p_subscriptionId param)
    match getSubscriptionById (p_subscriptionId param) (engine w) with
    | Some r => retained (attrs (sub w r))
    | None => []
    end
    (p_moreNotifications param)
    (Some {| sequenceNumber := p_sequenceNumber param;
             publishTime := clock (store w);
             notificationData := p_notificationData param |}).

(** The state after [send_notification_message param true]. *)
Definition after_forced_notification
    (param : NotificationParam) (s : ES) : ES :=
  match _publish_request_queue (engine s) with
  | [] =>
      on_engine (fun E => set_publish_response_queue
        (_publish_response_queue E ++ [notification_response param s]) E) s
  | oldest :: rest =>
      on_store (log_call (answer oldest (notification_response param s)))
        (on_engine (set_publish_request_queue rest) s)
  end.

(** The stashed responses are as the engine built them. *)
Definition stash_unsent (w : ES) : Prop :=
  Forall (fun r => rh_requestHandle (responseHeader r) = defaultRequestHandle)
         (responses w).

(** The five ways in which [_on_PublishRequest] returns: a stashed response
    is delivered; the session is closed; no subscription and nothing to
    drain; no subscription and one closed-drain step; the request is queued,
    late and closed subscriptions are fed and the limit is enforced. *)
Inductive PublishRequest_case (rq : PublishRequest) (cb : Callback)
    (s1 s' : ES) (rs : list StatusCode) : Prop :=
| case_stashed response rest
    (Hresp : responses s1 = response :: rest)
    (Hreq : requests s1 = [])
    (Hs' : s' = on_store (log_call (answer
                   {| request := rq; results := rs; callback := cb |} response))
                (on_engine (set_publish_response_queue rest) s1))
| case_session_closed
    (Hresp : responses s1 = [])
    (Hclosed : isSessionClosed (engine s1) = true)
    (Hs' : s' = on_store (log_call (answer
                   {| request := rq; results := rs; callback := cb |}
                   (status_only_response BadSessionClosed))) s1)
| case_no_subscription
    (Hresp : responses s1 = [])
    (Hclosed : isSessionClosed (engine s1) = false)
    (Hcount : subscriptionCount (engine s1) = 0)
    (Hhead : closed_head_pending s1 = false)
    (Hs' : s' = on_store (log_call (answer
                   {| request := rq; results := rs; callback := cb |}
                   (status_only_response BadNoSubscription))) s1)
| case_closed_drain
    (Hresp : responses s1 = [])
    (Hclosed : isSessionClosed (engine s1) = false)
    (Hcount : subscriptionCount (engine s1) = 0)
    (Hhead : closed_head_pending s1 = true)
    (Hfeed : _feed_closed_subscription
               (pushed {| request := rq; results := rs; callback := cb |} s1)
             = (Ok true, s'))
    (Hverif : length (requests s') = length (requests s1))
| case_queued s2 s3
    (Hresp : responses s1 = [])
    (Hclosed : isSessionClosed (engine s1) = false)
    (Hcount : subscriptionCount (engine s1) <> 0)
    (Hhint : 0 <= timeoutHint (requestHeader rq))
    (Hlate : _feed_late_subscription
               (pushed {| request := prepared (clock (store s1)) rq;
                          results := rs; callback := cb |} s1)
             = (Ok tt, s2))
    (Hfeed : exists b, _feed_closed_subscription s2 = (Ok b, s3))
    (Hlimit : _handle_too_many_requests s3 = (Ok tt, s')).

End Vocabulary.

(** ** Scenarios *)

Definition subscription_object (i : Z) (e : EngineRef) (a : SubAttrs) : Subscription :=
  {| subscription_id := i; publishEngine := Some e; attrs := a |}.

Definition publish_request (handle hint : Z) (k : nat) : Op :=
  Op_on_PublishRequest (header handle hint) [] (Some (client_callback k)).

(** Subscription 1 has priority 5, subscription 2 has priority 1; both are
    late, enabled, and have delivered before. *)
Definition two_late_subscriptions : list Op :=
  [Op_add_subscription 1%nat; Op_add_subscription 2%nat;
   Env_subscription 1%nat (subscription_object 1 0%nat (late_attrs 5 10));
   Env_subscription 2%nat (subscription_object 2 0%nat (late_attrs 1 10))].

(** Eleven late, enabled subscriptions that have delivered before, with the
    ids 1 to 11; the one with the id 6 has the highest priority, 99. *)
Definition eleven_priorities : list Z := [3; 1; 2; 5; 4; 99; 9; 7; 12; 11; 10].

Definition eleven_late_subscriptions : list Op :=
  flat_map (fun rp : nat * Z =>
              [Op_add_subscription (fst rp);
               Env_subscription (fst rp)
                 (subscription_object (Z.of_nat (fst rp)) 0%nat (late_attrs (snd rp) 10))])
           (combine (seq 1 11) eleven_priorities).

Definition shutdown_with_pending_request : list Op :=
  [Op_add_subscription 1%nat; publish_request 1 0 1;
   Op_detach_subscription 1%nat; Op_shutdown].

(** One request is pending; subscription 1 is closed with notifications
    still to deliver, subscription 2 is detached: no subscription is left,
    the request is still pending and the closed-drain list is not empty. *)
Definition pending_request_and_closed_subscription : list Op :=
  [Op_add_subscription 1%nat; Op_add_subscription 2%nat;
   publish_request 1 0 1;
   Env_subscription 1%nat (subscription_object 1 0%nat draining_attrs);
   Op_on_close_subscription 1%nat;
   Op_detach_subscription 2%nat].

(** A forced notification is stashed, then a Publish request takes it. *)
Definition stash_then_request : list Op :=
  [Op_add_subscription 1%nat;
   Op_send_notification_message
     {| p_subscriptionId := 1; p_sequenceNumber := 1;
        p_notificationData := [DataNotification 0]; p_moreNotifications := false |} true;
   publish_request 1 0 1].

Definition request_then_close_session : list Op :=
  [Op_add_subscription 1%nat; publish_request 1 0 1; publish_request 2 0 2;
   Op_onSessionClose; publish_request 3 0 3].

Definition two_requests_at_limit_2 : list Op :=
  [Op_add_subscription 1%nat; publish_request 1 0 1; publish_request 2 0 2].


(** No request is pending, no subscription is left, and a closed subscription
    has notifications to deliver. *)
Definition closed_subscription_to_drain : list Op :=
  [Op_add_subscription 1%nat;
   Env_subscription 1%nat (subscription_object 1 0%nat draining_attrs);
   Op_on_close_subscription 1%nat].

(** Two engines; subscription 1 is attached to engine 0, on which one
    request is pending. *)
Definition world0 : World :=
  let es := snd (run (C := v8_collaborators) 0%nat
                   [Op_add_subscription 1%nat; publish_request 1 0 1]
                   (fresh None (store0 0))) in
  {| engines := fun e => if Nat.eqb e 0 then engine es
                         else new_ServerSidePublishEngine None;
     shared := store es |}.

(** ** The rest of the engine: getters, and the transfer of all subscriptions *)

(** [get subscriptions()]: [_.map(this._subscriptions)], the subscriptions
    in property order. *)
Definition subscriptions (E : Engine) : list SubRef := obj_values (_subscriptions E).

(** [get hasLateSubscriptions()] *)
Definition hasLateSubscriptions (w : ES) : bool :=
  (0 <? length (findLateSubscriptions w))%nat.

Section TransferAll.
Context {C : Collaborators}.

(** What [transferSubscriptions] does with one property of
    [srcPublishEngine._subscriptions]: [_.forEach] reads the value under the
    key when its turn comes. *)
Definition transfer_key (srcPublishEngine destPublishEngine : EngineRef) (key : Z)
  : M World unit :=
  subscription <- gets (fun w => obj_get key (_subscriptions (engines w srcPublishEngine))) ;;
  match subscription with
  | None => throw TypeError
  | Some r =>
      pe <- gets (fun w => publishEngine (heap (shared w) r)) ;;
      assert (match pe with Some e => Nat.eqb e srcPublishEngine | None => false end) ;;
      transferSubscription r destPublishEngine false
  end.

(** [static transferSubscriptions(srcPublishEngine, destPublishEngine)].
    [tmp] is the object [srcPublishEngine._subscriptions] itself, not a copy;
    [_.forEach] on an object takes the list of its keys first and then
    walks through it, while the callback deletes from the same object. *)
Definition transferSubscriptions (srcPublishEngine destPublishEngine : EngineRef)
  : M World unit :=
  keys <- gets (fun w => map fst (_subscriptions (engines w srcPublishEngine))) ;;
  forEach (transfer_key srcPublishEngine destPublishEngine) keys ;;
  n <- gets (fun w => subscriptionCount (engines w srcPublishEngine)) ;;
  assert (n =? 0).

End TransferAll.

(** ** Further vocabulary *)

(** The invocation of [acknowledgeNotification] that an acknowledgement
    causes: one on the subscription it names, none when the engine does not
    know the subscription. *)
Definition acknowledged (w : ES) (ack : SubscriptionAcknowledgement)
  : list (SubRef * Method) :=
  match getSubscriptionById (ack_subscriptionId ack) (engine w) with
  | Some r => [(r, m_acknowledgeNotification)]
  | None => []
  end.

(** The state in which [on_close_subscription] looks at the number of
    subscriptions left: the subscription has been put on the closed-drain
    list if it has pending notifications, and its id has been deleted from
    the subscription map. *)
Definition closing (subscription : SubRef) (w : ES) : ES :=
  let s := sub w subscription in
  on_engine (fun E =>
    set_subscriptions (obj_delete (subscription_id s) (_subscriptions E)) E)
    (if hasPendingNotifications (attrs s)
     then on_engine (fun E =>
            set_closed_subscriptions (_closed_subscriptions E ++ [subscription]) E) w
     else w).

(** [subscription.timeToExpiration] of the subscription behind a reference. *)
Definition age (w : ES) (r : SubRef) : Z := timeToExpiration (attrs (sub w r)).

(** What the constructor makes of [options.maxPublishRequestInQueue || 100]. *)
Definition configured_limit (options_maxPublishRequestInQueue : option Z) : Z :=
  maxPublishRequestInQueue (new_ServerSidePublishEngine options_maxPublishRequestInQueue).

(** The response of a callback invocation refers to the request it was
    invoked with. *)
Definition correlated (c : CallbackCall) : Prop :=
  rh_requestHandle (responseHeader (cc_response c)) =
  requestHandle (requestHeader (cc_request c)).

(** A response that carries a notification message and the service result
    Good. *)
Definition carries_notification (r : PublishResponse) : Prop :=
  serviceResult (responseHeader r) = Good /\ notificationMessage r <> None.

(** ** Further scenarios *)

(** One subscription is attached and nothing else has happened. *)
Definition one_subscription : list Op := [Op_add_subscription 1%nat].

(** Two subscriptions are attached. *)
Definition two_subscriptions : list Op :=
  [Op_add_subscription 1%nat; Op_add_subscription 2%nat].

(** A forced notification has been stashed for lack of a request. *)
Definition one_stashed_notification : list Op :=
  [Op_add_subscription 1%nat;
   Op_send_notification_message
     {| p_subscriptionId := 1; p_sequenceNumber := 1;
        p_notificationData := [DataNotification 0]; p_moreNotifications := false |} true].

(** A subscription that has never sent a message and is late, with
    publishing disabled and the lowest priority. *)
Definition first_publish_attrs : SubAttrs :=
  {| priority := 0; publishingEnabled := false; state := LATE;
     messageSent := false; timeToExpiration := 3;
     hasPendingNotifications := true; retained := [];
     nextSequenceNumber := 1 |}.

(** Two engines with the subscriptions 1 and 2 attached to engine 0. *)
Definition world_of_two_subscriptions : World :=
  let es := snd (run (C := v8_collaborators) 0%nat two_subscriptions
                   (fresh None (store0 0))) in
  {| engines := fun e => if Nat.eqb e 0 then engine es
                         else new_ServerSidePublishEngine None;
     shared := store es |}.

(** Two engines: subscription 1 is attached to engine 0, and engine 1 holds
    another subscription object that has the id 1 as well. *)
Definition world_with_the_id_taken : World :=
  let es0 := snd (run (C := v8_collaborators) 0%nat one_subscription
                    (fresh None (store0 0))) in
  let es1 := snd (run (C := v8_collaborators) 1%nat
                    [Env_subscription 2%nat
                       {| subscription_id := 1; publishEngine := None;
                          attrs := idle_attrs 0 |};
                     Op_add_subscription 2%nat]
                    (fresh None (store es0))) in
  {| engines := fun e => if Nat.eqb e 0 then engine es0
                         else if Nat.eqb e 1 then engine es1
                         else new_ServerSidePublishEngine None;
     shared := store es1 |}.

(** ** Runs in which operations may throw *)

(** [always R m]: the states before and after [m] are related by [R],
    whether [m] returns or throws. *)
Definition always {S A} (R : S -> S -> Prop) (m : M S A) : Prop :=
  forall s, R s (snd (m s)).

(** Whether a computation returned. *)
Definition returned {A} (r : Result A) : bool :=
  match r with Ok _ => true | Throw _ => false end.

(** [refused h w]: in the state [w], [_on_PublishRequest] refuses a request
    with the header [h]: the request has a negative [timeoutHint] and goes
    into the queueing branch (nothing stashed, the session open, a
    subscription attached), where the assertion of [prepare_timeout_info]
    fails before the record is pushed. *)
Definition refused (h : RequestHeader) (w : ES) : bool :=
  (timeoutHint h <? 0)
  && match responses w with [] => true | _ :: _ => false end
  && negb (isSessionClosed (engine w))
  && negb (subscriptionCount (engine w) =? 0).

(** The callback of the record that an operation accepts in the state [w]:
    every call of [_on_PublishRequest] accepts one, unless it is refused. *)
Definition accepted (op : Op) (w : ES) : list Callback :=
  match op with
  | Op_on_PublishRequest h _ cb =>
      if refused h w then [] else [callback_or_dummy cb]
  | _ => []
  end.

(** [shrinks w w']: the queue of pending requests did not grow. *)
Definition shrinks (w w' : ES) : Prop :=
  (length (requests w') <= length (requests w))%nat.

(** [consumes w w']: the queue of [w'] is what is left of the queue of [w]
    after its oldest requests were taken off. *)
Definition consumes (w w' : ES) : Prop :=
  exists consumed, requests w = consumed ++ requests w'.

(** [throws_short m]: when [m] throws, it has taken a request off the queue
    before, or the queue is empty. *)
Definition throws_short {A} (m : M ES A) : Prop :=
  forall s e s',
    m s = (Throw e, s') ->
    (length (requests s') < length (requests s))%nat \/ requests s' = [].



Section ThrowingRuns.
Context {C : Collaborators}.

(** Running a list of operations to its end: what an operation throws is
    caught by its caller, and the next operation finds the state that the
    throwing one left. *)
Fixpoint run_on (self : EngineRef) (ops : list Op) (w : ES) : ES :=
  match ops with
  | [] => w
  | op :: r => run_on self r (snd (exec self op w))
  end.

(** The callbacks of the records that an operation discards in the state
    [w]: those of the requests that are pending when [shutdown] returns. *)
Definition discarded (self : EngineRef) (op : Op) (w : ES) : list Callback :=
  match op with
  | Op_shutdown =>
      if returned (fst (exec self op w)) then map callback (requests w) else []
  | _ => []
  end.

(** The callbacks accepted, and the callbacks discarded, in the course of a
    run from the state [w]. *)
Fixpoint accepted_by (self : EngineRef) (ops : list Op) (w : ES) : list Callback :=
  match ops with
  | [] => []
  | op :: r => accepted op w ++ accepted_by self r (snd (exec self op w))
  end.

Fixpoint discarded_by (self : EngineRef) (ops : list Op) (w : ES) : list Callback :=
  match ops with
  | [] => []
  | op :: r => discarded self op w ++ discarded_by self r (snd (exec self op w))
  end.

(** An operation strands a request: it throws and leaves the queue of
    pending requests longer than it found it. *)
Definition strands (self : EngineRef) (op : Op) (w : ES) : bool :=
  negb (returned (fst (exec self op w)))
  && (length (requests w) <? length (requests (snd (exec self op w))))%nat.

(** Whether one of the operations of a run from the state [w] strands a
    request. *)
Fixpoint strands_in (self : EngineRef) (ops : list Op) (w : ES) : bool :=
  match ops with
  | [] => false
  | op :: r => strands self op w || strands_in self r (snd (exec self op w))
  end.

(** [reaches_unstranded self w w']: the engine gets from [w] to [w'] by
    operations that returned or threw, none of which stranded a request. *)
Inductive reaches_unstranded (self : EngineRef) (w : ES) : ES -> Prop :=
| unstranded_refl : reaches_unstranded self w w
| unstranded_exec : forall w1 op,
    reaches_unstranded self w w1 -> strands self op w1 = false ->
    reaches_unstranded self w (snd (exec self op w1)).

End ThrowingRuns.

(** Collaborators as [v8_collaborators], with subscriptions whose methods
    send nothing. *)
Definition quiet_collaborators : Collaborators :=
  {| defaultRequestHandle := 3735928559;
     Array_sort := v8_sort (A := SubRef);
     acknowledgeNotification := fun s _ => (Good, attrs s);
     process_subscription := fun _ _ => [];
     _publish_pending_notifications := fun _ _ => [];
     resetLifeTimeCounter := fun a => a;
     resendInitialValues := fun a => a |}.

(** A request is pending when [shutdown] is called in vain and again with
    effect; a request with a negative [timeoutHint] is refused in between. *)
Definition shutdown_twice_and_a_refused_request : list Op :=
  [Op_add_subscription 1%nat; publish_request 1 0 1; Op_shutdown;
   publish_request 2 (-5) 2; Op_detach_subscription 1%nat; Op_shutdown;
   publish_request 3 0 3].

(** Two requests are pending at the limit 2; in between, [shutdown] is
    called in vain and a request with a negative [timeoutHint] is refused. *)
Definition two_requests_and_two_throws : list Op :=
  [Op_add_subscription 1%nat; publish_request 1 0 1; Op_shutdown;
   publish_request 9 (-5) 9; publish_request 2 0 2].


(** * Properties *)

(** ** Reasoning about the monad *)

Lemma bind_Ok {S A B} (m : M S A) (k : A -> M S B) s a s1 :
  m s = (Ok a, s1) -> bind m k s = k a s1.
Proof. intros E. unfold bind. rewrite E. reflexivity. Qed.

Lemma bind_Throw {S A B} (m : M S A) (k : A -> M S B) s e s1 :
  m s = (Throw e, s1) -> bind m k s = (Throw e, s1).
Proof. intros E. unfold bind. rewrite E. reflexivity. Qed.

Lemma bind_inv {S A B} (m : M S A) (k : A -> M S B) s r s' :
  bind m k s = (r, s') ->
  (exists e, m s = (Throw e, s') /\ r = Throw e) \/
  (exists a s1, m s = (Ok a, s1) /\ k a s1 = (r, s')).
Proof.
  unfold bind. destruct (m s) as [[a|e] s1]; intros E.
  - right. exists a, s1. split; [reflexivity | exact E].
  - left. exists e. inversion E; subst. split; reflexivity.
Qed.

Lemma keeps_ret {S A} (I : S -> Prop) (a : A) : keeps I (ret a).
Proof. intros s H. exact H. Qed.

Lemma keeps_throw {S A} (I : S -> Prop) e : keeps I (@throw S A e).
Proof. intros s H. exact H. Qed.

Lemma keeps_gets {S A} (I : S -> Prop) (f : S -> A) : keeps I (gets f).
Proof. intros s H. exact H. Qed.

Lemma keeps_assert {S} (I : S -> Prop) b : keeps I (@assert S b).
Proof. intros s H. destruct b; exact H. Qed.

Lemma keeps_modify {S} (I : S -> Prop) (f : S -> S) :
  (forall s, I s -> I (f s)) -> keeps I (modify f).
Proof. intros Hf s H. apply Hf, H. Qed.

Lemma keeps_bind {S A B} (I : S -> Prop) (m : M S A) (k : A -> M S B) :
  keeps I m -> (forall a, keeps I (k a)) -> keeps I (bind m k).
Proof.
  intros Hm Hk s H. unfold bind. specialize (Hm s H).
  destruct (m s) as [[a|e] s1]; simpl in *.
  - apply Hk, Hm.
  - exact Hm.
Qed.

(** After [gets f] the continuation may use what was read. *)
Lemma keeps_gets_bind {S A B} (I : S -> Prop) (f : S -> A) (k : A -> M S B) :
  (forall s, I s -> I (snd (k (f s) s))) -> keeps I (bind (gets f) k).
Proof. intros Hk s H. apply Hk, H. Qed.

Lemma keeps_forEach {S A} (I : S -> Prop) (f : A -> M S unit) l :
  (forall x, keeps I (f x)) -> keeps I (forEach f l).
Proof.
  intros Hf. induction l as [|x l IH]; simpl.
  - apply keeps_ret.
  - apply keeps_bind; [apply Hf | intros _; exact IH].
Qed.

Lemma keeps_mapM {S A B} (I : S -> Prop) (f : A -> M S B) l :
  (forall x, keeps I (f x)) -> keeps I (mapM f l).
Proof.
  intros Hf. induction l as [|x l IH]; simpl.
  - apply keeps_ret.
  - apply keeps_bind; [apply Hf | intros y].
    apply keeps_bind; [exact IH | intros ys; apply keeps_ret].
Qed.

Lemma keeps_if {S A} (I : S -> Prop) (b : bool) (m1 m2 : M S A) :
  keeps I m1 -> keeps I m2 -> keeps I (if b then m1 else m2).
Proof. destruct b; auto. Qed.

Create HintDb keeps discriminated.
#[export] Hint Resolve keeps_ret keeps_throw keeps_gets keeps_assert
  keeps_forEach keeps_mapM keeps_if : keeps.

(** ** Invariant 1: a stashed response and a pending request never coexist *)

Section Invariant1.
Context {C : Collaborators}.

Lemma exclusive_on_engine (f : Engine -> Engine) :
  (forall E, _publish_request_queue (f E) = _publish_request_queue E) ->
  (forall E, _publish_response_queue (f E) = _publish_response_queue E) ->
  keeps queues_exclusive (modify (on_engine f)).
Proof.
  intros H1 H2. apply keeps_modify. intros s H.
  unfold queues_exclusive, requests, responses in *. simpl.
  rewrite H1, H2. exact H.
Qed.

Ltac keeps_step :=
  match goal with
  | |- keeps _ (bind _ _) => apply keeps_bind; [|intros ?]
  | |- keeps _ (ret _) => apply keeps_ret
  | |- keeps _ (throw _) => apply keeps_throw
  | |- keeps _ (gets _) => apply keeps_gets
  | |- keeps _ (assert _) => apply keeps_assert
  | |- keeps _ (forEach _ _) => apply keeps_forEach; intros ?
  | |- keeps _ (mapM _ _) => apply keeps_mapM; intros ?
  | |- keeps _ (if ?b then _ else _) => destruct b
  | |- keeps _ (match ?x with _ => _ end) => destruct x
  | |- keeps _ (let (_, _) := ?x in _) => destruct x
  | |- keeps _ (modify (on_store _)) => apply keeps_modify; intros ? ?; assumption
  | |- keeps _ (modify (on_engine _)) =>
      solve [apply exclusive_on_engine; intros; reflexivity]
  | |- keeps _ _ => solve [auto with keeps]
  end.

Lemma exclusive_send_response pd rs :
  keeps queues_exclusive (send_response_for_request pd rs).
Proof. unfold send_response_for_request. repeat keeps_step. Qed.

Lemma exclusive_shift : keeps queues_exclusive shift_publish_request.
Proof.
  unfold shift_publish_request. apply keeps_gets_bind. intros s H.
  unfold queues_exclusive, requests, responses in *.
  destruct (_publish_request_queue (engine s)) as [|pd rest] eqn:Q; simpl.
  - rewrite Q. exact H.
  - destruct H as [H|H]; [left; exact H | discriminate].
Qed.

Lemma exclusive_send_shifted o rs :
  keeps queues_exclusive (send_response_for_shifted o rs).
Proof.
  destruct o; simpl; [apply exclusive_send_response | apply keeps_throw].
Qed.

Hint Resolve exclusive_send_response exclusive_shift exclusive_send_shifted : keeps.

Lemma exclusive_send_notification_message param force :
  keeps queues_exclusive (send_notification_message param force).
Proof.
  unfold send_notification_message.
  apply keeps_gets_bind. intros s H.
  unfold bind at 1.
  destruct (assert (S := ES) _ s) as [[[]|e] s1] eqn:A;
    assert (s1 = s) by (unfold assert in A; destruct (_ || _); inversion A; reflexivity);
    subst s1; simpl; [|exact H].
  unfold pendingPublishRequestCount.
  destruct (_publish_request_queue (engine s)) as [|pd rest] eqn:Q; simpl.
  - right. exact Q.
  - destruct H as [H|H]; [|unfold requests in H; congruence].
    unfold shift_publish_request, bind, gets. rewrite Q. simpl.
    apply exclusive_send_response. left. exact H.
Qed.

Hint Resolve exclusive_send_notification_message : keeps.

Lemma exclusive_clear_requests :
  keeps queues_exclusive (modify (on_engine (set_publish_request_queue []))).
Proof. apply keeps_modify. intros s _. right. reflexivity. Qed.

Lemma exclusive_clear_responses :
  keeps queues_exclusive (modify (on_engine (set_publish_response_queue []))).
Proof. apply keeps_modify. intros s _. left. reflexivity. Qed.

Hint Resolve exclusive_clear_requests exclusive_clear_responses : keeps.

Lemma exclusive_send_keep_alive_response i n :
  keeps queues_exclusive (send_keep_alive_response i n).
Proof. unfold send_keep_alive_response. repeat keeps_step. Qed.

Hint Resolve exclusive_send_keep_alive_response : keeps.

Lemma exclusive_run_step r st : keeps queues_exclusive (run_step r st).
Proof.
  destruct st; simpl; repeat keeps_step.
  apply keeps_modify. intros s H. exact H.
Qed.

Hint Resolve exclusive_run_step : keeps.

Lemma exclusive_call_method r m body :
  keeps queues_exclusive (call_method r m body).
Proof. unfold call_method. repeat keeps_step. Qed.

Hint Resolve exclusive_call_method : keeps.

Lemma exclusive_feed_late : keeps queues_exclusive _feed_late_subscription.
Proof. unfold _feed_late_subscription. repeat keeps_step. Qed.

Lemma exclusive_feed_closed : keeps queues_exclusive _feed_closed_subscription.
Proof.
  unfold _feed_closed_subscription. repeat keeps_step.
Qed.

Lemma exclusive_handle_too_many : keeps queues_exclusive _handle_too_many_requests.
Proof. unfold _handle_too_many_requests. repeat keeps_step. Qed.

Hint Resolve exclusive_feed_late exclusive_feed_closed exclusive_handle_too_many : keeps.

Lemma exclusive_cancelPending code :
  keeps queues_exclusive (_cancelPendingPublishRequest code).
Proof.
  unfold _cancelPendingPublishRequest, send_error_for_request. repeat keeps_step.
Qed.

Hint Resolve exclusive_cancelPending : keeps.

Lemma exclusive_cancelTimeoutRequests : keeps queues_exclusive _cancelTimeoutRequests.
Proof.
  unfold _cancelTimeoutRequests.
  apply keeps_bind; [apply keeps_gets | intros n].
  destruct (n =? 0); [apply keeps_ret|].
  apply keeps_bind; [apply keeps_gets | intros t].
  apply keeps_gets_bind. intros s H.
  match goal with |- queues_exclusive (snd (?m s)) =>
    change (queues_exclusive (snd (m s))) end.
  unfold bind at 1. unfold modify at 1.
  match goal with |- context [forEach ?f ?l ?w] =>
    apply (keeps_forEach (I := queues_exclusive) f l); [intros x; auto with keeps|]
  end.
  unfold queues_exclusive, requests, responses in *. simpl.
  destruct H as [H|H]; [left; exact H | right].
  rewrite H. reflexivity.
Qed.

Lemma exclusive_acks acks :
  keeps queues_exclusive (process_subscriptionAcknowledgements acks).
Proof. unfold process_subscriptionAcknowledgements. repeat keeps_step. Qed.

Hint Resolve exclusive_cancelTimeoutRequests exclusive_acks : keeps.

(** [_process_pending_publish_response] keeps the invariant, and when it
    returns [false] no response is stashed. *)
Lemma exclusive_process_pending pd s r s' :
  _process_pending_publish_response pd s = (r, s') ->
  queues_exclusive s ->
  queues_exclusive s' /\ (r = Ok false -> responses s' = []).
Proof.
  intros E H. unfold _process_pending_publish_response in E.
  unfold bind at 1, gets at 1 in E.
  destruct (_publish_response_queue (engine s)) as [|response rest] eqn:R.
  - inversion E; subst. split; [exact H | intros _; exact R].
  - unfold bind at 1, gets at 1 in E. unfold bind at 1, pendingPublishRequestCount in E.
    destruct (_publish_request_queue (engine s)) as [|x q] eqn:Q;
      [|inversion E; subst; split; [exact H | discriminate]].
    simpl in E. unfold bind at 1, modify at 1 in E.
    unfold bind in E.
    match type of E with context [send_response_for_request pd response ?w] =>
      pose proof (@exclusive_send_response pd response w) as K;
      destruct (send_response_for_request pd response w) as [[[]|e] s1]
    end; simpl in *; inversion E; subst.
    + split; [|discriminate]. apply K. right. exact Q.
    + split; [|discriminate]. apply K. right. exact Q.
Qed.

Lemma exclusive_push pd s :
  responses s = [] ->
  queues_exclusive (snd (push_publish_request pd s)).
Proof. intros H. left. exact H. Qed.

Lemma exclusive_on_PublishRequest rq cb :
  keeps queues_exclusive (_on_PublishRequest rq cb).
Proof.
  intros s H. unfold _on_PublishRequest.
  unfold bind at 1.
  pose proof (@exclusive_acks (subscriptionAcknowledgements rq) s H) as H1.
  destruct (process_subscriptionAcknowledgements _ s) as [[rs|e] s1];
    simpl in H1; [|exact H1].
  unfold bind at 1.
  match goal with |- context [_process_pending_publish_response ?pd s1] =>
    destruct (_process_pending_publish_response pd s1) as [r s2] eqn:E;
    destruct (@exclusive_process_pending _ _ _ _ E H1) as [H2 H3];
    destruct r as [[|]|e]
  end; try exact H2.
  specialize (H3 eq_refl).
  unfold bind at 1, gets at 1.
  destruct (isSessionClosed (engine s2)).
  { apply exclusive_send_response. exact H2. }
  unfold bind at 1, gets at 1.
  destruct (subscriptionCount (engine s2) =? 0).
  - unfold bind at 1, gets at 1.
    match goal with |- context [if ?b then _ else _] => destruct b end.
    + unfold bind at 1, gets at 1. unfold bind at 1.
      match goal with |- context [push_publish_request ?pd s2] =>
         pose proof (@exclusive_push pd s2 H3) as H4;
         destruct (push_publish_request pd s2) as [[[]|e] s3]
      end; simpl in H4; [|exact H4].
      revert s3 H4.
      match goal with |- forall s3, _ -> queues_exclusive (snd (?m s3)) =>
        change (keeps queues_exclusive m) end.
      repeat keeps_step.
    + apply exclusive_send_response. exact H2.
  - unfold bind at 1, gets at 1. unfold bind at 1.
    destruct (prepare_timeout_info _ rq s2) as [[rq'|e] s3] eqn:P;
      assert (s3 = s2) by
        (unfold prepare_timeout_info, bind, assert in P;
         destruct (0 <=? _); inversion P; reflexivity);
      subst s3; [|exact H2].
    unfold bind at 1.
    match goal with |- context [push_publish_request ?pd s2] =>
       pose proof (@exclusive_push pd s2 H3) as H4;
       destruct (push_publish_request pd s2) as [[[]|e] s3]
    end; simpl in H4; [|exact H4].
    revert s3 H4.
    match goal with |- forall s3, _ -> queues_exclusive (snd (?m s3)) =>
      change (keeps queues_exclusive m) end.
    repeat keeps_step.
Qed.

Lemma exclusive_add_subscription self r :
  keeps queues_exclusive (add_subscription self r).
Proof. unfold add_subscription. repeat keeps_step. Qed.

Lemma exclusive_detach_subscription self r :
  keeps queues_exclusive (detach_subscription self r).
Proof. unfold detach_subscription. repeat keeps_step. Qed.

Lemma exclusive_shutdown : keeps queues_exclusive shutdown.
Proof. unfold shutdown. repeat keeps_step. Qed.

Lemma exclusive_while fuel :
  keeps queues_exclusive (while_feed_closed_subscription fuel).
Proof. induction fuel; simpl; repeat keeps_step. Qed.

Lemma exclusive_on_close_subscription r :
  keeps queues_exclusive (on_close_subscription r).
Proof.
  pose proof exclusive_while.
  unfold on_close_subscription, cancelPendingPublishRequest.
  repeat keeps_step.
Qed.

Lemma exclusive_exec self op : keeps queues_exclusive (exec self op).
Proof.
  pose proof exclusive_on_PublishRequest.
  pose proof exclusive_add_subscription.
  pose proof exclusive_detach_subscription.
  pose proof exclusive_shutdown.
  pose proof exclusive_on_close_subscription.
  destruct op; simpl;
    unfold _on_tick, onSessionClose, cancelPendingPublishRequestBeforeChannelChange;
    repeat keeps_step.
Qed.

(** C1. In every state that a freshly constructed engine reaches by any
    sequence of public operations (whether they return or throw, and
    whatever the subscriptions and the rest of the server do to the store in
    between), the stashed-response queue is empty or the pending-request
    queue is empty. *)
Theorem C1_queues_never_both_nonempty :
  forall (self : EngineRef) (options : option Z) (st : Store) (w : ES),
    reaches self (fresh options st) w ->
    _publish_response_queue (engine w) = [] \/
    _publish_request_queue (engine w) = [].
Proof.
  intros self options st w R.
  change (queues_exclusive w).
  induction R as [|w1 op R IH].
  - left. reflexivity.
  - apply exclusive_exec. exact IH.
Qed.

End Invariant1.

(** ** Relations between the state before and after a computation that returns *)

Section Preorder.
Variable S : Type.
Variable R : S -> S -> Prop.
Hypothesis R_refl : forall s, R s s.
Hypothesis R_trans : forall a b c, R a b -> R b c -> R a c.

Lemma follows_ret {A} (a : A) : follows_ok R (ret a).
Proof. intros s a' s' E. inversion E; subst. apply R_refl. Qed.

Lemma follows_throw {A} e : follows_ok R (@throw S A e).
Proof. intros s a s' E. discriminate. Qed.

Lemma follows_gets {A} (f : S -> A) : follows_ok R (gets f).
Proof. intros s a s' E. inversion E; subst. apply R_refl. Qed.

Lemma follows_assert b : follows_ok R (@assert S b).
Proof. intros s a s' E. destruct b; inversion E; subst. apply R_refl. Qed.

Lemma follows_modify (f : S -> S) : (forall s, R s (f s)) -> follows_ok R (modify f).
Proof. intros Hf s a s' E. inversion E; subst. apply Hf. Qed.

Lemma follows_bind {A B} (m : M S A) (k : A -> M S B) :
  follows_ok R m -> (forall a, follows_ok R (k a)) -> follows_ok R (bind m k).
Proof.
  intros Hm Hk s b s' E. apply bind_inv in E.
  destruct E as [[e [_ E]]|[a [s1 [E1 E2]]]]; [discriminate|].
  eapply R_trans; [eapply Hm, E1 | eapply Hk, E2].
Qed.

Lemma follows_gets_bind {A B} (f : S -> A) (k : A -> M S B) :
  (forall s b s', k (f s) s = (Ok b, s') -> R s s') -> follows_ok R (bind (gets f) k).
Proof. intros Hk s b s' E. apply (Hk s b s'). exact E. Qed.

Lemma follows_forEach {A} (f : A -> M S unit) l :
  (forall x, follows_ok R (f x)) -> follows_ok R (forEach f l).
Proof.
  intros Hf. induction l as [|x l IH]; simpl.
  - apply follows_ret.
  - apply follows_bind; [apply Hf | intros _; exact IH].
Qed.

Lemma follows_mapM {A B} (f : A -> M S B) l :
  (forall x, follows_ok R (f x)) -> follows_ok R (mapM f l).
Proof.
  intros Hf. induction l as [|x l IH]; simpl.
  - apply follows_ret.
  - apply follows_bind; [apply Hf | intros y].
    apply follows_bind; [exact IH | intros ys; apply follows_ret].
Qed.

End Preorder.

Create HintDb follows discriminated.

(** One step of a proof of [follows_ok R m] by the structure of [m]; [rf] and
    [tr] prove that [R] is reflexive and transitive. *)
Ltac follows_step rf tr :=
  match goal with
  | |- follows_ok _ _ => solve [auto with follows]
  | |- follows_ok _ (bind _ _) => apply (follows_bind tr); [|intros ?]
  | |- follows_ok _ (ret _) => apply (follows_ret _ rf)
  | |- follows_ok _ (throw _) => apply follows_throw
  | |- follows_ok _ (gets _) => apply (follows_gets _ rf)
  | |- follows_ok _ (assert _) => apply (follows_assert _ rf)
  | |- follows_ok _ (forEach _ _) => apply (follows_forEach rf tr); intros ?
  | |- follows_ok _ (mapM _ _) => apply (follows_mapM rf tr); intros ?
  | |- follows_ok _ (if ?b then _ else _) => destruct b
  | |- follows_ok _ (match ?x with _ => _ end) => destruct x
  | |- follows_ok _ (let (_, _) := ?x in _) => destruct x
  end.

(** ** Requests leave the queue only answered *)

Lemma drains_refl w : drains w w.
Proof.
  split; try reflexivity.
  exists [], []. split; [reflexivity|]. split; [symmetry; apply app_nil_r | constructor].
Qed.

Lemma drains_trans a b c : drains a b -> drains b c -> drains a c.
Proof.
  intros [[c1 [a1 [Q1 [L1 F1]]]] M1 S1 U1] [[c2 [a2 [Q2 [L2 F2]]]] M2 S2 U2].
  split; try congruence.
  exists (c1 ++ c2), (a1 ++ a2). split; [|split].
  - rewrite Q1, Q2. apply app_assoc.
  - rewrite L2, L1. symmetry. apply app_assoc.
  - apply Forall2_app; assumption.
Qed.

Section Drains.
Context {C : Collaborators}.

Lemma answer_answers pd rs : answers_to pd (answer pd rs).
Proof. repeat split. Qed.

(** What [send_response_for_request] does when it returns. *)
Lemma send_response_Ok pd rs s a s' :
  send_response_for_request pd rs s = (Ok a, s') ->
  s' = on_store (log_call (answer pd rs)) s.
Proof.
  unfold send_response_for_request, bind, assert.
  destruct (negb _); simpl; intros E; inversion E; reflexivity.
Qed.

Lemma drains_on_store f s :
  calls (f (store s)) = calls (store s) -> drains s (on_store f s).
Proof.
  intros H. split; try reflexivity.
  exists [], []. split; [reflexivity|]. split; [|constructor].
  simpl. rewrite H. symmetry. apply app_nil_r.
Qed.

Lemma drains_shift_send rs :
  follows_ok drains
    (publishData <- shift_publish_request ;; send_response_for_shifted publishData rs).
Proof.
  intros s a s' E. unfold shift_publish_request, bind at 1, bind at 1, gets in E.
  destruct (_publish_request_queue (engine s)) as [|pd rest] eqn:Q; simpl in E.
  - discriminate.
  - apply send_response_Ok in E. subst s'.
    split; try reflexivity.
    exists [pd], [answer pd rs]. unfold requests. simpl. rewrite Q.
    split; [reflexivity|]. split; [reflexivity|].
    constructor; [apply answer_answers | constructor].
Qed.

Hint Resolve drains_shift_send : follows.

Lemma drains_send_notification_message param force :
  follows_ok drains (send_notification_message param force).
Proof.
  unfold send_notification_message.
  repeat (follows_step drains_refl drains_trans).
  apply follows_modify. intros w0. split; try reflexivity.
  exists [], []. split; [reflexivity|]. split; [|constructor].
  simpl. symmetry. apply app_nil_r.
Qed.

Hint Resolve drains_send_notification_message : follows.

Lemma drains_send_keep_alive_response i n :
  follows_ok drains (send_keep_alive_response i n).
Proof.
  unfold send_keep_alive_response. repeat (follows_step drains_refl drains_trans).
Qed.

Hint Resolve drains_send_keep_alive_response : follows.

Lemma drains_run_step r st : follows_ok drains (run_step r st).
Proof.
  destruct st; simpl; repeat (follows_step drains_refl drains_trans).
  apply follows_modify. intros w0. apply drains_on_store. reflexivity.
Qed.

Hint Resolve drains_run_step : follows.

Lemma drains_call_method r m body : follows_ok drains (call_method r m body).
Proof.
  unfold call_method. repeat (follows_step drains_refl drains_trans).
  apply follows_modify. intros w0. apply drains_on_store. reflexivity.
Qed.

Hint Resolve drains_call_method : follows.

Lemma drains_feed_late : follows_ok drains _feed_late_subscription.
Proof.
  unfold _feed_late_subscription. repeat (follows_step drains_refl drains_trans).
Qed.

Lemma drains_feed_closed : follows_ok drains _feed_closed_subscription.
Proof.
  unfold _feed_closed_subscription. repeat (follows_step drains_refl drains_trans).
  apply follows_modify. intros w0. split; try reflexivity.
  exists [], []. split; [reflexivity|]. split; [|constructor].
  simpl. symmetry. apply app_nil_r.
Qed.

End Drains.

(** ** The ledger: callbacks invoked so far, and callbacks still pending *)

Lemma settles_refl w : settles w w.
Proof. split; [reflexivity | apply Nat.le_refl | apply Permutation_refl]. Qed.

Lemma settles_trans a b c : settles a b -> settles b c -> settles a c.
Proof.
  intros [M1 L1 P1] [M2 L2 P2]. split.
  - congruence.
  - eapply Nat.le_trans; eassumption.
  - eapply Permutation_trans; eassumption.
Qed.

Lemma answers_callbacks consumed answers :
  Forall2 answers_to consumed answers ->
  map cc_callback answers = map callback consumed.
Proof.
  induction 1 as [|pd c l l' H _ IH]; simpl; [reflexivity|].
  destruct H as [H _]. rewrite H, IH. reflexivity.
Qed.

Lemma drains_ledger w w' : drains w w' -> ledger w' = ledger w.
Proof.
  intros [[consumed [answers [Q [L F]]]] _ _ _]. unfold ledger.
  rewrite L, Q, !map_app, (answers_callbacks F), app_assoc. reflexivity.
Qed.

Lemma drains_length w w' :
  drains w w' -> (length (requests w') <= length (requests w))%nat.
Proof.
  intros [[consumed [answers [Q _]]] _ _ _]. rewrite Q, length_app. lia.
Qed.

Lemma drains_settles w w' : drains w w' -> settles w w'.
Proof.
  intros D. split.
  - apply (drains_limit D).
  - apply drains_length, D.
  - rewrite (drains_ledger D). apply Permutation_refl.
Qed.

Lemma log_calls_nil w : on_store (log_calls []) w = w.
Proof.
  destruct w as [E [h c i t]]. unfold on_store, log_calls, set_calls. simpl.
  rewrite app_nil_r. reflexivity.
Qed.

Lemma log_calls_app l1 l2 w :
  on_store (log_calls l2) (on_store (log_calls l1) w) = on_store (log_calls (l1 ++ l2)) w.
Proof.
  unfold on_store, log_calls, set_calls. simpl. rewrite app_assoc. reflexivity.
Qed.

Lemma partition_filter {A} (f : A -> bool) l :
  partition f l = (filter f l, filter (fun x => negb (f x)) l).
Proof.
  induction l as [|x l IH]; simpl; [reflexivity|].
  rewrite IH. destruct (f x); reflexivity.
Qed.

Lemma filter_split_perm {A} (f : A -> bool) l :
  Permutation (filter f l ++ filter (fun x => negb (f x)) l) l.
Proof.
  induction l as [|x l IH]; simpl; [constructor|].
  destruct (f x); simpl.
  - constructor. exact IH.
  - eapply Permutation_trans; [apply Permutation_sym, Permutation_middle|].
    constructor. exact IH.
Qed.

Section Settles.
Context {C : Collaborators}.

(** Answering each record of a list with the same response, when it returns. *)
Lemma forEach_send_Ok rs l s a s' :
  forEach (fun pd => send_response_for_request pd rs) l s = (Ok a, s') ->
  s' = on_store (log_calls (map (fun pd => answer pd rs) l)) s.
Proof.
  revert s. induction l as [|pd l IH]; simpl; intros s E.
  - inversion E; subst. symmetry. apply log_calls_nil.
  - apply bind_inv in E. destruct E as [[e [_ E]]|[[] [s1 [E1 E2]]]]; [discriminate|].
    apply send_response_Ok in E1. subst s1.
    apply IH in E2. subst s'.
    apply (log_calls_app [answer pd rs]).
Qed.

(** It returns when the response has a request handle other than 0. *)
Lemma send_response_returns pd rs s :
  rh_requestHandle (responseHeader rs) <> 0 ->
  send_response_for_request pd rs s = (Ok tt, on_store (log_call (answer pd rs)) s).
Proof.
  intros H. unfold send_response_for_request, bind, assert.
  apply Z.eqb_neq in H. rewrite H. reflexivity.
Qed.

Lemma forEach_send_returns rs l s :
  rh_requestHandle (responseHeader rs) <> 0 ->
  forEach (fun pd => send_response_for_request pd rs) l s =
  (Ok tt, on_store (log_calls (map (fun pd => answer pd rs) l)) s).
Proof.
  intros H. revert s. induction l as [|pd l IH]; simpl; intros s.
  - rewrite log_calls_nil. reflexivity.
  - erewrite bind_Ok by (apply send_response_returns, H).
    rewrite IH. f_equal. apply (log_calls_app [answer pd rs]).
Qed.

(** What [_cancelPendingPublishRequest] does when it returns: every pending
    request is answered with the status code, in order, and the queue is
    empty. *)
Lemma cancelPending_Ok code s a s' :
  _cancelPendingPublishRequest code s = (Ok a, s') ->
  s' = on_engine (set_publish_request_queue [])
         (on_store (log_calls (map (fun pd => answer pd (status_only_response code))
                                   (requests s))) s).
Proof.
  unfold _cancelPendingPublishRequest, send_error_for_request.
  unfold bind at 1, gets at 1. intros E.
  apply bind_inv in E. destruct E as [[e [_ E]]|[[] [s1 [E1 E2]]]]; [discriminate|].
  apply forEach_send_Ok in E1. subst s1. inversion E2. reflexivity.
Qed.

Lemma cancelPending_returns code s :
  defaultRequestHandle <> 0 ->
  _cancelPendingPublishRequest code s =
  (Ok tt, on_engine (set_publish_request_queue [])
            (on_store (log_calls (map (fun pd => answer pd (status_only_response code))
                                      (requests s))) s)).
Proof.
  intros H. unfold _cancelPendingPublishRequest, send_error_for_request.
  unfold bind at 1, gets at 1.
  erewrite bind_Ok by (apply forEach_send_returns; exact H).
  reflexivity.
Qed.

Lemma settles_cancelPending code : follows_ok settles (_cancelPendingPublishRequest code).
Proof.
  intros s a s' E. apply cancelPending_Ok in E. subst s'.
  split; simpl.
  - reflexivity.
  - apply Nat.le_0_l.
  - unfold ledger, requests. simpl. rewrite map_app, map_map, app_nil_r. simpl.
    apply Permutation_refl.
Qed.

(** What [_cancelTimeoutRequests] does when it returns. *)
Lemma cancelTimeoutRequests_Ok s a s' :
  _cancelTimeoutRequests s = (Ok a, s') ->
  s' = on_store (log_calls (map (fun pd => answer pd (status_only_response BadTimeout))
                                (filter (timeout_filter (clock (store s))) (requests s))))
         (on_engine (set_publish_request_queue
                       (filter (fun pd => negb (timeout_filter (clock (store s)) pd))
                               (requests s))) s).
Proof.
  unfold _cancelTimeoutRequests. unfold bind at 1, gets at 1.
  unfold pendingPublishRequestCount, requests.
  destruct (_publish_request_queue (engine s)) as [|pd q] eqn:Q.
  - simpl. intros E. assert (s' = s) by (inversion E; reflexivity). subst s'. clear E.
    rewrite log_calls_nil.
    destruct s as [E0 st]; destruct E0; simpl in *; subst; reflexivity.
  - change (Z.of_nat (length (pd :: q)) =? 0) with false. cbv iota.
    unfold bind at 1, gets at 1. unfold bind at 1, gets at 1.
    rewrite Q, partition_filter. unfold bind at 1, modify at 1. cbv beta iota.
    unfold fst, snd. intros E. apply forEach_send_Ok in E. exact E.
Qed.

Lemma cancelTimeoutRequests_returns s :
  defaultRequestHandle <> 0 ->
  _cancelTimeoutRequests s =
  (Ok tt,
   on_store (log_calls (map (fun pd => answer pd (status_only_response BadTimeout))
                            (filter (timeout_filter (clock (store s))) (requests s))))
     (on_engine (set_publish_request_queue
                   (filter (fun pd => negb (timeout_filter (clock (store s)) pd))
                           (requests s))) s)).
Proof.
  intros H.
  destruct (_cancelTimeoutRequests s) as [[[]|e] s'] eqn:E.
  - apply cancelTimeoutRequests_Ok in E. subst s'. reflexivity.
  - exfalso. revert E. unfold _cancelTimeoutRequests. unfold bind at 1, gets at 1.
    destruct (_ =? 0); [discriminate|].
    unfold bind at 1, gets at 1. unfold bind at 1, gets at 1.
    unfold bind at 1, modify at 1. cbv beta iota.
    rewrite forEach_send_returns by exact H. discriminate.
Qed.

Lemma settles_cancelTimeoutRequests : follows_ok settles _cancelTimeoutRequests.
Proof.
  intros s a s' E. apply cancelTimeoutRequests_Ok in E. subst s'.
  split; simpl.
  - reflexivity.
  - unfold requests. simpl. apply filter_length_le.
  - unfold ledger, requests. simpl.
    rewrite map_app, map_map, <- app_assoc. simpl.
    apply Permutation_app_head.
    rewrite <- map_app. apply Permutation_map, filter_split_perm.
Qed.

Lemma settles_on_store f s :
  calls (f (store s)) = calls (store s) -> settles s (on_store f s).
Proof. intros H. apply drains_settles, drains_on_store, H. Qed.

Lemma settles_on_engine f s :
  _publish_request_queue (f (engine s)) = _publish_request_queue (engine s) ->
  maxPublishRequestInQueue (f (engine s)) = maxPublishRequestInQueue (engine s) ->
  settles s (on_engine f s).
Proof.
  intros Q L. split.
  - exact L.
  - unfold requests. simpl. rewrite Q. apply Nat.le_refl.
  - unfold ledger, requests. simpl. rewrite Q. apply Permutation_refl.
Qed.

Hint Resolve settles_cancelPending settles_cancelTimeoutRequests : follows.

Lemma follows_drains_settles {A} (m : M ES A) :
  follows_ok drains m -> follows_ok settles m.
Proof. intros H s a s' E. apply drains_settles. eapply H, E. Qed.

Ltac settles_step :=
  match goal with
  | |- follows_ok settles (modify (on_store _)) =>
      apply follows_modify; intros ?; apply settles_on_store; reflexivity
  | |- follows_ok settles (modify (on_engine _)) =>
      apply follows_modify; intros ?; apply settles_on_engine; reflexivity
  | |- follows_ok settles _ =>
      apply follows_drains_settles; solve [auto with follows]
  | |- _ => follows_step settles_refl settles_trans
  end.

Lemma settles_add_subscription self r : follows_ok settles (add_subscription self r).
Proof. unfold add_subscription. repeat settles_step. Qed.

Lemma settles_detach_subscription self r :
  follows_ok settles (detach_subscription self r).
Proof. unfold detach_subscription. repeat settles_step. Qed.

Lemma settles_while fuel : follows_ok settles (while_feed_closed_subscription fuel).
Proof.
  induction fuel; simpl; repeat settles_step.
  apply follows_drains_settles, drains_feed_closed.
Qed.

Lemma settles_on_close_subscription r : follows_ok settles (on_close_subscription r).
Proof.
  pose proof settles_while.
  unfold on_close_subscription, cancelPendingPublishRequest. repeat settles_step.
Qed.

(** What [shutdown] does when it returns. *)
Lemma shutdown_Ok s a s' :
  shutdown s = (Ok a, s') ->
  subscriptionCount (engine s) = 0 /\
  requests s' = [] /\ responses s' = [] /\ _closed_subscriptions (engine s') = [] /\
  maxPublishRequestInQueue (engine s') = maxPublishRequestInQueue (engine s) /\
  store s' = store s.
Proof.
  unfold shutdown. unfold bind at 1, gets at 1. unfold bind at 1.
  destruct (subscriptionCount (engine s) =? 0) eqn:N; simpl; [|discriminate].
  intros E. inversion E; subst. simpl. apply Z.eqb_eq in N. repeat split. exact N.
Qed.

End Settles.

(** ** The cases of [_on_PublishRequest] *)

Lemma store_only_refl w : store_only w w.
Proof. repeat split. Qed.

Lemma store_only_trans a b c : store_only a b -> store_only b c -> store_only a c.
Proof. intros [E1 [C1 T1]] [E2 [C2 T2]]. repeat split; congruence. Qed.

Section Cases.
Context {C : Collaborators}.

Lemma acks_store_only acks :
  follows_ok store_only (process_subscriptionAcknowledgements acks).
Proof.
  unfold process_subscriptionAcknowledgements.
  repeat (follows_step store_only_refl store_only_trans);
    apply follows_modify; intros w0; repeat split.
Qed.

(** Acknowledgements are always processed to the end. *)
Lemma acks_returns acks s :
  exists rs s1, process_subscriptionAcknowledgements acks s = (Ok rs, s1).
Proof.
  unfold process_subscriptionAcknowledgements. revert s.
  induction acks as [|a l IH]; simpl; intros s.
  - eexists _, _. reflexivity.
  - unfold bind at 1.
    match goal with |- context [bind (gets ?f) ?k s] =>
      assert (exists code s0, bind (gets f) k s = (Ok code, s0)) as [code [s0 E0]]
    end.
    { unfold bind at 1, gets at 1.
      destruct (getSubscriptionById _ _); [|eexists _, _; reflexivity].
      unfold bind at 1, gets at 1.
      destruct (acknowledgeNotification _ _). eexists _, _. reflexivity. }
    rewrite E0. destruct (IH s0) as [rs [s1 E1]].
    unfold bind at 1. rewrite E1. eexists _, _. reflexivity.
Qed.

Lemma process_pending_Ok pd s b s' :
  _process_pending_publish_response pd s = (Ok b, s') ->
  (b = false /\ responses s = [] /\ s' = s) \/
  (b = true /\ exists response rest,
     responses s = response :: rest /\ requests s = [] /\
     s' = on_store (log_call (answer pd response))
            (on_engine (set_publish_response_queue rest) s)).
Proof.
  unfold _process_pending_publish_response. unfold bind at 1, gets at 1.
  unfold responses, requests.
  destruct (_publish_response_queue (engine s)) as [|response rest] eqn:R.
  - intros E. inversion E; subst. left. repeat split.
  - unfold bind at 1, gets at 1. unfold bind at 1, assert, pendingPublishRequestCount.
    destruct (_publish_request_queue (engine s)) as [|x q] eqn:Q; [|discriminate].
    cbn [length Z.of_nat Z.eqb]. unfold ret at 1. cbv iota beta.
    unfold bind at 1, modify at 1. intros E.
    apply bind_inv in E. destruct E as [[e [_ E]]|[[] [s2 [E2 E]]]]; [discriminate|].
    inversion E; subst. apply send_response_Ok in E2.
    right. split; [reflexivity|]. exists response, rest. repeat split. exact E2.
Qed.

Lemma on_PublishRequest_Ok rq cb s s' :
  _on_PublishRequest rq cb s = (Ok tt, s') ->
  exists rs s1,
    process_subscriptionAcknowledgements (subscriptionAcknowledgements rq) s = (Ok rs, s1) /\
    PublishRequest_case rq (callback_or_dummy cb) s1 s' rs.
Proof.
  unfold _on_PublishRequest. intros E.
  apply bind_inv in E. destruct E as [[e [_ E]]|[rs [s1 [E1 E]]]]; [discriminate|].
  exists rs, s1. split; [exact E1|]. clear E1.
  fold (callback_or_dummy cb) in E.
  set (pd := {| request := rq; results := rs; callback := callback_or_dummy cb |}) in *.
  apply bind_inv in E. destruct E as [[e [_ E]]|[b [s2 [E2 E]]]]; [discriminate|].
  apply process_pending_Ok in E2.
  destruct E2 as [[-> [R ->]]|[-> [response [rest [R [Q ->]]]]]].
  - (* nothing stashed *)
    unfold bind at 1, gets at 1 in E.
    destruct (isSessionClosed (engine s1)) eqn:SC.
    { apply send_response_Ok in E. apply case_session_closed; assumption. }
    unfold bind at 1, gets at 1 in E.
    destruct (subscriptionCount (engine s1) =? 0) eqn:N.
    + apply Z.eqb_eq in N.
      unfold bind at 1, gets at 1 in E. fold (closed_head_pending s1) in E.
      destruct (closed_head_pending s1) eqn:HP.
      * unfold bind at 1, gets at 1 in E.
        unfold bind at 1, push_publish_request, modify at 1 in E.
        fold (pushed pd s1) in E.
        apply bind_inv in E. destruct E as [[e [_ E]]|[b [s2 [E2 E]]]]; [discriminate|].
        unfold bind at 1, gets at 1 in E.
        apply bind_inv in E. destruct E as [[e [_ E]]|[[] [s3 [E3 E]]]]; [discriminate|].
        unfold assert in E3, E.
        destruct (_ =? _) eqn:V; [|discriminate]. inversion E3; subst s3.
        destruct b; [|discriminate]. inversion E; subst s'.
        apply Z.eqb_eq in V. unfold pendingPublishRequestCount in V.
        apply case_closed_drain; try assumption.
        unfold requests. lia.
      * apply send_response_Ok in E. apply case_no_subscription; assumption.
    + apply Z.eqb_neq in N.
      unfold bind at 1, gets at 1 in E.
      unfold bind at 1, prepare_timeout_info, bind at 1, assert in E.
      destruct (0 <=? timeoutHint (requestHeader rq)) eqn:TH; [|discriminate].
      apply Z.leb_le in TH.
      unfold ret at 1 in E. cbv iota beta in E. unfold ret at 1 in E. cbv iota beta in E.
      fold (prepared (clock (store s1)) rq) in E.
      unfold bind at 1, push_publish_request, modify at 1 in E.
      match type of E with context [on_engine ?f s1] =>
        change (on_engine f s1) with
          (pushed {| request := prepared (clock (store s1)) rq; results := rs;
                     callback := callback_or_dummy cb |} s1) in E end.
      apply bind_inv in E. destruct E as [[e [_ E]]|[[] [s2 [E2 E]]]]; [discriminate|].
      apply bind_inv in E. destruct E as [[e [_ E]]|[b [s3 [E3 E]]]]; [discriminate|].
      eapply case_queued; try eassumption. exists b. exact E3.
  - (* a stashed response *)
    inversion E; subst s'. eapply case_stashed; try eassumption. reflexivity.
Qed.

End Cases.

(** ** Exactly-once delivery of callbacks (C2) *)

Section ExactlyOnce.
Context {C : Collaborators}.

Hint Resolve drains_shift_send drains_send_notification_message
  drains_send_keep_alive_response drains_run_step drains_call_method
  drains_feed_late drains_feed_closed : follows.

Lemma drains_handle_too_many : follows_ok drains _handle_too_many_requests.
Proof.
  unfold _handle_too_many_requests.
  apply (follows_bind drains_trans); [apply (follows_gets _ drains_refl) | intros n].
  apply (follows_bind drains_trans); [apply (follows_gets _ drains_refl) | intros limit].
  destruct (limit <? n); [|apply (follows_ret _ drains_refl)].
  apply (follows_bind drains_trans); [apply (follows_assert _ drains_refl) | intros _].
  apply drains_shift_send.
Qed.

Lemma ledger_pushed pd s : ledger (pushed pd s) = ledger s ++ [callback pd].
Proof.
  unfold ledger, requests. simpl. rewrite map_app, app_assoc. reflexivity.
Qed.

Lemma ledger_answered pd rs f s :
  _publish_request_queue (f (engine s)) = _publish_request_queue (engine s) ->
  Permutation (ledger (on_store (log_call (answer pd rs)) (on_engine f s)))
              (ledger s ++ [callback pd]).
Proof.
  intros Q. unfold ledger, requests. simpl. rewrite Q, map_app. simpl.
  rewrite <- !app_assoc. apply Permutation_app_head.
  apply Permutation_app_comm.
Qed.

Lemma ledger_store_only s s1 : store_only s s1 -> ledger s1 = ledger s.
Proof. intros [E [L _]]. unfold ledger, requests. rewrite E, L. reflexivity. Qed.

(** Every operation other than [_on_PublishRequest] and [shutdown] settles. *)
Lemma settles_exec self op :
  admitted op = [] -> is_shutdown op = false -> follows_ok settles (exec self op).
Proof.
  pose proof settles_add_subscription. pose proof settles_detach_subscription.
  pose proof settles_on_close_subscription.
  pose proof (@settles_cancelPending C). pose proof (@settles_cancelTimeoutRequests C).
  destruct op; simpl; try discriminate; intros _ _;
    unfold _on_tick, onSessionClose, cancelPendingPublishRequestBeforeChannelChange;
    repeat first
      [ assumption
      | match goal with
        | |- follows_ok settles (modify (on_store _)) =>
            apply follows_modify; intros ?; apply settles_on_store; reflexivity
        | |- follows_ok settles (modify (on_engine _)) =>
            apply follows_modify; intros ?; apply settles_on_engine; reflexivity
        | |- follows_ok settles (send_notification_message _ _) =>
            apply follows_drains_settles, drains_send_notification_message
        | |- follows_ok settles (send_keep_alive_response _ _) =>
            apply follows_drains_settles, drains_send_keep_alive_response
        end
      | follows_step settles_refl settles_trans ].
Qed.

End ExactlyOnce.

(** ** The bound on the queue of pending requests (C3) *)

Section Limit.
Context {C : Collaborators}.

(** What [_handle_too_many_requests] does when it returns. *)
Lemma handle_too_many_Ok s s' :
  _handle_too_many_requests s = (Ok tt, s') ->
  (pendingPublishRequestCount (engine s) <= maxPublishRequestInQueue (engine s) /\ s' = s) \/
  (pendingPublishRequestCount (engine s) = maxPublishRequestInQueue (engine s) + 1 /\
   exists oldest rest,
     requests s = oldest :: rest /\
     s' = on_store (log_call (answer oldest
                      (status_only_response BadTooManyPublishRequests)))
            (on_engine (set_publish_request_queue rest) s)).
Proof.
  unfold _handle_too_many_requests. unfold bind at 1, gets at 1. unfold bind at 1, gets at 1.
  destruct (_ <? _) eqn:L.
  - apply Z.ltb_lt in L. unfold bind at 1, assert.
    destruct (_ =? _) eqn:N; [|discriminate]. apply Z.eqb_eq in N.
    unfold ret at 1. cbv iota beta.
    unfold shift_publish_request, bind at 1, bind at 1, gets at 1.
    unfold requests.
    destruct (_publish_request_queue (engine s)) as [|oldest rest] eqn:Q; [discriminate|].
    simpl. intros E. apply send_response_Ok in E.
    right. split; [exact N|]. exists oldest, rest. split; [reflexivity | exact E].
  - apply Z.ltb_ge in L. intros E. inversion E; subst. left. split; [exact L | reflexivity].
Qed.

Lemma handle_too_many_within s s' :
  _handle_too_many_requests s = (Ok tt, s') ->
  pendingPublishRequestCount (engine s') <= maxPublishRequestInQueue (engine s').
Proof.
  intros E. apply handle_too_many_Ok in E.
  destruct E as [[L ->]|[N [oldest [rest [Q ->]]]]]; [exact L|].
  unfold pendingPublishRequestCount, requests in *. simpl. rewrite Q in N. simpl length in N.
  lia.
Qed.

Lemma settles_within s s' : settles s s' -> within_limit s -> within_limit s'.
Proof.
  intros [M L _] [H1 H2]. unfold within_limit, pendingPublishRequestCount, requests in *.
  rewrite M. split; [exact H1 | lia].
Qed.

Lemma on_PublishRequest_within rq cb s s' :
  _on_PublishRequest rq cb s = (Ok tt, s') -> within_limit s -> within_limit s'.
Proof.
  intros E [H1 H2]. apply on_PublishRequest_Ok in E. destruct E as [rs [s1 [A K]]].
  apply acks_store_only in A. destruct A as [A _].
  unfold within_limit, pendingPublishRequestCount in *. rewrite <- A in H1, H2.
  destruct K.
  - subst s'. simpl. split; assumption.
  - subst s'. simpl. split; assumption.
  - subst s'. simpl. split; assumption.
  - apply drains_feed_closed in Hfeed. rewrite (drains_limit Hfeed). simpl.
    unfold requests in Hverif. rewrite Hverif. split; assumption.
  - destruct Hfeed as [b Hfeed].
    assert (pendingPublishRequestCount (engine s') <= maxPublishRequestInQueue (engine s'))
      as W by (eapply handle_too_many_within; eassumption).
    apply drains_feed_late in Hlate. apply drains_feed_closed in Hfeed.
    apply drains_handle_too_many in Hlimit.
    rewrite (drains_limit Hlimit), (drains_limit Hfeed), (drains_limit Hlate) in *.
    simpl in *. split; assumption.
Qed.

Lemma exec_within self op s s' :
  exec self op s = (Ok tt, s') -> within_limit s -> within_limit s'.
Proof.
  intros E W.
  destruct (is_shutdown op) eqn:SD.
  - destruct op; try discriminate. simpl in E. apply shutdown_Ok in E.
    destruct E as [_ [Q [_ [_ [M _]]]]]. destruct W as [W1 W2].
    unfold within_limit, pendingPublishRequestCount, requests in *.
    rewrite M, Q. simpl. split; lia.
  - destruct (admitted op) eqn:AD.
    + eapply settles_within; [|exact W]. eapply settles_exec; eassumption.
    + destruct op; try discriminate. simpl in E.
      eapply on_PublishRequest_within; eassumption.
Qed.

Lemma fresh_within options st :
  match options with Some n => 0 <= n | None => True end ->
  within_limit (fresh options st).
Proof.
  intros H. unfold within_limit, fresh, pendingPublishRequestCount. simpl.
  destruct options as [n|]; [|lia].
  destruct (n =? 0) eqn:N; [lia|]. apply Z.eqb_neq in N. lia.
Qed.

(** When the queue is over the limit after the feeding steps, nothing was
    consumed in between. *)
Lemma over_limit_nothing_consumed pd s1 s3 :
  within_limit s1 ->
  drains (pushed pd s1) s3 ->
  maxPublishRequestInQueue (engine s3) < pendingPublishRequestCount (engine s3) ->
  requests s3 = requests s1 ++ [pd] /\
  pendingPublishRequestCount (engine s1) = maxPublishRequestInQueue (engine s1).
Proof.
  intros [W1 W2] D L.
  pose proof (drains_limit D) as M. simpl in M.
  destruct (drains_consumed D) as [consumed [answers [Q _]]].
  unfold pendingPublishRequestCount, requests in *. simpl in Q.
  assert (length (_publish_request_queue (engine s1) ++ [pd]) =
          length (consumed ++ _publish_request_queue (engine s3))) as LEN
    by (rewrite Q; reflexivity).
  rewrite !length_app in LEN. simpl in LEN.
  destruct consumed as [|x consumed]; [|simpl in LEN; lia].
  simpl in Q. split; [symmetry; exact Q | simpl in LEN; lia].
Qed.

End Limit.

(** ** Timeouts (C5) *)

Section Timeout.
Context {C : Collaborators}.


Lemma prepare_timeout_info_Ok now rq s :
  0 <= timeoutHint (requestHeader rq) ->
  prepare_timeout_info now rq s = (Ok (prepared now rq), s).
Proof.
  intros H. unfold prepare_timeout_info, bind, assert.
  apply Z.leb_le in H. rewrite H. reflexivity.
Qed.

End Timeout.

(** ** Computing what the methods return *)

Section Returns.
Context {C : Collaborators}.

(** With a pending request: the oldest one is answered. *)
Lemma send_notification_message_delivers param force s oldest rest :
  defaultRequestHandle <> 0 ->
  requests s = oldest :: rest ->
  send_notification_message param force s =
  (Ok tt, on_store (log_call (answer oldest (notification_response param s)))
            (on_engine (set_publish_request_queue rest) s)).
Proof.
  intros H Q. unfold requests in Q.
  unfold send_notification_message, shift_publish_request, send_response_for_shifted,
    bind, gets, assert, pendingPublishRequestCount, ret, modify.
  rewrite Q. cbn [length Z.of_nat Z.ltb Z.eqb Z.compare Pos.of_succ_nat orb].
  simpl orb. cbv iota beta. rewrite Q. cbv iota beta.
  apply send_response_returns. exact H.
Qed.

(** Without a pending request, forced: the response is stashed. *)
Lemma send_notification_message_stashes param s :
  requests s = [] ->
  send_notification_message param true s =
  (Ok tt, on_engine (fun E => set_publish_response_queue
                     (_publish_response_queue E ++ [notification_response param s]) E) s).
Proof.
  intros Q. unfold requests in Q.
  unfold send_notification_message.
  unfold bind at 1, gets at 1. unfold pendingPublishRequestCount. rewrite Q.
  reflexivity.
Qed.

Lemma process_pending_none pd s :
  responses s = [] -> _process_pending_publish_response pd s = (Ok false, s).
Proof.
  intros R. unfold responses in R.
  unfold _process_pending_publish_response, bind, gets. rewrite R. reflexivity.
Qed.

Lemma process_pending_some pd s response rest :
  responses s = response :: rest ->
  requests s = [] ->
  rh_requestHandle (responseHeader response) <> 0 ->
  _process_pending_publish_response pd s =
  (Ok true, on_store (log_call (answer pd response))
              (on_engine (set_publish_response_queue rest) s)).
Proof.
  intros R Q H. unfold responses in R. unfold requests in Q.
  unfold _process_pending_publish_response. unfold bind at 1, gets at 1. rewrite R.
  unfold bind at 1, gets at 1. unfold pendingPublishRequestCount. rewrite Q.
  unfold bind at 1. simpl assert. unfold ret at 1. cbv iota beta.
  unfold bind at 1, modify at 1.
  erewrite bind_Ok by (apply send_response_returns; exact H). reflexivity.
Qed.

(** A stashed response is delivered to the next request. *)
Lemma on_PublishRequest_stashed rq cb s rs s1 response rest :
  process_subscriptionAcknowledgements (subscriptionAcknowledgements rq) s = (Ok rs, s1) ->
  responses s1 = response :: rest ->
  requests s1 = [] ->
  rh_requestHandle (responseHeader response) <> 0 ->
  _on_PublishRequest rq cb s =
  (Ok tt, on_store (log_call (answer
             {| request := rq; results := rs; callback := callback_or_dummy cb |}
             response))
            (on_engine (set_publish_response_queue rest) s1)).
Proof.
  intros A R Q H. unfold _on_PublishRequest. cbv zeta.
  erewrite bind_Ok by exact A.
  erewrite bind_Ok by (apply process_pending_some; eassumption).
  reflexivity.
Qed.

(** Nothing stashed, session closed. *)
Lemma on_PublishRequest_session_closed rq cb s rs s1 :
  defaultRequestHandle <> 0 ->
  process_subscriptionAcknowledgements (subscriptionAcknowledgements rq) s = (Ok rs, s1) ->
  responses s1 = [] ->
  isSessionClosed (engine s1) = true ->
  _on_PublishRequest rq cb s =
  (Ok tt, on_store (log_call (answer
             {| request := rq; results := rs; callback := callback_or_dummy cb |}
             (status_only_response BadSessionClosed))) s1).
Proof.
  intros H A R SC. unfold _on_PublishRequest. cbv zeta.
  erewrite bind_Ok by exact A.
  erewrite bind_Ok by (apply process_pending_none; exact R).
  unfold bind at 1, gets at 1. rewrite SC.
  apply send_response_returns. exact H.
Qed.

(** Nothing stashed, session open, no subscription, nothing to drain. *)
Lemma on_PublishRequest_no_subscription rq cb s rs s1 :
  defaultRequestHandle <> 0 ->
  process_subscriptionAcknowledgements (subscriptionAcknowledgements rq) s = (Ok rs, s1) ->
  responses s1 = [] ->
  isSessionClosed (engine s1) = false ->
  subscriptionCount (engine s1) = 0 ->
  closed_head_pending s1 = false ->
  _on_PublishRequest rq cb s =
  (Ok tt, on_store (log_call (answer
             {| request := rq; results := rs; callback := callback_or_dummy cb |}
             (status_only_response BadNoSubscription))) s1).
Proof.
  intros H A R SC N HP. unfold _on_PublishRequest. cbv zeta.
  erewrite bind_Ok by exact A.
  erewrite bind_Ok by (apply process_pending_none; exact R).
  unfold bind at 1, gets at 1. rewrite SC.
  unfold bind at 1, gets at 1. rewrite N. change (0 =? 0) with true. cbv iota.
  unfold bind at 1, gets at 1. fold (closed_head_pending s1). rewrite HP.
  apply send_response_returns. exact H.
Qed.

(** Without subscriptions every acknowledgement is refused and nothing
    changes. *)
Lemma acks_without_subscriptions acks s :
  subscriptionCount (engine s) = 0 ->
  process_subscriptionAcknowledgements acks s =
  (Ok (map (fun _ => BadSubscriptionIdInvalid) acks), s).
Proof.
  intros N. unfold subscriptionCount, obj_size in N.
  assert (_subscriptions (engine s) = []) as E
    by (destruct (_subscriptions (engine s)); [reflexivity | simpl in N; lia]).
  unfold process_subscriptionAcknowledgements.
  match goal with |- mapM ?g _ _ = _ => set (f := g) end.
  induction acks as [|a l IH]; simpl; [reflexivity|].
  assert (f a s = (Ok BadSubscriptionIdInvalid, s)) as F
    by (unfold f, bind, gets, getSubscriptionById; rewrite E; reflexivity).
  erewrite bind_Ok by exact F. erewrite bind_Ok by exact IH. reflexivity.
Qed.

End Returns.

(** ** A request that arrives when no subscription is left (C6) *)

Section NoSubscription.
Context {C : Collaborators}.

(** C6, as amended.  On an engine without subscriptions, with the session
    open and nothing stashed: if the head of the closed-drain list has
    pending notifications and the call returns, the new record was put at
    the end of the queue and the closed-drain step answered exactly one
    record, the oldest of the queue, so that the queue is as long after the
    call as before it; the record answered is the new one when the queue was
    empty before the call.  Otherwise the call returns, the request is
    answered at once with a status-only BadNoSubscription response and the
    queue is unchanged. *)
Theorem C6_closed_drain_answers_oldest_record :
  forall (s : ES) (rq : PublishRequest) (cb : option Callback),
    subscriptionCount (engine s) = 0 ->
    isSessionClosed (engine s) = false ->
    _publish_response_queue (engine s) = [] ->
    let publishData :=
      {| request := rq;
         results := map (fun _ => BadSubscriptionIdInvalid) (subscriptionAcknowledgements rq);
         callback := callback_or_dummy cb |} in
    (closed_head_pending s = true ->
     forall s',
       _on_PublishRequest rq cb s = (Ok tt, s') ->
       exists oldest rest c,
         _publish_request_queue (engine s) ++ [publishData] = oldest :: rest /\
         _publish_request_queue (engine s') = rest /\
         calls (store s') = calls (store s) ++ [c] /\
         answers_to oldest c /\
         length (_publish_request_queue (engine s')) =
           length (_publish_request_queue (engine s)) /\
         (_publish_request_queue (engine s) = [] -> oldest = publishData)) /\
    (closed_head_pending s = false ->
     defaultRequestHandle <> 0 ->
     exists s',
       _on_PublishRequest rq cb s = (Ok tt, s') /\
       _publish_request_queue (engine s') = _publish_request_queue (engine s) /\
       calls (store s') =
         calls (store s) ++ [answer publishData (status_only_response BadNoSubscription)] /\
       serviceResult (responseHeader (status_only_response BadNoSubscription))
         = BadNoSubscription /\
       notificationMessage (status_only_response BadNoSubscription) = None).
Proof.
  intros s rq cb N SC R publishData.
  assert (process_subscriptionAcknowledgements (subscriptionAcknowledgements rq) s =
          (Ok (map (fun _ => BadSubscriptionIdInvalid) (subscriptionAcknowledgements rq)), s))
    as A by (apply acks_without_subscriptions; exact N).
  split.
  - intros HP s' E.
    apply on_PublishRequest_Ok in E. destruct E as [rs [s1 [A' K]]].
    rewrite A in A'. inversion A'; subst rs s1. clear A'.
    fold publishData in K.
    destruct K as [? ? X| | |_ _ _ _ Hfeed Hverif|? ? _ _ X];
      try congruence; try (unfold responses in *; congruence).
    apply drains_feed_closed in Hfeed.
    destruct (drains_consumed Hfeed) as [consumed [answers [Q [L F]]]].
    unfold requests in *. simpl in Q, L.
    assert (length consumed = 1%nat) as LEN.
    { pose proof (f_equal (@length _) Q) as LL.
      rewrite !length_app in LL. simpl in LL. lia. }
    destruct consumed as [|oldest [|x consumed]]; try discriminate.
    inversion F as [|? c ? l' Hc Hl']; subst. inversion Hl'; subst.
    exists oldest, (_publish_request_queue (engine s')), c.
    repeat split; try assumption; try apply Hc.
    intros Q0. rewrite Q0 in Q. simpl in Q. inversion Q. reflexivity.
  - intros HP H. eexists. split.
    + eapply on_PublishRequest_no_subscription; eassumption.
    + simpl. repeat split.
Qed.

End NoSubscription.

(** ** Keep-alive and notifications for an unknown subscription (C9, C10) *)

Section Notifications.
Context {C : Collaborators}.

(** C9, as amended.  [send_keep_alive_response] returns [false], and does
    nothing, when the subscription id is not in the engine's subscription
    map or no publish request is pending; otherwise it delivers, through
    [send_notification_message], a response to the oldest pending request
    whose notification message has the given sequence number and no
    notification data, with [moreNotifications] false, and returns [true]. *)
Theorem C9_keep_alive_needs_known_subscription_and_request :
  forall (s : ES) (subscriptionId future_sequence_number : Z),
    defaultRequestHandle <> 0 ->
    ((getSubscriptionById subscriptionId (engine s) = None \/
      _publish_request_queue (engine s) = []) ->
     send_keep_alive_response subscriptionId future_sequence_number s = (Ok false, s)) /\
    (forall r oldest rest,
       getSubscriptionById subscriptionId (engine s) = Some r ->
       _publish_request_queue (engine s) = oldest :: rest ->
       let param :=
         {| p_subscriptionId := subscriptionId;
            p_sequenceNumber := future_sequence_number;
            p_notificationData := [];
            p_moreNotifications := false |} in
       exists s',
         send_notification_message param false s = (Ok tt, s') /\
         send_keep_alive_response subscriptionId future_sequence_number s = (Ok true, s') /\
         _publish_request_queue (engine s') = rest /\
         calls (store s') =
           calls (store s) ++ [answer oldest (notification_response param s)] /\
         notificationMessage (notification_response param s) =
           Some {| sequenceNumber := future_sequence_number;
                   publishTime := clock (store s);
                   notificationData := [] |} /\
         moreNotifications (notification_response param s) = false).
Proof.
  intros s i n H. split.
  - intros [G|Q]; unfold send_keep_alive_response, bind, gets.
    + rewrite G. reflexivity.
    + destruct (getSubscriptionById i (engine s)); [|reflexivity].
      unfold pendingPublishRequestCount. rewrite Q. reflexivity.
  - intros r oldest rest G Q param.
    assert (send_notification_message param false s =
            (Ok tt, on_store (log_call (answer oldest (notification_response param s)))
                      (on_engine (set_publish_request_queue rest) s))) as D
      by (apply send_notification_message_delivers; assumption).
    eexists. split; [exact D|]. split.
    + unfold send_keep_alive_response. unfold bind at 1, gets at 1. rewrite G.
      unfold bind at 1, gets at 1. unfold pendingPublishRequestCount. rewrite Q.
      change (Z.of_nat (length (oldest :: rest)) =? 0) with false. cbv iota.
      fold param. erewrite bind_Ok by exact D. reflexivity.
    + simpl. repeat split.
Qed.

(** C10. [send_notification_message] for a subscription id that is not in
    the engine's subscription map, called as its precondition demands (a
    request is pending, or [force]): the response is built with an empty
    list of available sequence numbers and is delivered to the oldest
    pending request or, when none is pending, stashed. *)
Theorem C10_unknown_subscription_gets_empty_available_sequence_numbers :
  forall (s : ES) (param : NotificationParam) (force : bool),
    defaultRequestHandle <> 0 ->
    getSubscriptionById (p_subscriptionId param) (engine s) = None ->
    0 < pendingPublishRequestCount (engine s) \/ force = true ->
    let response :=
      new_PublishResponse Good (p_subscriptionId param) [] (p_moreNotifications param)
        (Some {| sequenceNumber := p_sequenceNumber param;
                 publishTime := clock (store s);
                 notificationData := p_notificationData param |}) in
    availableSequenceNumbers response = [] /\
    exists s',
      send_notification_message param force s = (Ok tt, s') /\
      match _publish_request_queue (engine s) with
      | oldest :: rest =>
          _publish_request_queue (engine s') = rest /\
          _publish_response_queue (engine s') = _publish_response_queue (engine s) /\
          calls (store s') = calls (store s) ++ [answer oldest response]
      | [] =>
          _publish_request_queue (engine s') = [] /\
          _publish_response_queue (engine s') = _publish_response_queue (engine s) ++ [response] /\
          calls (store s') = calls (store s)
      end.
Proof.
  intros s param force H G P response. split; [reflexivity|].
  assert (notification_response param s = response) as NR
    by (unfold notification_response; rewrite G; reflexivity).
  destruct (_publish_request_queue (engine s)) as [|oldest rest] eqn:Q.
  - destruct P as [P|P]; [unfold pendingPublishRequestCount in P; rewrite Q in P; simpl in P; lia|].
    subst force. eexists. split; [apply send_notification_message_stashes; exact Q|].
    simpl. rewrite NR, Q. repeat split.
  - eexists. split; [apply send_notification_message_delivers; [exact H | exact Q]|].
    simpl. rewrite NR. repeat split.
Qed.

End Notifications.

(** ** After the session was closed (C7) *)

(** Walking through the code of a method to show that it keeps an
    invariant; [on_eng] proves that a change of the engine record keeps it,
    from the hypothesis that it held before. *)
Ltac keeps_walk on_eng :=
  repeat match goal with
  | |- keeps _ (bind _ _) => apply keeps_bind; [|intros ?]
  | |- keeps _ (ret _) => apply keeps_ret
  | |- keeps _ (throw _) => apply keeps_throw
  | |- keeps _ (gets _) => apply keeps_gets
  | |- keeps _ (assert _) => apply keeps_assert
  | |- keeps _ (forEach _ _) => apply keeps_forEach; intros ?
  | |- keeps _ (mapM _ _) => apply keeps_mapM; intros ?
  | |- keeps _ (modify _) => apply keeps_modify; intros ? ?; on_eng
  | |- keeps _ _ => solve [auto]
  | |- keeps _ (if ?b then _ else _) => destruct b
  | |- keeps _ (match ?x with _ => _ end) => destruct x
  | |- keeps _ (let (_, _) := ?x in _) => destruct x
  end.

Section SessionClosed.
Context {C : Collaborators}.

Ltac unfold_methods :=
  cbv beta zeta delta
    [exec _on_PublishRequest _on_tick _cancelTimeoutRequests onSessionClose
     cancelPendingPublishRequestBeforeChannelChange cancelPendingPublishRequest
     _cancelPendingPublishRequest shutdown on_close_subscription add_subscription
     detach_subscription _feed_late_subscription _feed_closed_subscription
     _handle_too_many_requests call_method run_step send_keep_alive_response
     send_notification_message send_error_for_request send_response_for_request
     send_response_for_shifted shift_publish_request push_publish_request
     process_subscriptionAcknowledgements _process_pending_publish_response
     prepare_timeout_info].

Lemma session_closed_while fuel :
  keeps session_closed (while_feed_closed_subscription fuel).
Proof.
  induction fuel; simpl; unfold_methods;
    keeps_walk ltac:(first [assumption | reflexivity]).
Qed.

(** Nothing but the constructor clears [isSessionClosed]. *)
Lemma session_closed_exec self op : keeps session_closed (exec self op).
Proof.
  pose proof session_closed_while.
  destruct op; unfold_methods; keeps_walk ltac:(first [assumption | reflexivity]).
Qed.

Lemma session_closed_reaches self w w' :
  reaches self w w' -> session_closed w -> session_closed w'.
Proof.
  intros R H. induction R as [|w1 op R IH]; [exact H|].
  apply session_closed_exec, IH.
Qed.

Lemma stash_unsent_process_pending pd :
  keeps stash_unsent (_process_pending_publish_response pd).
Proof.
  unfold _process_pending_publish_response.
  apply keeps_gets_bind. intros s H.
  unfold stash_unsent, responses in *.
  destruct (_publish_response_queue (engine s)) as [|response rest] eqn:R.
  - simpl. rewrite R. constructor.
  - inversion H; subst.
    match goal with |- Forall _ (_ (_ (snd (?m s)))) =>
      change (stash_unsent (snd (m s))); revert s R;
      change (forall s, _publish_response_queue (engine s) = response :: rest ->
                        stash_unsent (snd (m s)))
    end.
    intros s R. unfold_methods. unfold bind, gets, assert, modify, ret.
    destruct (_ =? 0); simpl.
    + destruct (negb _); simpl; assumption.
    + unfold stash_unsent, responses. rewrite R. constructor; assumption.
Qed.

Lemma stash_unsent_while fuel :
  keeps stash_unsent (while_feed_closed_subscription fuel).
Proof.
  induction fuel; simpl; unfold_methods;
    keeps_walk ltac:(first [ assumption
                           | apply Forall_app; split; [assumption|];
                             constructor; [reflexivity | constructor] ]).
Qed.

Lemma stash_unsent_exec self op : keeps stash_unsent (exec self op).
Proof.
  pose proof stash_unsent_while. pose proof stash_unsent_process_pending.
  destruct op;
    cbv beta zeta delta
      [exec _on_PublishRequest _on_tick _cancelTimeoutRequests onSessionClose
       cancelPendingPublishRequestBeforeChannelChange cancelPendingPublishRequest
       _cancelPendingPublishRequest shutdown on_close_subscription add_subscription
       detach_subscription _feed_late_subscription _feed_closed_subscription
       _handle_too_many_requests call_method run_step send_keep_alive_response
       send_notification_message send_error_for_request send_response_for_request
       send_response_for_shifted shift_publish_request push_publish_request
       process_subscriptionAcknowledgements prepare_timeout_info];
    keeps_walk ltac:(first [ assumption
                           | constructor
                           | apply Forall_app; split; [assumption|];
                             constructor; [reflexivity | constructor] ]).
Qed.

Lemma stash_unsent_reaches self options st w :
  reaches self (fresh options st) w -> stash_unsent w.
Proof.
  intros R. induction R as [|w1 op R IH]; [constructor|].
  apply stash_unsent_exec, IH.
Qed.

Lemma reaches_trans self a b c : reaches self a b -> reaches self b c -> reaches self a c.
Proof.
  intros R1 R2. induction R2 as [|w1 op R2 IH]; [exact R1|].
  apply reaches_exec, IH.
Qed.

Lemma exclusive_reaches self options st w :
  reaches self (fresh options st) w -> queues_exclusive w.
Proof.
  intros R. induction R as [|w1 op R IH]; [left; reflexivity|].
  apply exclusive_exec, IH.
Qed.

(** What [onSessionClose] does. *)
Lemma onSessionClose_returns s :
  defaultRequestHandle <> 0 ->
  onSessionClose s =
  (Ok tt,
   on_engine (set_publish_request_queue [])
     (on_store (log_calls (map (fun pd => answer pd (status_only_response BadSessionClosed))
                               (requests s)))
        (on_engine (set_isSessionClosed true) s))).
Proof.
  intros H. unfold onSessionClose. unfold bind at 1, modify at 1.
  rewrite cancelPending_returns by exact H. reflexivity.
Qed.

(** C7. [onSessionClose] returns; it answers every pending request with a
    status-only BadSessionClosed response, leaves the queue empty and sets
    [isSessionClosed].  In every state that the engine reaches from there,
    [_on_PublishRequest] returns and queues nothing: when no response is
    stashed the request is answered at once with a status-only
    BadSessionClosed response, and when one is stashed the oldest stashed
    response is delivered instead. *)
Theorem C7_session_close_cancels_and_refuses :
  forall (self : EngineRef) (options : option Z) (st : Store) (w0 : ES),
    defaultRequestHandle <> 0 ->
    reaches self (fresh options st) w0 ->
    exists w1,
      onSessionClose w0 = (Ok tt, w1) /\
      _publish_request_queue (engine w1) = [] /\
      isSessionClosed (engine w1) = true /\
      calls (store w1) =
        calls (store w0)
          ++ map (fun pd => answer pd (status_only_response BadSessionClosed))
                 (_publish_request_queue (engine w0)) /\
      serviceResult (responseHeader (status_only_response BadSessionClosed))
        = BadSessionClosed /\
      notificationMessage (status_only_response BadSessionClosed) = None /\
      forall w rq cb,
        reaches self w1 w ->
        exists rs s1 w',
          process_subscriptionAcknowledgements (subscriptionAcknowledgements rq) w
            = (Ok rs, s1) /\
          _on_PublishRequest rq cb w = (Ok tt, w') /\
          _publish_request_queue (engine w') = _publish_request_queue (engine w) /\
          let publishData :=
            {| request := rq; results := rs; callback := callback_or_dummy cb |} in
          match _publish_response_queue (engine w) with
          | [] =>
              calls (store w') =
                calls (store w)
                  ++ [answer publishData (status_only_response BadSessionClosed)] /\
              _publish_response_queue (engine w') = []
          | response :: rest =>
              calls (store w') = calls (store w) ++ [answer publishData response] /\
              _publish_response_queue (engine w') = rest
          end.
Proof.
  intros self options st w0 H R0.
  eexists. split; [apply onSessionClose_returns, H|].
  simpl. repeat split.
  intros w rq cb R.
  assert (reaches self (fresh options st) w) as RW.
  { eapply reaches_trans; [|exact R].
    pose proof (reaches_exec Op_onSessionClose R0) as R1. simpl in R1.
    rewrite (onSessionClose_returns w0 H) in R1. exact R1. }
  assert (session_closed w) as SC
    by (eapply session_closed_reaches; [exact R | reflexivity]).
  pose proof (exclusive_reaches RW) as EX.
  pose proof (stash_unsent_reaches RW) as SU.
  destruct (acks_returns (subscriptionAcknowledgements rq) w) as [rs [s1 A]].
  pose proof A as A'. apply acks_store_only in A'. destruct A' as [AE [AC _]].
  unfold session_closed, queues_exclusive, stash_unsent, responses, requests in *.
  exists rs, s1.
  destruct (_publish_response_queue (engine w)) as [|response rest] eqn:RQ.
  - eexists. split; [exact A|]. split.
    + eapply on_PublishRequest_session_closed; try eassumption.
      * unfold responses. rewrite AE. exact RQ.
      * rewrite AE. exact SC.
    + simpl. rewrite AE, AC, RQ. repeat split.
  - destruct EX as [EX|EX]; [discriminate|].
    inversion SU as [|? ? HR _]; subst.
    eexists. split; [exact A|]. split.
    + eapply on_PublishRequest_stashed; try eassumption.
      * unfold responses. rewrite AE. exact RQ.
      * unfold requests. rewrite AE. exact EX.
      * rewrite HR. exact H.
    + simpl. rewrite AE, AC. repeat split.
Qed.

End SessionClosed.

(** ** Transfer of a subscription to another engine (C8) *)

Lemma obj_get_delete {V} k (o : JSObject V) : obj_get k (obj_delete k o) = None.
Proof.
  induction o as [|[k' v] o IH]; simpl; [reflexivity|].
  destruct (k' =? k) eqn:E; [exact IH|]. simpl. rewrite E. exact IH.
Qed.

Lemma obj_get_insert_index {V} k (v : V) o :
  obj_get k o = None -> obj_get k (obj_insert_index k v o) = Some v.
Proof.
  induction o as [|[k' v'] o IH]; simpl; intros H.
  - rewrite Z.eqb_refl. reflexivity.
  - destruct (k' =? k) eqn:E; [discriminate|].
    destruct (negb (is_array_index k') || (k <? k')); simpl.
    + rewrite Z.eqb_refl. reflexivity.
    + rewrite E. apply IH, H.
Qed.

Lemma obj_get_append {V} k (v : V) o :
  obj_get k o = None -> obj_get k (o ++ [(k, v)]) = Some v.
Proof.
  induction o as [|[k' v'] o IH]; simpl; intros H.
  - rewrite Z.eqb_refl. reflexivity.
  - destruct (k' =? k) eqn:E; [discriminate|]. apply IH, H.
Qed.

Lemma obj_get_set_new {V} k (v : V) o :
  obj_get k o = None -> obj_get k (obj_set k v o) = Some v.
Proof.
  intros H. unfold obj_set, obj_has. rewrite H.
  destruct (is_array_index k); [apply obj_get_insert_index | apply obj_get_append]; exact H.
Qed.

Section TransferProperties.
Context {C : Collaborators}.

Lemma forced_notification_returns param s :
  defaultRequestHandle <> 0 ->
  send_notification_message param true s = (Ok tt, after_forced_notification param s).
Proof.
  intros H. unfold after_forced_notification.
  destruct (_publish_request_queue (engine s)) as [|oldest rest] eqn:Q.
  - apply send_notification_message_stashes. exact Q.
  - apply send_notification_message_delivers; [exact H | exact Q].
Qed.

Lemma detach_subscription_returns self r s :
  publishEngine (sub s r) = Some self ->
  getSubscriptionById (subscription_id (sub s r)) (engine s) = Some r ->
  detach_subscription self r s =
  (Ok r,
   on_store (heap_write r (set_publishEngine None (sub s r)))
     (on_engine (fun E => set_subscriptions
        (obj_delete (subscription_id (sub s r)) (_subscriptions E)) E) s)).
Proof.
  intros P G. unfold detach_subscription.
  unfold bind at 1, gets at 1. rewrite P, Nat.eqb_refl.
  unfold bind at 1, assert, ret at 1. cbv iota beta.
  unfold bind at 1, gets at 1. rewrite G, Nat.eqb_refl.
  reflexivity.
Qed.

Lemma add_subscription_returns self r s :
  publishEngine (sub s r) = None ->
  getSubscriptionById (subscription_id (sub s r)) (engine s) = None ->
  add_subscription self r s =
  (Ok r,
   on_engine (fun E => set_subscriptions
      (obj_set (subscription_id (sub s r)) r (_subscriptions E)) E)
     (on_store (heap_write r (set_publishEngine (Some self) (sub s r))) s)).
Proof.
  intros P G. unfold getSubscriptionById in G.
  unfold add_subscription.
  unfold bind at 1, gets at 1. rewrite P.
  unfold bind at 1, modify at 1. rewrite Nat.eqb_refl.
  unfold bind at 1, assert, ret at 1. cbv iota beta.
  unfold bind at 1, gets at 1. unfold obj_has. simpl engine. rewrite G.
  reflexivity.
Qed.

Lemma at_engine_Ok {A} e (m : M ES A) w a es :
  m (view w e) = (Ok a, es) ->
  at_engine e m w =
  (Ok a, {| engines := fun e' => if Nat.eqb e' e then engine es else engines w e';
            shared := store es |}).
Proof. intros E. unfold at_engine. fold (view w e). rewrite E. reflexivity. Qed.

Lemma forced_notification_frame param s :
  _subscriptions (engine (after_forced_notification param s)) = _subscriptions (engine s) /\
  heap (store (after_forced_notification param s)) = heap (store s) /\
  invocations (store (after_forced_notification param s)) = invocations (store s).
Proof.
  unfold after_forced_notification.
  destruct (_publish_request_queue (engine s)); repeat split.
Qed.

(** C8. A subscription [s] attached to the engine [E1] is transferred to
    another engine [E2] that has no subscription of the same id:
    [transferSubscription] returns; [notifyTransfer] was invoked first and
    sent, through [E1], a response for [s] whose only notification is the
    status change GoodSubscriptionTransferred (delivered to the oldest
    request pending on [E1], or stashed there); [s] is no longer in the
    subscription map of [E1] and is in that of [E2], with [publishEngine]
    referring to [E2]; then [resetLifeTimeCounter] was invoked, and
    [resendInitialValues] was invoked once when [sendInitialValues] is set
    and not at all otherwise. *)
Theorem C8_transferSubscription_moves_subscription :
  forall (w : World) (s : SubRef) (E1 E2 : EngineRef) (sendInitialValues : bool),
    defaultRequestHandle <> 0 ->
    publishEngine (heap (shared w) s) = Some E1 ->
    getSubscriptionById (subscription_id (heap (shared w) s)) (engines w E1) = Some s ->
    E1 <> E2 ->
    getSubscriptionById (subscription_id (heap (shared w) s)) (engines w E2) = None ->
    let s0 := heap (shared w) s in
    let response :=
      new_PublishResponse Good (subscription_id s0) (retained (attrs s0)) false
        (Some {| sequenceNumber := nextSequenceNumber (attrs s0);
                 publishTime := clock (shared w);
                 notificationData :=
                   [StatusChangeNotification GoodSubscriptionTransferred] |}) in
    exists w',
      transferSubscription s E2 sendInitialValues w = (Ok tt, w') /\
      invocations (shared w') =
        invocations (shared w)
          ++ [(s, m_notifyTransfer); (s, m_resetLifeTimeCounter)]
          ++ (if sendInitialValues then [(s, m_resendInitialValues)] else []) /\
      match _publish_request_queue (engines w E1) with
      | oldest :: rest =>
          calls (shared w') = calls (shared w) ++ [answer oldest response] /\
          _publish_request_queue (engines w' E1) = rest /\
          _publish_response_queue (engines w' E1) = _publish_response_queue (engines w E1)
      | [] =>
          calls (shared w') = calls (shared w) /\
          _publish_request_queue (engines w' E1) = [] /\
          _publish_response_queue (engines w' E1) =
            _publish_response_queue (engines w E1) ++ [response]
      end /\
      getSubscriptionById (subscription_id s0) (engines w' E1) = None /\
      getSubscriptionById (subscription_id s0) (engines w' E2) = Some s /\
      publishEngine (heap (shared w') s) = Some E2 /\
      subscription_id (heap (shared w') s) = subscription_id s0 /\
      attrs (heap (shared w') s) =
        (if sendInitialValues
         then resendInitialValues (resetLifeTimeCounter (attrs s0))
         else resetLifeTimeCounter (attrs s0)).
Proof.
  intros w s E1 E2 sendInitialValues H P G NE G2 s0 response.
  fold s0 in P, G, G2.
  assert (Nat.eqb E2 E1 = false) as NE21 by (apply Nat.eqb_neq; congruence).
  assert (Nat.eqb E1 E2 = false) as NE12 by (apply Nat.eqb_neq; congruence).
  unfold transferSubscription.
  unfold bind at 1, gets at 1. fold s0. rewrite P.
  (* notifyTransfer *)
  set (wa := {| engines := engines w;
                shared := log_invocation s m_notifyTransfer (shared w) |}).
  set (es1 := after_forced_notification (transfer_notification s0) (view wa E1)).
  assert (notifyTransfer s w =
          (Ok tt, {| engines := fun e' => if Nat.eqb e' E1 then engine es1 else engines wa e';
                     shared := store es1 |})) as N1.
  { unfold notifyTransfer. unfold bind at 1, modify at 1. fold wa.
    unfold bind at 1, gets at 1. change (heap (shared wa) s) with s0. rewrite P.
    apply at_engine_Ok. apply forced_notification_returns, H. }
  erewrite bind_Ok by exact N1. clear N1.
  destruct (forced_notification_frame (transfer_notification s0) (view wa E1))
    as [F1 [F2 F3]]. fold es1 in F1, F2, F3. simpl in F1, F2, F3.
  set (wb := {| engines := fun e' => if Nat.eqb e' E1 then engine es1 else engines wa e';
                shared := store es1 |}).
  (* detach from the source *)
  assert (view wb E1 = es1) as V1
    by (unfold view, wb; simpl; rewrite Nat.eqb_refl; destruct es1; reflexivity).
  assert (sub es1 s = s0) as S1 by (unfold sub; rewrite F2; reflexivity).
  erewrite bind_Ok.
  2:{ apply at_engine_Ok. rewrite V1. apply detach_subscription_returns.
      - rewrite S1. exact P.
      - rewrite S1. unfold getSubscriptionById. rewrite F1. exact G. }
  rewrite S1.
  match goal with |- context [bind (at_engine E2 _) _ ?x] => set (wc := x) end.
  (* attach to the destination *)
  assert (sub (view wc E2) s = set_publishEngine None s0) as S2
    by (unfold sub, view, wc; simpl; rewrite Nat.eqb_refl; reflexivity).
  erewrite bind_Ok.
  2:{ apply at_engine_Ok. apply add_subscription_returns.
      - rewrite S2. reflexivity.
      - rewrite S2. unfold view, wc. simpl. rewrite NE21. exact G2. }
  rewrite S2. simpl subscription_id.
  (* the hooks *)
  unfold bind at 1, call_hook at 1, modify at 1.
  assert (notification_response (transfer_notification s0) (view wa E1) = response) as NR.
  { unfold notification_response, response, transfer_notification. simpl.
    fold s0. rewrite G. reflexivity. }
  destruct sendInitialValues.
  - eexists. split; [reflexivity|].
    simpl. rewrite !Nat.eqb_refl, ?NE12, ?NE21, F3. simpl.
    rewrite <- !app_assoc. simpl. split; [reflexivity|].
    unfold getSubscriptionById. simpl.
    rewrite obj_get_delete, obj_get_set_new by exact G2.
    unfold es1, after_forced_notification. rewrite NR. unfold view, wa. simpl.
    destruct (_publish_request_queue (engines w E1)) eqn:Q; simpl; rewrite ?Q;
      repeat split.
  - eexists. split; [reflexivity|].
    simpl. rewrite !Nat.eqb_refl, ?NE12, ?NE21, F3. simpl.
    rewrite <- !app_assoc. simpl. split; [reflexivity|].
    unfold getSubscriptionById. simpl.
    rewrite obj_get_delete, obj_get_set_new by exact G2.
    unfold es1, after_forced_notification. rewrite NR. unfold view, wa. simpl.
    destruct (_publish_request_queue (engines w E1)) eqn:Q; simpl; rewrite ?Q;
      repeat split.
Qed.

End TransferProperties.

(** ** Which late subscription is fed (C4) *)

Lemma sortBy_insert_In {A} (key : A -> Z) x l y :
  In y (sortBy_insert key x l) <-> y = x \/ In y l.
Proof.
  induction l as [|z l IH]; simpl.
  - split; intros [H|H]; auto; contradiction.
  - destruct (key x <=? key z); simpl.
    + split; intros [H|H]; auto.
    + rewrite IH. split; intros [H|[H|H]]; auto.
Qed.

Lemma sortBy_In {A} (key : A -> Z) l y : In y (sortBy key l) <-> In y l.
Proof.
  induction l as [|x l IH]; simpl; [reflexivity|].
  rewrite sortBy_insert_In, IH. split; intros [H|H]; auto.
Qed.

(** The first element after [sortBy] has the least key. *)
Lemma sortBy_insert_head {A} (key : A -> Z) x l h :
  (forall h', hd_error l = Some h' -> forall y, In y l -> key h' <= key y) ->
  hd_error (sortBy_insert key x l) = Some h ->
  forall y, In y (sortBy_insert key x l) -> key h <= key y.
Proof.
  destruct l as [|z l]; simpl.
  - intros _ E y [<-|[]]. inversion E. lia.
  - intros Hl. specialize (Hl z eq_refl).
    destruct (key x <=? key z) eqn:L; simpl; intros E; inversion E; subst.
    + apply Z.leb_le in L. intros y [<-|[<-|Hy]]; try lia.
      specialize (Hl y (or_intror Hy)). lia.
    + apply Z.leb_gt in L. intros y [<-|Hy]; [lia|].
      apply sortBy_insert_In in Hy. destruct Hy as [->|Hy]; [lia|].
      apply Hl. right. exact Hy.
Qed.

Lemma sortBy_head_least {A} (key : A -> Z) l h :
  hd_error (sortBy key l) = Some h ->
  In h l /\ forall y, In y l -> key h <= key y.
Proof.
  intros E. split.
  - apply (sortBy_In key). destruct (sortBy key l); inversion E. left. reflexivity.
  - revert h E. induction l as [|x l IH]; simpl; intros h E; [discriminate|].
    intros y Hy.
    apply (sortBy_insert_head key x (sortBy key l)); [|exact E|].
    + intros h' E' y' Hy'. apply (IH h' E'). apply (sortBy_In key). exact Hy'.
    + apply sortBy_insert_In. destruct Hy as [->|Hy]; [left; reflexivity|].
      right. apply sortBy_In. exact Hy.
Qed.

(** With a comparison function that never returns a negative number, the
    whole array counts as one ascending run and is left as it is. *)
Lemma run_continues_all {A} (comparefn : A -> A -> Z) previous l :
  (forall a b, 0 <= comparefn a b) ->
  run_continues comparefn false previous l = length l.
Proof.
  intros H. revert previous. induction l as [|x l IH]; simpl; intros previous.
  - reflexivity.
  - destruct (comparefn x previous <? 0) eqn:L.
    + apply Z.ltb_lt in L. specialize (H x previous). lia.
    + rewrite IH. reflexivity.
Qed.

Lemma v8_sort_never_negative {A} (comparefn : A -> A -> Z) l :
  (forall a b, 0 <= comparefn a b) -> v8_sort comparefn l = l.
Proof.
  intros H. unfold v8_sort, CountAndMakeRun.
  destruct l as [|x [|y l]]; try reflexivity.
  destruct (comparefn y x <? 0) eqn:L.
  - apply Z.ltb_lt in L. specialize (H y x). lia.
  - rewrite run_continues_all by exact H. simpl length.
    rewrite Nat.sub_diag. reflexivity.
Qed.

(** [compare_subscriptions] returns a boolean, which [sort] reads as 1 or 0:
    never a negative number, so it is not a comparison function in the sense
    of ECMAScript ([comparefn(a, b) > 0] should come with
    [comparefn(b, a) < 0]). *)
Lemma compare_subscriptions_never_negative s1 s2 :
  0 <= Z.b2z (compare_subscriptions s1 s2).
Proof. destruct (compare_subscriptions s1 s2); simpl; lia. Qed.

(** It says that one subscription is greater than another without saying
    that the other is less. *)
Lemma compare_subscriptions_not_consistent :
  let s1 := subscription_object 1 0%nat (late_attrs 5 10) in
  let s2 := subscription_object 2 0%nat (late_attrs 1 10) in
  Z.b2z (compare_subscriptions s1 s2) = 1 /\
  Z.b2z (compare_subscriptions s2 s1) = 0.
Proof. split; reflexivity. Qed.

Lemma filter_none {A} (f : A -> bool) l :
  (forall x, In x l -> f x = false) -> filter f l = [].
Proof.
  induction l as [|x l IH]; simpl; intros H; [reflexivity|].
  rewrite (H x (or_introl eq_refl)). apply IH. intros y Hy. apply H. right. exact Hy.
Qed.

Section FeedLate.
Context {C : Collaborators}.

(** When some subscription has never delivered and is late, the one chosen is
    among those and none of them has less time left. *)
Lemma first_publish_least_timeToExpiration w r :
  findSubscriptionWaitingForFirstPublish w = Some r ->
  In r (obj_values (_subscriptions (engine w))) /\
  waiting_for_first_publish w r = true /\
  forall r', In r' (obj_values (_subscriptions (engine w))) ->
             waiting_for_first_publish w r' = true ->
             timeToExpiration (attrs (sub w r)) <= timeToExpiration (attrs (sub w r')).
Proof.
  unfold findSubscriptionWaitingForFirstPublish.
  fold (waiting_for_first_publish w).
  destruct (negb _); [|discriminate]. intros E.
  apply sortBy_head_least in E. destruct E as [I L].
  apply filter_In in I. destruct I as [I W]. split; [exact I|]. split; [exact W|].
  intros r' I' W'. apply L. apply filter_In. split; assumption.
Qed.

Lemma first_publish_found w :
  (exists r, In r (obj_values (_subscriptions (engine w))) /\
             waiting_for_first_publish w r = true) ->
  exists r, findSubscriptionWaitingForFirstPublish w = Some r.
Proof.
  intros [r [I W]]. unfold findSubscriptionWaitingForFirstPublish.
  fold (waiting_for_first_publish w).
  assert (In r (filter (waiting_for_first_publish w)
                       (obj_values (_subscriptions (engine w))))) as F
    by (apply filter_In; split; assumption).
  destruct (filter _ _) as [|x l] eqn:E; [contradiction|].
  simpl negb. cbv iota.
  destruct (sortBy _ (x :: l)) as [|h t] eqn:S.
  - exfalso. assert (In x []) as X; [|contradiction].
    rewrite <- S. apply sortBy_In. left. reflexivity.
  - exists h. reflexivity.
Qed.

(** When no subscription is in either candidate set, none is fed. *)
Lemma nothing_to_feed w :
  (forall r, In r (obj_values (_subscriptions (engine w))) ->
             waiting_for_first_publish w r = false /\ late_and_enabled w r = false) ->
  _feed_late_subscription w = (Ok tt, w).
Proof.
  intros H. unfold _feed_late_subscription, bind, gets.
  destruct (_ =? 0); [reflexivity|].
  unfold findSubscriptionWaitingForFirstPublish, findLateSubscriptionSortedByPriority,
    findLateSubscriptions.
  fold (waiting_for_first_publish w). fold (late_and_enabled w).
  rewrite !filter_none by (intros r Hr; apply H, Hr). reflexivity.
Qed.

End FeedLate.

(** With the sort of V8 the comparison function has no effect: the late
    subscription that comes last in the subscription map is chosen. *)
Lemma v8_sorted_by_priority_is_last w :
  findLateSubscriptionSortedByPriority (C := v8_collaborators) w =
  last_error (findLateSubscriptions w).
Proof.
  unfold findLateSubscriptionSortedByPriority.
  destruct (findLateSubscriptions w) as [|x l] eqn:E; [reflexivity|].
  simpl Nat.eqb. cbv iota. simpl Array_sort.
  rewrite v8_sort_never_negative; [reflexivity|].
  intros a b. apply compare_subscriptions_never_negative.
Qed.

(** ** The loop of [on_close_subscription] ends *)

Lemma fuel_ret {S A} (a : A) : never_out_of_fuel (@ret S A a).
Proof. intros s. discriminate. Qed.

Lemma fuel_gets {S A} (f : S -> A) : never_out_of_fuel (gets f).
Proof. intros s. discriminate. Qed.

Lemma fuel_modify {S} (f : S -> S) : never_out_of_fuel (modify f).
Proof. intros s. discriminate. Qed.

Lemma fuel_assert {S} b : never_out_of_fuel (@assert S b).
Proof. intros s. destruct b; discriminate. Qed.

Lemma fuel_throw {S A} e : e <> OutOfFuel -> never_out_of_fuel (@throw S A e).
Proof. intros H s E. inversion E. contradiction. Qed.

Lemma fuel_bind {S A B} (m : M S A) (k : A -> M S B) :
  never_out_of_fuel m -> (forall a, never_out_of_fuel (k a)) ->
  never_out_of_fuel (bind m k).
Proof.
  intros Hm Hk s. unfold bind. specialize (Hm s).
  destruct (m s) as [[a|e] s1]; simpl in *; [apply Hk|].
  intros E. apply Hm. inversion E. reflexivity.
Qed.

Lemma fuel_forEach {S A} (f : A -> M S unit) l :
  (forall x, never_out_of_fuel (f x)) -> never_out_of_fuel (forEach f l).
Proof.
  intros Hf. induction l; simpl; [apply fuel_ret|].
  apply fuel_bind; [apply Hf | intros _; assumption].
Qed.

Lemma fuel_mapM {S A B} (f : A -> M S B) l :
  (forall x, never_out_of_fuel (f x)) -> never_out_of_fuel (mapM f l).
Proof.
  intros Hf. induction l; simpl; [apply fuel_ret|].
  apply fuel_bind; [apply Hf | intros y].
  apply fuel_bind; [assumption | intros ys; apply fuel_ret].
Qed.

Ltac fuel_walk :=
  repeat match goal with
  | |- never_out_of_fuel (bind _ _) => apply fuel_bind; [|intros ?]
  | |- never_out_of_fuel (ret _) => apply fuel_ret
  | |- never_out_of_fuel (throw _) => apply fuel_throw; discriminate
  | |- never_out_of_fuel (gets _) => apply fuel_gets
  | |- never_out_of_fuel (assert _) => apply fuel_assert
  | |- never_out_of_fuel (modify _) => apply fuel_modify
  | |- never_out_of_fuel (forEach _ _) => apply fuel_forEach; intros ?
  | |- never_out_of_fuel (mapM _ _) => apply fuel_mapM; intros ?
  | |- never_out_of_fuel _ => solve [auto]
  | |- never_out_of_fuel (if ?b then _ else _) => destruct b
  | |- never_out_of_fuel (match ?x with _ => _ end) => destruct x
  | |- never_out_of_fuel (let (_, _) := ?x in _) => destruct x
  end.

Section Fuel.
Context {C : Collaborators}.

Ltac unfold_methods :=
  cbv beta zeta delta
    [exec _on_PublishRequest _on_tick _cancelTimeoutRequests onSessionClose
     cancelPendingPublishRequestBeforeChannelChange cancelPendingPublishRequest
     _cancelPendingPublishRequest shutdown add_subscription
     detach_subscription _feed_late_subscription _feed_closed_subscription
     _handle_too_many_requests call_method run_step send_keep_alive_response
     send_notification_message send_error_for_request send_response_for_request
     send_response_for_shifted shift_publish_request push_publish_request
     process_subscriptionAcknowledgements _process_pending_publish_response
     prepare_timeout_info].

Lemma fuel_feed_closed : never_out_of_fuel _feed_closed_subscription.
Proof. unfold_methods. fuel_walk. Qed.

(** The body of a Subscription method leaves the closed list alone. *)
Lemma closed_list_call_method l r m body :
  keeps (fun w => _closed_subscriptions (engine w) = l) (call_method r m body).
Proof. unfold_methods. keeps_walk assumption. Qed.

(** A round of the loop that goes on has shortened the closed list. *)
Lemma feed_closed_shortens s s' :
  _feed_closed_subscription s = (Ok true, s') ->
  (length (_closed_subscriptions (engine s')) < length (_closed_subscriptions (engine s)))%nat.
Proof.
  unfold _feed_closed_subscription. unfold bind at 1, gets at 1.
  destruct (_ =? 0); [discriminate|].
  unfold bind at 1, gets at 1.
  destruct (_closed_subscriptions (engine s)) as [|c rest] eqn:Q; [discriminate|].
  unfold bind at 1, modify at 1. unfold bind at 1, gets at 1.
  destruct (hasPendingNotifications _); [|discriminate].
  intros E. apply bind_inv in E. destruct E as [[e [_ E]]|[[] [s1 [E1 E]]]]; [discriminate|].
  inversion E; subst s'.
  pose proof (@closed_list_call_method rest c m_publish_pending_notifications
                _publish_pending_notifications
                (on_engine (set_closed_subscriptions rest) s) eq_refl) as K.
  rewrite E1 in K. simpl in K. rewrite K. simpl. lia.
Qed.

Lemma fuel_while fuel s :
  (length (_closed_subscriptions (engine s)) < fuel)%nat ->
  fst (while_feed_closed_subscription fuel s) <> Throw OutOfFuel.
Proof.
  revert s. induction fuel as [|k IH]; intros s L; [lia|].
  simpl. unfold bind.
  destruct (_feed_closed_subscription s) as [[[|]|e] s1] eqn:E; simpl.
  - apply IH. apply feed_closed_shortens in E. lia.
  - discriminate.
  - pose proof (fuel_feed_closed s) as F. rewrite E in F. simpl in F.
    intros X. apply F. inversion X. reflexivity.
Qed.

(** [on_close_subscription] gives its loop enough rounds. *)
Lemma on_close_subscription_fuel r : never_out_of_fuel (on_close_subscription r).
Proof.
  unfold on_close_subscription.
  apply fuel_bind; [apply fuel_gets | intros sb].
  apply fuel_bind; [apply fuel_gets | intros known].
  apply fuel_bind; [apply fuel_assert | intros _].
  apply fuel_bind; [destruct (hasPendingNotifications _); [apply fuel_modify | apply fuel_ret]
                   | intros _].
  apply fuel_bind; [apply fuel_modify | intros _].
  apply fuel_bind; [apply fuel_gets | intros n].
  destruct (n =? 0); [|apply fuel_ret].
  intros s. unfold bind at 1, gets at 1. unfold bind at 1.
  pose proof (@fuel_while (S (length (_closed_subscriptions (engine s)))) s
                (Nat.lt_succ_diag_r _)) as F.
  destruct (while_feed_closed_subscription _ s) as [[[]|e] s1]; simpl in *;
    [|intros X; apply F; inversion X; reflexivity].
  revert s1. change (never_out_of_fuel cancelPendingPublishRequest).
  unfold_methods. fuel_walk.
Qed.

(** No operation stops for lack of fuel. *)
Lemma exec_fuel self op : never_out_of_fuel (exec self op).
Proof.
  pose proof on_close_subscription_fuel.
  destruct op; unfold exec; auto; unfold_methods; fuel_walk.
Qed.

End Fuel.

(** ** Runs of operations and reachability *)

Section Runs.
Context {C : Collaborators}.

Lemma reaches_run self ops w : reaches self w (snd (run self ops w)).
Proof.
  revert w. induction ops as [|op ops IH]; simpl; intros w; [constructor|].
  unfold bind. destruct (exec self op w) as [[[]|e] w1] eqn:E.
  - eapply reaches_trans; [|apply IH].
    replace w1 with (snd (exec self op w)) by (rewrite E; reflexivity).
    apply reaches_exec, reaches_refl.
  - simpl. replace w1 with (snd (exec self op w)) by (rewrite E; reflexivity).
    apply reaches_exec, reaches_refl.
Qed.

Lemma reaches_ok_trans self a b c :
  reaches_ok self a b -> reaches_ok self b c -> reaches_ok self a c.
Proof.
  intros R1 R2. induction R2 as [|w1 op w2 R2 IH E]; [exact R1|].
  eapply reaches_ok_exec; eassumption.
Qed.

Lemma reaches_ok_run self ops w w' :
  run self ops w = (Ok tt, w') -> reaches_ok self w w'.
Proof.
  revert w. induction ops as [|op ops IH]; simpl; intros w E.
  - inversion E. constructor.
  - apply bind_inv in E. destruct E as [[e [_ E]]|[[] [w1 [E1 E2]]]]; [discriminate|].
    eapply reaches_ok_trans; [|apply IH, E2].
    eapply reaches_ok_exec; [constructor | exact E1].
Qed.

End Runs.

(** A computation that returns [tt] returns the state it ends in. *)
Lemma returns_tt {S} (m : M S unit) s : fst (m s) = Ok tt -> m s = (Ok tt, snd (m s)).
Proof. destruct (m s) as [r s']. simpl. intros ->. reflexivity. Qed.

Lemma returns_value {S A} (m : M S A) s a : fst (m s) = Ok a -> m s = (Ok a, snd (m s)).
Proof. destruct (m s) as [r s']. simpl. intros ->. reflexivity. Qed.

(** ** The engine at work: scenarios with the concrete collaborators *)

(** Too many requests: with a limit of 2, the third request evicts the first. *)
Example scenario_too_many :
  let w := snd (run (C := v8_collaborators) 0%nat
                  [Op_add_subscription 1%nat;
                   publish_request 1 0 1; publish_request 2 0 2; publish_request 3 0 3]
                  (fresh (Some 2) (store0 1000))) in
  map summary (calls (store w)) =
    [(client_callback 1, 1, BadTooManyPublishRequests, false)] /\
  map callback (_publish_request_queue (engine w)) =
    [client_callback 2; client_callback 3].
Proof. vm_compute. split; reflexivity. Qed.

(** No subscription: the request is refused at once. *)
Example scenario_no_subscription :
  let w := snd (run (C := v8_collaborators) 0%nat [publish_request 7 0 1]
                  (fresh None (store0 1000))) in
  map summary (calls (store w)) = [(client_callback 1, 7, BadNoSubscription, false)] /\
  _publish_request_queue (engine w) = [].
Proof. vm_compute. split; reflexivity. Qed.

(** Timeout: a request with a hint of 1000 ms received at 1000 has timed out
    at 2500; a request with the hint 0 stays. *)
Example scenario_timeout :
  let w := snd (run (C := v8_collaborators) 0%nat
                  [Op_add_subscription 1%nat;
                   publish_request 1 1000 1; publish_request 2 0 2;
                   Env_clock 2500; Op_on_tick]
                  (fresh None (store0 1000))) in
  map summary (calls (store w)) = [(client_callback 1, 1, BadTimeout, false)] /\
  map callback (_publish_request_queue (engine w)) = [client_callback 2].
Proof. vm_compute. split; reflexivity. Qed.

(** *** C4: two late subscriptions *)

(** C4 (the code departs from it).  [compare_subscriptions] returns a
    boolean, which [sort] reads as 1 or 0 and never as a negative number.

    With [Array.prototype.sort] of V8 since version 7.0, which then never
    reorders anything: the engine holds two late, enabled subscriptions that
    have delivered before, subscription 1 of priority 5 and subscription 2 of
    priority 1; the feed-late step of the next Publish request invokes
    [process_subscription] of subscription 2, not of subscription 1, which
    has the highest priority.

    With the sort of V8 before version 7.0, which is right for up to ten
    elements: the engine holds eleven such subscriptions, of which
    subscription 6 has the highest priority, 99; the feed-late step invokes
    [process_subscription] of subscription 9, of priority 12. *)
Theorem C4_feed_late_serves_lower_priority :
  (let w := snd (run (C := v8_collaborators) 0%nat two_late_subscriptions
                   (fresh None (store0 0))) in
   let w' := snd (_on_PublishRequest (C := v8_collaborators)
                    (new_PublishRequest (header 1 0) []) (Some (client_callback 1)) w) in
   findSubscriptionWaitingForFirstPublish w = None /\
   findLateSubscriptions w = [1%nat; 2%nat] /\
   priority (attrs (sub w 1%nat)) = 5 /\
   priority (attrs (sub w 2%nat)) = 1 /\
   findLateSubscriptionSortedByPriority (C := v8_collaborators) w = Some 2%nat /\
   invocations (store w') = [(2%nat, m_process_subscription)]) /\
  (let w := snd (run (C := v8_legacy_collaborators) 0%nat eleven_late_subscriptions
                   (fresh None (store0 0))) in
   let w' := snd (_on_PublishRequest (C := v8_legacy_collaborators)
                    (new_PublishRequest (header 1 0) []) (Some (client_callback 1)) w) in
   findSubscriptionWaitingForFirstPublish w = None /\
   findLateSubscriptions w = seq 1 11 /\
   map (fun r => priority (attrs (sub w r))) (findLateSubscriptions w) = eleven_priorities /\
   priority (attrs (sub w 6%nat)) = 99 /\
   priority (attrs (sub w 9%nat)) = 12 /\
   findLateSubscriptionSortedByPriority (C := v8_legacy_collaborators) w = Some 9%nat /\
   invocations (store w') = [(9%nat, m_process_subscription)]).
Proof. split; vm_compute; repeat split; reflexivity. Qed.

(** *** C2: a pending request discarded by [shutdown] *)

(** A request is admitted and queued; the subscription is detached and the
    engine shut down; all operations return.  The record is gone from the
    queue and its callback was never invoked. *)
Lemma C2_shutdown_discards_pending_request :
  let r := run (C := v8_collaborators) 0%nat shutdown_with_pending_request
             (fresh None (store0 0)) in
  fst r = Ok tt /\
  flat_map admitted shutdown_with_pending_request = [client_callback 1] /\
  calls (store (snd r)) = [] /\
  _publish_request_queue (engine (snd r)) = [].
Proof. vm_compute. repeat split; reflexivity. Qed.

(** *** C6: the closed-drain step answers an older request *)

Lemma C6_closed_drain_leaves_new_record_queued :
  let w := snd (run (C := v8_collaborators) 0%nat pending_request_and_closed_subscription
                  (fresh None (store0 0))) in
  let r := _on_PublishRequest (C := v8_collaborators)
             (new_PublishRequest (header 2 0) []) (Some (client_callback 2)) w in
  subscriptionCount (engine w) = 0 /\
  isSessionClosed (engine w) = false /\
  _publish_response_queue (engine w) = [] /\
  closed_head_pending w = true /\
  map callback (_publish_request_queue (engine w)) = [client_callback 1] /\
  fst r = Ok tt /\
  map summary (calls (store (snd r))) = [(client_callback 1, 1, Good, true)] /\
  map callback (_publish_request_queue (engine (snd r))) = [client_callback 2].
Proof. vm_compute. repeat split; reflexivity. Qed.

(** *** C9: keep-alive for an unknown subscription *)

Lemma C9_keep_alive_false_with_pending_request :
  let w := snd (run (C := v8_collaborators) 0%nat
                  [Op_add_subscription 1%nat; publish_request 1 0 1]
                  (fresh None (store0 0))) in
  let r := send_keep_alive_response (C := v8_collaborators) 2 7 w in
  pendingPublishRequestCount (engine w) = 1 /\
  getSubscriptionById 2 (engine w) = None /\
  fst r = Ok false /\
  calls (store (snd r)) = [] /\
  map callback (_publish_request_queue (engine (snd r))) = [client_callback 1].
Proof. vm_compute. repeat split; reflexivity. Qed.

(** ** The theorems at concrete inputs *)

Lemma v8_handle_not_0 : defaultRequestHandle (Collaborators := v8_collaborators) <> 0.
Proof. simpl. lia. Qed.

Lemma C1_queues_never_both_nonempty_witness :
  let w := snd (run (C := v8_collaborators) 0%nat stash_then_request
                  (fresh None (store0 0))) in
  reaches (C := v8_collaborators) 0%nat (fresh None (store0 0)) w /\
  (_publish_response_queue (engine w) = [] \/ _publish_request_queue (engine w) = []).
Proof.
  intros w.
  assert (reaches (C := v8_collaborators) 0%nat (fresh None (store0 0)) w) as R
    by apply reaches_run.
  split; [exact R|].
  exact (C1_queues_never_both_nonempty R).
Defined.

Lemma C6_closed_drain_answers_oldest_record_witness :
  let s := snd (run (C := v8_collaborators) 0%nat closed_subscription_to_drain
                  (fresh None (store0 0))) in
  let rq := new_PublishRequest (header 1 0) [] in
  let cb := Some (client_callback 1) in
  let publishData :=
    {| request := rq; results := []; callback := client_callback 1 |} in
  let s' := snd (_on_PublishRequest (C := v8_collaborators) rq cb s) in
  subscriptionCount (engine s) = 0 /\
  isSessionClosed (engine s) = false /\
  _publish_response_queue (engine s) = [] /\
  closed_head_pending s = true /\
  _on_PublishRequest (C := v8_collaborators) rq cb s = (Ok tt, s') /\
  exists oldest rest c,
    _publish_request_queue (engine s) ++ [publishData] = oldest :: rest /\
    _publish_request_queue (engine s') = rest /\
    calls (store s') = calls (store s) ++ [c] /\
    answers_to oldest c /\
    length (_publish_request_queue (engine s')) =
      length (_publish_request_queue (engine s)) /\
    (_publish_request_queue (engine s) = [] -> oldest = publishData).
Proof.
  intros s rq cb publishData s'.
  assert (subscriptionCount (engine s) = 0) as H1 by (vm_compute; reflexivity).
  assert (isSessionClosed (engine s) = false) as H2 by (vm_compute; reflexivity).
  assert (_publish_response_queue (engine s) = []) as H3 by (vm_compute; reflexivity).
  assert (closed_head_pending s = true) as H4 by (vm_compute; reflexivity).
  assert (_on_PublishRequest (C := v8_collaborators) rq cb s = (Ok tt, s')) as E
    by (apply returns_tt; vm_compute; reflexivity).
  split; [exact H1|]. split; [exact H2|]. split; [exact H3|]. split; [exact H4|].
  split; [exact E|].
  exact (proj1 (C6_closed_drain_answers_oldest_record (C := v8_collaborators)
                  s rq cb H1 H2 H3) H4 s' E).
Defined.

Lemma C7_session_close_cancels_and_refuses_witness :
  let w0 := snd (run (C := v8_collaborators) 0%nat
                   [Op_add_subscription 1%nat; publish_request 1 0 1]
                   (fresh None (store0 0))) in
  defaultRequestHandle (Collaborators := v8_collaborators) <> 0 /\
  reaches (C := v8_collaborators) 0%nat (fresh None (store0 0)) w0 /\
  exists w1,
    onSessionClose (C := v8_collaborators) w0 = (Ok tt, w1) /\
    _publish_request_queue (engine w1) = [] /\
    isSessionClosed (engine w1) = true.
Proof.
  intros w0.
  assert (defaultRequestHandle (Collaborators := v8_collaborators) <> 0) as H
    by (simpl; lia).
  assert (reaches (C := v8_collaborators) 0%nat (fresh None (store0 0)) w0) as R
    by apply reaches_run.
  split; [exact H|]. split; [exact R|].
  destruct (C7_session_close_cancels_and_refuses (C := v8_collaborators) H R)
    as [w1 [E [Q [SC _]]]].
  exists w1. split; [exact E|]. split; [exact Q | exact SC].
Defined.

Lemma C8_transferSubscription_moves_subscription_witness :
  let s0 := heap (shared world0) 1%nat in
  defaultRequestHandle (Collaborators := v8_collaborators) <> 0 /\
  publishEngine s0 = Some 0%nat /\
  getSubscriptionById (subscription_id s0) (engines world0 0%nat) = Some 1%nat /\
  0%nat <> 1%nat /\
  getSubscriptionById (subscription_id s0) (engines world0 1%nat) = None /\
  exists w',
    transferSubscription (C := v8_collaborators) 1%nat 1%nat true world0 = (Ok tt, w') /\
    invocations (shared w') =
      invocations (shared world0)
        ++ [(1%nat, m_notifyTransfer); (1%nat, m_resetLifeTimeCounter)]
        ++ [(1%nat, m_resendInitialValues)] /\
    getSubscriptionById (subscription_id s0) (engines w' 0%nat) = None /\
    getSubscriptionById (subscription_id s0) (engines w' 1%nat) = Some 1%nat /\
    publishEngine (heap (shared w') 1%nat) = Some 1%nat.
Proof.
  intros s0.
  assert (defaultRequestHandle (Collaborators := v8_collaborators) <> 0) as H
    by (simpl; lia).
  assert (publishEngine (heap (shared world0) 1%nat) = Some 0%nat) as H1
    by (vm_compute; reflexivity).
  assert (getSubscriptionById (subscription_id (heap (shared world0) 1%nat))
            (engines world0 0%nat) = Some 1%nat) as H2 by (vm_compute; reflexivity).
  assert (0%nat <> 1%nat) as H3 by lia.
  assert (getSubscriptionById (subscription_id (heap (shared world0) 1%nat))
            (engines world0 1%nat) = None) as H4 by (vm_compute; reflexivity).
  split; [exact H|]. split; [exact H1|]. split; [exact H2|]. split; [exact H3|].
  split; [exact H4|].
  destruct (@C8_transferSubscription_moves_subscription v8_collaborators
              world0 1%nat 0%nat 1%nat true H H1 H2 H3 H4)
    as [w' [E [I [_ [G1 [G2 [P _]]]]]]].
  exists w'. split; [exact E|]. split; [exact I|]. split; [exact G1|].
  split; [exact G2 | exact P].
Defined.

Lemma C9_keep_alive_needs_known_subscription_and_request_witness :
  let s := snd (run (C := v8_collaborators) 0%nat
                  [Op_add_subscription 1%nat; publish_request 1 0 1]
                  (fresh None (store0 0))) in
  defaultRequestHandle (Collaborators := v8_collaborators) <> 0 /\
  (getSubscriptionById 2 (engine s) = None \/ _publish_request_queue (engine s) = []) /\
  send_keep_alive_response (C := v8_collaborators) 2 7 s = (Ok false, s).
Proof.
  intros s.
  assert (defaultRequestHandle (Collaborators := v8_collaborators) <> 0) as H
    by (simpl; lia).
  assert (getSubscriptionById 2 (engine s) = None \/ _publish_request_queue (engine s) = [])
    as G by (left; vm_compute; reflexivity).
  split; [exact H|]. split; [exact G|].
  exact (proj1 (C9_keep_alive_needs_known_subscription_and_request
                  (C := v8_collaborators) s 2 7 H) G).
Defined.

Lemma C10_unknown_subscription_gets_empty_available_sequence_numbers_witness :
  let s := snd (run (C := v8_collaborators) 0%nat
                  [Op_add_subscription 1%nat; publish_request 1 0 1]
                  (fresh None (store0 0))) in
  let param :=
    {| p_subscriptionId := 9; p_sequenceNumber := 3;
       p_notificationData := [DataNotification 0]; p_moreNotifications := false |} in
  defaultRequestHandle (Collaborators := v8_collaborators) <> 0 /\
  getSubscriptionById (p_subscriptionId param) (engine s) = None /\
  (0 < pendingPublishRequestCount (engine s) \/ false = true) /\
  exists s',
    send_notification_message (C := v8_collaborators) param false s = (Ok tt, s').
Proof.
  intros s param.
  assert (defaultRequestHandle (Collaborators := v8_collaborators) <> 0) as H
    by (simpl; lia).
  assert (getSubscriptionById (p_subscriptionId param) (engine s) = None) as G
    by (vm_compute; reflexivity).
  assert (0 < pendingPublishRequestCount (engine s) \/ false = true) as P
    by (left; vm_compute; reflexivity).
  split; [exact H|]. split; [exact G|]. split; [exact P|].
  destruct (C10_unknown_subscription_gets_empty_available_sequence_numbers
              (C := v8_collaborators) s param H G P) as [_ [s' [E _]]].
  exists s'. exact E.
Defined.

(** * Further properties of the engine *)

(** ** Subscription map *)

Lemma obj_get_replace_other {V} k k' (v : V) o :
  k' <> k -> obj_get k' (obj_replace k v o) = obj_get k' o.
Proof.
  intros N. induction o as [|[k0 v0] o IH]; simpl; [reflexivity|].
  destruct (k0 =? k) eqn:E; simpl.
  - apply Z.eqb_eq in E. subst k0.
    destruct (k =? k') eqn:E'; [apply Z.eqb_eq in E'; congruence | reflexivity].
  - destruct (k0 =? k'); [reflexivity | exact IH].
Qed.

Lemma obj_get_insert_index_other {V} k k' (v : V) o :
  k' <> k -> obj_get k' (obj_insert_index k v o) = obj_get k' o.
Proof.
  intros N. induction o as [|[k0 v0] o IH]; simpl.
  - destruct (k =? k') eqn:E; [apply Z.eqb_eq in E; congruence | reflexivity].
  - destruct (negb (is_array_index k0) || (k <? k0)); simpl.
    + destruct (k =? k') eqn:E; [apply Z.eqb_eq in E; congruence | reflexivity].
    + destruct (k0 =? k'); [reflexivity | exact IH].
Qed.

Lemma obj_get_append_other {V} k k' (v : V) o :
  k' <> k -> obj_get k' (o ++ [(k, v)]) = obj_get k' o.
Proof.
  intros N. induction o as [|[k0 v0] o IH]; simpl.
  - destruct (k =? k') eqn:E; [apply Z.eqb_eq in E; congruence | reflexivity].
  - destruct (k0 =? k'); [reflexivity | exact IH].
Qed.

Lemma obj_get_set_other {V} k k' (v : V) o :
  k' <> k -> obj_get k' (obj_set k v o) = obj_get k' o.
Proof.
  intros N. unfold obj_set.
  destruct (obj_has k o); [apply obj_get_replace_other, N|].
  destruct (is_array_index k);
    [apply obj_get_insert_index_other, N | apply obj_get_append_other, N].
Qed.

Lemma obj_get_delete_other {V} k k' (o : JSObject V) :
  k' <> k -> obj_get k' (obj_delete k o) = obj_get k' o.
Proof.
  intros N. induction o as [|[k0 v0] o IH]; simpl; [reflexivity|].
  destruct (k0 =? k) eqn:E; simpl.
  - apply Z.eqb_eq in E. subst k0.
    destruct (k =? k') eqn:E'; [apply Z.eqb_eq in E'; congruence | exact IH].
  - destruct (k0 =? k'); [reflexivity | exact IH].
Qed.

Lemma obj_delete_absent {V} k (o : JSObject V) :
  obj_get k o = None -> obj_delete k o = o.
Proof.
  induction o as [|[k0 v0] o IH]; simpl; [reflexivity|].
  destruct (k0 =? k); [discriminate|]. intros H. rewrite IH by exact H. reflexivity.
Qed.

Lemma obj_delete_insert_index {V} k (v : V) o :
  obj_get k o = None -> obj_delete k (obj_insert_index k v o) = o.
Proof.
  induction o as [|[k0 v0] o IH]; simpl.
  - rewrite Z.eqb_refl. reflexivity.
  - destruct (k0 =? k) eqn:E; [discriminate|]. intros H.
    destruct (negb (is_array_index k0) || (k <? k0)); simpl.
    + rewrite Z.eqb_refl, E. rewrite obj_delete_absent by exact H. reflexivity.
    + rewrite E, IH by exact H. reflexivity.
Qed.

Lemma obj_delete_append {V} k (v : V) o :
  obj_get k o = None -> obj_delete k (o ++ [(k, v)]) = o.
Proof.
  induction o as [|[k0 v0] o IH]; simpl.
  - rewrite Z.eqb_refl. reflexivity.
  - destruct (k0 =? k) eqn:E; [discriminate|]. intros H. rewrite IH by exact H. reflexivity.
Qed.

(** Deleting a property that was just created gives the object back, with
    its properties in the order they had. *)
Lemma obj_delete_set_new {V} k (v : V) o :
  obj_get k o = None -> obj_delete k (obj_set k v o) = o.
Proof.
  intros H. unfold obj_set, obj_has. rewrite H.
  destruct (is_array_index k); [apply obj_delete_insert_index | apply obj_delete_append];
    exact H.
Qed.

Lemma obj_size_insert_index {V} k (v : V) o :
  length (obj_insert_index k v o) = S (length o).
Proof.
  induction o as [|[k0 v0] o IH]; simpl; [reflexivity|].
  destruct (negb (is_array_index k0) || (k <? k0)); simpl; [reflexivity|].
  rewrite IH. reflexivity.
Qed.

Lemma obj_size_set_new {V} k (v : V) o :
  obj_get k o = None -> obj_size (obj_set k v o) = obj_size o + 1.
Proof.
  intros H. unfold obj_set, obj_has, obj_size. rewrite H.
  destruct (is_array_index k).
  - rewrite obj_size_insert_index. lia.
  - rewrite length_app. simpl. lia.
Qed.
(** ** Acknowledgements *)

Section Acknowledgements.
Context {C : Collaborators}.

Lemma acknowledge_one ack s :
  exists code s0,
    (subscription <- gets (fun w =>
       getSubscriptionById (ack_subscriptionId ack) (engine w)) ;;
     match subscription with
     | None => ret BadSubscriptionIdInvalid
     | Some r =>
         s <- gets (fun w => sub w r) ;;
         let (code, a) := acknowledgeNotification s (ack_sequenceNumber ack) in
         modify (on_store (log_invocation r m_acknowledgeNotification)) ;;
         modify (on_store (heap_write r (set_attrs a s))) ;;
         ret code
     end) s = (Ok code, s0) /\
    engine s0 = engine s /\ calls (store s0) = calls (store s) /\
    invocations (store s0) = invocations (store s) ++ acknowledged s ack /\
    match getSubscriptionById (ack_subscriptionId ack) (engine s) with
    | None => code = BadSubscriptionIdInvalid /\ s0 = s
    | Some r => code = fst (acknowledgeNotification (sub s r) (ack_sequenceNumber ack))
    end.
Proof.
  unfold bind at 1, gets at 1, acknowledged.
  destruct (getSubscriptionById (ack_subscriptionId ack) (engine s)) as [r|].
  - unfold bind at 1, gets at 1.
    destruct (acknowledgeNotification (sub s r) (ack_sequenceNumber ack)) as [code a] eqn:A.
    eexists _, _. split; [reflexivity|]. simpl. repeat split.
  - eexists _, _. split; [reflexivity|]. simpl. rewrite app_nil_r. repeat split.
Qed.

(** X1. [process_subscriptionAcknowledgements] always returns, with one
    status code per acknowledgement, in order.  An acknowledgement that
    names a subscription the engine does not know gets
    BadSubscriptionIdInvalid and no subscription is called for it; for the
    first acknowledgement of the list, when it names a known subscription,
    the status is what [acknowledgeNotification] of that subscription returns
    for the sequence number.  [acknowledgeNotification] is invoked once per
    acknowledgement of a known subscription, in order, and the engine's
    queues, subscription map and the callbacks invoked are as before. *)
Theorem X1_acknowledgements_one_status_each :
  forall (acks : list SubscriptionAcknowledgement) (s : ES),
  exists rs s',
    process_subscriptionAcknowledgements acks s = (Ok rs, s') /\
    length rs = length acks /\
    Forall2 (fun ack code =>
               getSubscriptionById (ack_subscriptionId ack) (engine s) = None ->
               code = BadSubscriptionIdInvalid) acks rs /\
    (forall ack l r,
       acks = ack :: l ->
       getSubscriptionById (ack_subscriptionId ack) (engine s) = Some r ->
       hd_error rs =
         Some (fst (acknowledgeNotification (sub s r) (ack_sequenceNumber ack)))) /\
    invocations (store s') = invocations (store s) ++ flat_map (acknowledged s) acks /\
    engine s' = engine s /\
    calls (store s') = calls (store s).
Proof.
  unfold process_subscriptionAcknowledgements.
  induction acks as [|ack l IH]; intros s.
  - exists [], s. simpl. rewrite app_nil_r. repeat split; try constructor.
    intros ack l r X. discriminate.
  - destruct (acknowledge_one ack s) as [code [s0 [E0 [En [Ca [In0 K]]]]]].
    destruct (IH s0) as [rs [s' [E1 [Len [F [_ [In1 [En1 Ca1]]]]]]]].
    exists (code :: rs), s'. split.
    { cbn [mapM]. erewrite bind_Ok by exact E0. erewrite bind_Ok by exact E1. reflexivity. }
    split; [simpl; rewrite Len; reflexivity|].
    split.
    { constructor.
      - intros N. rewrite N in K. apply K.
      - rewrite En in F. exact F. }
    split.
    { intros ack' l' r X G. inversion X; subst ack' l'. rewrite G in K. simpl.
      rewrite K. reflexivity. }
    split.
    { rewrite In1, In0. cbn [flat_map]. rewrite <- app_assoc. f_equal. f_equal.
      apply flat_map_ext. intros a. unfold acknowledged. rewrite En. reflexivity. }
    split; congruence.
Qed.

End Acknowledgements.

(** ** Cancelling the pending requests *)

Section Cancelling.
Context {C : Collaborators}.

(** X2. [cancelPendingPublishRequestBeforeChannelChange] returns; every
    pending request is answered, oldest first, with a status-only
    BadSecureChannelClosed response, and the queue is empty afterwards.  The
    session is not marked closed by it, and the subscriptions, the stashed
    responses and the closed subscriptions still to drain are as before. *)
Theorem X2_channel_change_cancels_pending_requests :
  forall (s : ES),
    defaultRequestHandle <> 0 ->
    exists s',
      cancelPendingPublishRequestBeforeChannelChange s = (Ok tt, s') /\
      _publish_request_queue (engine s') = [] /\
      calls (store s') =
        calls (store s)
          ++ map (fun pd => answer pd (status_only_response BadSecureChannelClosed))
                 (_publish_request_queue (engine s)) /\
      serviceResult (responseHeader (status_only_response BadSecureChannelClosed))
        = BadSecureChannelClosed /\
      notificationMessage (status_only_response BadSecureChannelClosed) = None /\
      isSessionClosed (engine s') = isSessionClosed (engine s) /\
      _subscriptions (engine s') = _subscriptions (engine s) /\
      _publish_response_queue (engine s') = _publish_response_queue (engine s) /\
      _closed_subscriptions (engine s') = _closed_subscriptions (engine s).
Proof.
  intros s H. unfold cancelPendingPublishRequestBeforeChannelChange.
  rewrite cancelPending_returns by exact H.
  eexists. split; [reflexivity|]. simpl. repeat split.
Qed.

(** X3. [cancelPendingPublishRequest] is only for an engine without
    subscriptions: while a subscription is attached it throws an
    AssertionError and changes nothing, no request is answered.  Without
    subscriptions it returns, having answered every pending request, oldest
    first, with a status-only BadNoSubscription response, and the queue is
    empty. *)
Theorem X3_cancelPendingPublishRequest_needs_no_subscription :
  forall (s : ES),
    (subscriptionCount (engine s) <> 0 ->
     cancelPendingPublishRequest s = (Throw AssertionError, s)) /\
    (subscriptionCount (engine s) = 0 ->
     defaultRequestHandle <> 0 ->
     exists s',
       cancelPendingPublishRequest s = (Ok tt, s') /\
       _publish_request_queue (engine s') = [] /\
       calls (store s') =
         calls (store s)
           ++ map (fun pd => answer pd (status_only_response BadNoSubscription))
                  (_publish_request_queue (engine s)) /\
       serviceResult (responseHeader (status_only_response BadNoSubscription))
         = BadNoSubscription).
Proof.
  intros s. split.
  - intros N. unfold cancelPendingPublishRequest. unfold bind at 1, gets at 1.
    apply Z.eqb_neq in N. unfold bind, assert. rewrite N. reflexivity.
  - intros N H. unfold cancelPendingPublishRequest. unfold bind at 1, gets at 1.
    rewrite N. unfold bind at 1. simpl assert. unfold ret at 1. cbv iota beta.
    rewrite cancelPending_returns by exact H.
    eexists. split; [reflexivity|]. simpl. repeat split.
Qed.

Lemma shutdown_returns s :
  subscriptionCount (engine s) = 0 ->
  shutdown s =
  (Ok tt, on_engine (fun E => set_closed_subscriptions []
                      (set_publish_response_queue [] (set_publish_request_queue [] E))) s).
Proof.
  intros N. unfold shutdown. unfold bind at 1, gets at 1. rewrite N. reflexivity.
Qed.

(** X4. [shutdown] is only for an engine without subscriptions: while a
    subscription is attached it throws an AssertionError and changes nothing.
    Without subscriptions it returns with the request queue, the stash and
    the closed-drain list empty; it invokes no callback and no subscription,
    leaves the limit and the session flag as they were, and a second
    [shutdown] changes nothing more. *)
Theorem X4_shutdown_needs_no_subscription :
  forall (s : ES),
    (subscriptionCount (engine s) <> 0 -> shutdown s = (Throw AssertionError, s)) /\
    (subscriptionCount (engine s) = 0 ->
     exists s',
       shutdown s = (Ok tt, s') /\
       _publish_request_queue (engine s') = [] /\
       _publish_response_queue (engine s') = [] /\
       _closed_subscriptions (engine s') = [] /\
       _subscriptions (engine s') = _subscriptions (engine s) /\
       maxPublishRequestInQueue (engine s') = maxPublishRequestInQueue (engine s) /\
       isSessionClosed (engine s') = isSessionClosed (engine s) /\
       store s' = store s /\
       shutdown s' = (Ok tt, s')).
Proof.
  intros s. split.
  - intros N. unfold shutdown. unfold bind at 1, gets at 1.
    apply Z.eqb_neq in N. unfold bind, assert. rewrite N. reflexivity.
  - intros N. rewrite (shutdown_returns s N).
    eexists. split; [reflexivity|]. repeat split.
    rewrite shutdown_returns by exact N. reflexivity.
Qed.

End Cancelling.

(** ** Attaching and detaching subscriptions *)

Lemma set_publishEngine_same (s : Subscription) :
  set_publishEngine (publishEngine s) s = s.
Proof. destruct s; reflexivity. Qed.

Section Attaching.
Context {C : Collaborators}.

(** [add_subscription] of a subscription that belongs to no engine, or to
    this one already, under an id that the engine does not hold. *)
Lemma add_subscription_accepts self r s :
  publishEngine (sub s r) = None \/ publishEngine (sub s r) = Some self ->
  getSubscriptionById (subscription_id (sub s r)) (engine s) = None ->
  add_subscription self r s =
  (Ok r,
   on_engine (fun E => set_subscriptions
      (obj_set (subscription_id (sub s r)) r (_subscriptions E)) E)
     (on_store (heap_write r (set_publishEngine (Some self) (sub s r))) s)).
Proof.
  intros P G. unfold getSubscriptionById in G.
  unfold add_subscription.
  unfold bind at 1, gets at 1.
  assert (match publishEngine (sub s r) with Some e => e | None => self end = self) as PE
    by (destruct P as [P|P]; rewrite P; reflexivity).
  rewrite PE.
  unfold bind at 1, modify at 1. rewrite Nat.eqb_refl.
  unfold bind at 1, assert, ret at 1. cbv iota beta.
  unfold bind at 1, gets at 1. unfold obj_has. simpl engine. rewrite G.
  reflexivity.
Qed.

(** X5. [add_subscription] of a subscription that belongs to no engine (or
    to this engine already), under an id that the engine does not hold:
    it returns the subscription; afterwards [getSubscriptionById] finds the
    subscription under its id and finds under every other id what it found
    before, [subscriptionCount] is one more, and the subscription's
    [publishEngine] refers to this engine.  The queues are untouched and no
    callback is invoked. *)
Theorem X5_add_subscription_registers_the_id :
  forall (self : EngineRef) (r : SubRef) (s : ES),
    publishEngine (sub s r) = None \/ publishEngine (sub s r) = Some self ->
    getSubscriptionById (subscription_id (sub s r)) (engine s) = None ->
    exists s',
      add_subscription self r s = (Ok r, s') /\
      getSubscriptionById (subscription_id (sub s r)) (engine s') = Some r /\
      (forall k, k <> subscription_id (sub s r) ->
                 getSubscriptionById k (engine s') = getSubscriptionById k (engine s)) /\
      subscriptionCount (engine s') = subscriptionCount (engine s) + 1 /\
      publishEngine (sub s' r) = Some self /\
      subscription_id (sub s' r) = subscription_id (sub s r) /\
      _publish_request_queue (engine s') = _publish_request_queue (engine s) /\
      _publish_response_queue (engine s') = _publish_response_queue (engine s) /\
      calls (store s') = calls (store s).
Proof.
  intros self r s P G. rewrite add_subscription_accepts; [|exact P|exact G].
  eexists. split; [reflexivity|].
  unfold getSubscriptionById, subscriptionCount, sub in *. simpl.
  rewrite Nat.eqb_refl. simpl.
  split; [apply obj_get_set_new, G|].
  split; [intros k N; apply obj_get_set_other, N|].
  split; [apply obj_size_set_new, G|].
  repeat split.
Qed.

(** X6. [add_subscription] refuses with an AssertionError, and leaves the
    engine as it was, (a) a subscription whose [publishEngine] is another
    engine: nothing at all is changed; and (b) a subscription of no engine,
    or of this one, whose id the engine already holds: the subscription map
    still holds what it held under the id, but the [publishEngine] of the
    refused subscription has been set to this engine before the check. *)
Theorem X6_add_subscription_refusals :
  forall (self : EngineRef) (r : SubRef) (s : ES),
    (forall e, publishEngine (sub s r) = Some e -> e <> self ->
       exists s',
         add_subscription self r s = (Throw AssertionError, s') /\
         engine s' = engine s /\
         (forall r', sub s' r' = sub s r')) /\
    (forall other,
       publishEngine (sub s r) = None \/ publishEngine (sub s r) = Some self ->
       getSubscriptionById (subscription_id (sub s r)) (engine s) = Some other ->
       exists s',
         add_subscription self r s = (Throw AssertionError, s') /\
         engine s' = engine s /\
         publishEngine (sub s' r) = Some self /\
         (forall r', r' <> r -> sub s' r' = sub s r')).
Proof.
  intros self r s. split.
  - intros e P N. unfold add_subscription.
    unfold bind at 1, gets at 1. rewrite P.
    unfold bind at 1, modify at 1.
    assert (Nat.eqb e self = false) as NE by (apply Nat.eqb_neq; exact N).
    unfold bind at 1, assert. rewrite NE.
    eexists. split; [reflexivity|]. split; [reflexivity|].
    intros r'. unfold sub. simpl.
    destruct (Nat.eqb r' r) eqn:R; [|reflexivity].
    apply Nat.eqb_eq in R. subst r'.
    rewrite <- P. apply (set_publishEngine_same (heap (store s) r)).
  - intros other P G. unfold getSubscriptionById in G. unfold add_subscription.
    unfold bind at 1, gets at 1.
    assert (match publishEngine (sub s r) with Some e => e | None => self end = self) as PE
      by (destruct P as [P|P]; rewrite P; reflexivity).
    rewrite PE.
    unfold bind at 1, modify at 1. rewrite Nat.eqb_refl.
    unfold bind at 1, assert, ret at 1. cbv iota beta.
    unfold bind at 1, gets at 1. unfold obj_has. simpl engine. rewrite G.
    unfold bind at 1. simpl negb. cbv iota.
    eexists. split; [reflexivity|]. split; [reflexivity|].
    unfold sub. simpl. rewrite Nat.eqb_refl. split; [reflexivity|].
    intros r' N. apply Nat.eqb_neq in N. rewrite N. reflexivity.
Qed.

(** X7. Attaching a subscription of no engine and detaching it again gives
    the engine back as it was, with the subscription map in its old order,
    and every subscription object as it was. *)
Theorem X7_add_then_detach_restores :
  forall (self : EngineRef) (r : SubRef) (s : ES),
    publishEngine (sub s r) = None ->
    getSubscriptionById (subscription_id (sub s r)) (engine s) = None ->
    exists s1 s2,
      add_subscription self r s = (Ok r, s1) /\
      detach_subscription self r s1 = (Ok r, s2) /\
      engine s2 = engine s /\
      (forall r', sub s2 r' = sub s r') /\
      calls (store s2) = calls (store s).
Proof.
  intros self r s P G.
  rewrite add_subscription_accepts; [|left; exact P|exact G].
  eexists. eexists. split; [reflexivity|].
  match goal with |- detach_subscription _ _ ?x = _ /\ _ => set (s1 := x) end.
  assert (sub s1 r = set_publishEngine (Some self) (sub s r)) as S1
    by (unfold s1, sub; simpl; rewrite Nat.eqb_refl; reflexivity).
  assert (getSubscriptionById (subscription_id (sub s1 r)) (engine s1) = Some r) as G1.
  { rewrite S1. unfold s1, getSubscriptionById. simpl.
    apply obj_get_set_new. exact G. }
  rewrite detach_subscription_returns; [|rewrite S1; reflexivity | exact G1].
  split; [reflexivity|]. fold s1. rewrite S1. simpl. split; [|split].
  - unfold getSubscriptionById in G. rewrite obj_delete_set_new by exact G.
    destruct (engine s); reflexivity.
  - intros r'. unfold sub. simpl.
    destruct (Nat.eqb r' r) eqn:R; [|reflexivity].
    apply Nat.eqb_eq in R. subst r'.
    revert P. unfold sub. destruct (heap (store s) r). simpl. intros ->. reflexivity.
  - reflexivity.
Qed.

(** X8. [detach_subscription] checks that the subscription is this engine's:
    when its [publishEngine] is not this engine, or the engine holds
    something else (or nothing) under its id, it throws an AssertionError and
    changes nothing.  Otherwise it returns the subscription, removes the id
    from the subscription map (the other ids are found as before), and
    clears the subscription's [publishEngine].  It answers no request: the
    pending requests stay queued, also when this was the last subscription. *)
Theorem X8_detach_subscription_checks_and_keeps_requests :
  forall (self : EngineRef) (r : SubRef) (s : ES),
    (publishEngine (sub s r) <> Some self \/
     getSubscriptionById (subscription_id (sub s r)) (engine s) <> Some r ->
     detach_subscription self r s = (Throw AssertionError, s)) /\
    (publishEngine (sub s r) = Some self ->
     getSubscriptionById (subscription_id (sub s r)) (engine s) = Some r ->
     exists s',
       detach_subscription self r s = (Ok r, s') /\
       getSubscriptionById (subscription_id (sub s r)) (engine s') = None /\
       (forall k, k <> subscription_id (sub s r) ->
                  getSubscriptionById k (engine s') = getSubscriptionById k (engine s)) /\
       publishEngine (sub s' r) = None /\
       _publish_request_queue (engine s') = _publish_request_queue (engine s) /\
       _publish_response_queue (engine s') = _publish_response_queue (engine s) /\
       _closed_subscriptions (engine s') = _closed_subscriptions (engine s) /\
       calls (store s') = calls (store s) /\
       invocations (store s') = invocations (store s)).
Proof.
  intros self r s. split.
  - intros H. unfold detach_subscription.
    unfold bind at 1, gets at 1.
    destruct (publishEngine (sub s r)) as [e|] eqn:P; [|reflexivity].
    destruct (Nat.eqb e self) eqn:E; [|reflexivity].
    apply Nat.eqb_eq in E. subst e.
    unfold bind at 1, assert, ret at 1. cbv iota beta.
    unfold bind at 1, gets at 1.
    destruct (getSubscriptionById (subscription_id (sub s r)) (engine s)) as [r'|] eqn:G;
      [|reflexivity].
    destruct (Nat.eqb r' r) eqn:R; [|reflexivity].
    apply Nat.eqb_eq in R. subst r'.
    exfalso. destruct H as [H|H]; apply H; reflexivity.
  - intros P G. rewrite detach_subscription_returns; [|exact P|exact G].
    eexists. split; [reflexivity|].
    unfold getSubscriptionById, sub in *. simpl. rewrite Nat.eqb_refl. simpl.
    split; [apply obj_get_delete|].
    split; [intros k N; apply obj_get_delete_other, N|].
    repeat split.
Qed.

End Attaching.

(** ** Closing a subscription *)

Lemma obj_delete_only {V} k (o : JSObject V) :
  (forall k', k' <> k -> obj_get k' o = None) -> obj_delete k o = [].
Proof.
  induction o as [|[k0 v0] o IH]; simpl; intros H; [reflexivity|].
  destruct (k0 =? k) eqn:E.
  - apply Z.eqb_eq in E. subst k0. apply IH. intros k' N.
    specialize (H k' N). destruct (k =? k') eqn:E'; [discriminate | exact H].
  - apply Z.eqb_neq in E. specialize (H k0 E). rewrite Z.eqb_refl in H. discriminate.
Qed.

Lemma obj_delete_others {V} k k' (o : JSObject V) :
  k' <> k -> obj_get k' o <> None -> obj_size (obj_delete k o) <> 0.
Proof.
  intros N H. rewrite <- (obj_get_delete_other o N) in H.
  destruct (obj_delete k o); [contradiction H; reflexivity|].
  unfold obj_size. simpl length. lia.
Qed.

Section Closing.
Context {C : Collaborators}.

Lemma on_close_subscription_unfold r s :
  obj_has (subscription_id (sub s r)) (_subscriptions (engine s)) = true ->
  on_close_subscription r s =
  if subscriptionCount (engine (closing r s)) =? 0
  then (while_feed_closed_subscription
          (S (length (_closed_subscriptions (engine (closing r s))))) ;;
        cancelPendingPublishRequest) (closing r s)
  else (Ok tt, closing r s).
Proof.
  intros K. unfold on_close_subscription, closing.
  unfold bind at 1, gets at 1. unfold bind at 1, gets at 1. rewrite K.
  unfold bind at 1, assert, ret at 1. cbv iota beta zeta.
  destruct (hasPendingNotifications (attrs (sub s r))).
  - unfold bind at 1, modify at 1. unfold bind at 1, modify at 1.
    unfold bind at 1, gets at 1.
    destruct (subscriptionCount _ =? 0); reflexivity.
  - unfold bind at 1, ret at 1. unfold bind at 1, modify at 1.
    unfold bind at 1, gets at 1.
    destruct (subscriptionCount _ =? 0); reflexivity.
Qed.

Lemma drains_while fuel : follows_ok drains (while_feed_closed_subscription fuel).
Proof.
  induction fuel as [|k IH]; simpl.
  - apply follows_throw.
  - apply (follows_bind drains_trans); [apply drains_feed_closed|].
    intros [|]; [exact IH | apply (follows_ret _ drains_refl)].
Qed.

Lemma cancelPendingPublishRequest_Ok s a s' :
  cancelPendingPublishRequest s = (Ok a, s') ->
  s' = on_engine (set_publish_request_queue [])
         (on_store (log_calls (map (fun pd => answer pd (status_only_response BadNoSubscription))
                                   (requests s))) s).
Proof.
  unfold cancelPendingPublishRequest. unfold bind at 1, gets at 1.
  unfold bind at 1, assert.
  destruct (subscriptionCount (engine s) =? 0); [|discriminate].
  unfold ret at 1. cbv iota beta. apply cancelPending_Ok.
Qed.

(** X9. [on_close_subscription] of a subscription whose id the engine does
    not hold throws an AssertionError and changes nothing.  When the id is
    held and another subscription stays behind, it returns: the id is
    removed from the subscription map, the subscription is put at the end of
    the closed-drain list exactly when it has pending notifications, and
    nothing else happens: no request is answered, no subscription is called,
    the queues are as before. *)
Theorem X9_on_close_subscription_with_others_left :
  forall (r : SubRef) (s : ES),
    (getSubscriptionById (subscription_id (sub s r)) (engine s) = None ->
     on_close_subscription r s = (Throw AssertionError, s)) /\
    (forall k,
       getSubscriptionById (subscription_id (sub s r)) (engine s) <> None ->
       k <> subscription_id (sub s r) ->
       getSubscriptionById k (engine s) <> None ->
       exists s',
         on_close_subscription r s = (Ok tt, s') /\
         getSubscriptionById (subscription_id (sub s r)) (engine s') = None /\
         getSubscriptionById k (engine s') = getSubscriptionById k (engine s) /\
         _closed_subscriptions (engine s') =
           _closed_subscriptions (engine s)
             ++ (if hasPendingNotifications (attrs (sub s r)) then [r] else []) /\
         _publish_request_queue (engine s') = _publish_request_queue (engine s) /\
         _publish_response_queue (engine s') = _publish_response_queue (engine s) /\
         store s' = store s).
Proof.
  intros r s. split.
  - unfold getSubscriptionById. intros G. unfold on_close_subscription.
    unfold bind at 1, gets at 1. unfold bind at 1, gets at 1.
    unfold obj_has. rewrite G. reflexivity.
  - unfold getSubscriptionById. intros k G N Gk.
    rewrite on_close_subscription_unfold
      by (unfold obj_has; destruct (obj_get _ _); [reflexivity | contradiction G; reflexivity]).
    assert ((subscriptionCount (engine (closing r s)) =? 0) = false) as NZ.
    { apply Z.eqb_neq. unfold closing, subscriptionCount. simpl.
      destruct (hasPendingNotifications _); simpl; eapply obj_delete_others; eassumption. }
    rewrite NZ. eexists. split; [reflexivity|].
    unfold closing. destruct (hasPendingNotifications (attrs (sub s r))); simpl;
      rewrite ?app_nil_r;
      (split; [apply obj_get_delete|]); (split; [apply obj_get_delete_other, N|]);
      repeat split.
Qed.

Lemma feed_closed_nothing s :
  _closed_subscriptions (engine s) = [] -> _feed_closed_subscription s = (Ok false, s).
Proof.
  intros E. unfold _feed_closed_subscription. unfold bind at 1, gets at 1.
  destruct (_ =? 0); [reflexivity|].
  unfold bind at 1, gets at 1. rewrite E. reflexivity.
Qed.

(** X10. [on_close_subscription] of the engine's last subscription, when it
    returns, leaves no request pending and no subscription in the map: the
    requests that were pending have all been answered, in their order, the
    oldest ones by what the closed subscriptions still had to deliver, and
    all the others with a status-only BadNoSubscription response.  The loop
    that feeds the closed subscriptions always comes to an end.  And when
    there is nothing to drain (no closed subscription is waiting and the
    subscription has no pending notifications) it does return, and every
    pending request gets BadNoSubscription. *)
Theorem X10_closing_the_last_subscription_answers_every_request :
  forall (r : SubRef) (s s' : ES),
    getSubscriptionById (subscription_id (sub s r)) (engine s) <> None ->
    (forall k, k <> subscription_id (sub s r) -> getSubscriptionById k (engine s) = None) ->
    fst (on_close_subscription r s) <> Throw OutOfFuel /\
    (on_close_subscription r s = (Ok tt, s') ->
     _publish_request_queue (engine s') = [] /\
     _subscriptions (engine s') = [] /\
     exists consumed rest answers,
       _publish_request_queue (engine s) = consumed ++ rest /\
       Forall2 answers_to consumed answers /\
       calls (store s') =
         calls (store s) ++ answers
           ++ map (fun pd => answer pd (status_only_response BadNoSubscription)) rest) /\
    (_closed_subscriptions (engine s) = [] ->
     hasPendingNotifications (attrs (sub s r)) = false ->
     defaultRequestHandle <> 0 ->
     exists s'',
       on_close_subscription r s = (Ok tt, s'') /\
       calls (store s'') =
         calls (store s)
           ++ map (fun pd => answer pd (status_only_response BadNoSubscription))
                  (_publish_request_queue (engine s))).
Proof.
  intros r s s' G Only. split; [apply on_close_subscription_fuel|].
  unfold getSubscriptionById in G, Only.
  rewrite on_close_subscription_unfold
    by (unfold obj_has; destruct (obj_get _ _); [reflexivity | contradiction G; reflexivity]).
  assert (_subscriptions (engine (closing r s)) = []) as Empty.
  { unfold closing. destruct (hasPendingNotifications _); simpl;
      apply obj_delete_only; exact Only. }
  unfold subscriptionCount. rewrite Empty. simpl Z.eqb. cbv iota.
  split.
  2:{ intros CL HP H.
      assert (_closed_subscriptions (engine (closing r s)) = []) as CL'
        by (unfold closing; rewrite HP; exact CL).
      rewrite CL'. simpl while_feed_closed_subscription.
      erewrite bind_Ok.
      2:{ erewrite bind_Ok by (apply feed_closed_nothing; exact CL'). reflexivity. }
      unfold cancelPendingPublishRequest. unfold bind at 1, gets at 1.
      unfold subscriptionCount. rewrite Empty. simpl Z.eqb.
      unfold bind at 1. simpl assert. unfold ret at 1. cbv iota beta.
      rewrite cancelPending_returns by exact H.
      eexists. split; [reflexivity|]. unfold closing. rewrite HP. reflexivity. }
  intros E. apply bind_inv in E. destruct E as [[e [_ E]]|[[] [s3 [E3 E]]]]; [discriminate|].
  apply drains_while in E3.
  destruct E3 as [[consumed [answers [Q [L F]]]] _ _ U].
  apply cancelPendingPublishRequest_Ok in E. subst s'. simpl.
  split; [reflexivity|]. split; [rewrite U; exact Empty|].
  exists consumed, (requests s3), answers.
  split; [|split; [exact F|]].
  - rewrite <- Q. unfold requests, closing.
    destruct (hasPendingNotifications _); reflexivity.
  - rewrite L, <- app_assoc. f_equal.
    unfold closing. destruct (hasPendingNotifications _); reflexivity.
Qed.

End Closing.

(** ** Late subscriptions *)

Lemma sortBy_insert_perm {A} (key : A -> Z) x l :
  Permutation (sortBy_insert key x l) (x :: l).
Proof.
  induction l as [|y l IH]; simpl; [apply Permutation_refl|].
  destruct (key x <=? key y); [apply Permutation_refl|].
  eapply Permutation_trans; [apply perm_skip, IH | apply perm_swap].
Qed.

Lemma sortBy_perm {A} (key : A -> Z) l : Permutation (sortBy key l) l.
Proof.
  induction l as [|x l IH]; simpl; [constructor|].
  eapply Permutation_trans; [apply sortBy_insert_perm | apply perm_skip, IH].
Qed.

Lemma sortBy_insert_sorted {A} (key : A -> Z) x l :
  StronglySorted (fun a b => key a <= key b) l ->
  StronglySorted (fun a b => key a <= key b) (sortBy_insert key x l).
Proof.
  induction 1 as [|y l S IH F]; simpl.
  - constructor; constructor.
  - destruct (key x <=? key y) eqn:L.
    + apply Z.leb_le in L. constructor; [constructor; assumption|].
      constructor; [exact L|].
      eapply Forall_impl; [|exact F]. simpl. intros z Hz. lia.
    + apply Z.leb_gt in L. constructor; [exact IH|].
      apply Forall_forall. intros z Hz. apply sortBy_insert_In in Hz.
      destruct Hz as [->|Hz]; [lia|].
      rewrite Forall_forall in F. apply F, Hz.
Qed.

Lemma sortBy_sorted {A} (key : A -> Z) l :
  StronglySorted (fun a b => key a <= key b) (sortBy key l).
Proof.
  induction l as [|x l IH]; simpl; [constructor | apply sortBy_insert_sorted, IH].
Qed.

(** [sortBy] is stable: the elements of one key keep their order. *)
Lemma sortBy_insert_stable {A} (key : A -> Z) t x l :
  filter (fun a => key a =? t) (sortBy_insert key x l) =
  filter (fun a => key a =? t) (x :: l).
Proof.
  induction l as [|y l IH]; [reflexivity|].
  cbn [sortBy_insert]. destruct (key x <=? key y) eqn:L; [reflexivity|].
  apply Z.leb_gt in L. cbn [filter] in *. rewrite IH.
  destruct (key x =? t) eqn:X; [|reflexivity].
  apply Z.eqb_eq in X.
  assert ((key y =? t) = false) as Y by (apply Z.eqb_neq; lia).
  rewrite Y. reflexivity.
Qed.

Lemma sortBy_stable {A} (key : A -> Z) t l :
  filter (fun a => key a =? t) (sortBy key l) = filter (fun a => key a =? t) l.
Proof.
  induction l as [|x l IH]; [reflexivity|].
  cbn [sortBy]. rewrite sortBy_insert_stable. cbn [filter]. rewrite IH. reflexivity.
Qed.

Lemma SubscriptionState_eqb_eq a b : SubscriptionState_eqb a b = true <-> a = b.
Proof. destruct a, b; simpl; split; intros H; congruence. Qed.

Lemma waiting_for_first_publish_spec w r :
  waiting_for_first_publish w r = true <->
  messageSent (attrs (sub w r)) = false /\ state (attrs (sub w r)) = LATE.
Proof.
  unfold waiting_for_first_publish.
  rewrite andb_true_iff, negb_true_iff, SubscriptionState_eqb_eq. reflexivity.
Qed.

Lemma late_and_enabled_spec w r :
  late_and_enabled w r = true <->
  state (attrs (sub w r)) = LATE /\ publishingEnabled (attrs (sub w r)) = true.
Proof.
  unfold late_and_enabled.
  rewrite andb_true_iff, SubscriptionState_eqb_eq. reflexivity.
Qed.

(** X11. [findLateSubscriptionsSortedByAge] returns the late subscriptions
    with publishing enabled, each as often as [findLateSubscriptions] lists
    it, in ascending order of [timeToExpiration]; subscriptions with the
    same [timeToExpiration] stay in the order of the subscription map. *)
Theorem X11_late_subscriptions_sorted_by_age :
  forall (w : ES),
    Permutation (findLateSubscriptionsSortedByAge w) (findLateSubscriptions w) /\
    StronglySorted (fun a b => age w a <= age w b) (findLateSubscriptionsSortedByAge w) /\
    (forall t,
       filter (fun r => age w r =? t) (findLateSubscriptionsSortedByAge w) =
       filter (fun r => age w r =? t) (findLateSubscriptions w)) /\
    (forall r,
       In r (findLateSubscriptionsSortedByAge w) <->
       In r (subscriptions (engine w)) /\
       state (attrs (sub w r)) = LATE /\ publishingEnabled (attrs (sub w r)) = true).
Proof.
  intros w. unfold findLateSubscriptionsSortedByAge. fold (age w).
  split; [apply sortBy_perm|]. split; [apply sortBy_sorted|].
  split; [intros t; apply sortBy_stable|].
  intros r. rewrite sortBy_In. unfold findLateSubscriptions.
  fold (late_and_enabled w). rewrite filter_In, late_and_enabled_spec. reflexivity.
Qed.

Section FeedingLate.
Context {C : Collaborators}.

(** The body of a Subscription method calls no further Subscription method:
    the log of invocations gets one entry. *)
Lemma invocations_call_method r m body s :
  invocations (store (snd (call_method r m body s))) = invocations (store s) ++ [(r, m)].
Proof.
  unfold call_method. unfold bind at 1, modify at 1.
  match goal with |- context [bind ?a ?k (on_store ?f s)] =>
    assert (keeps (fun w => invocations (store w) = invocations (store s) ++ [(r, m)])
                  (bind a k)) as K
  end.
  { cbv beta zeta delta
      [run_step send_keep_alive_response send_notification_message
       send_response_for_shifted shift_publish_request send_response_for_request].
    keeps_walk assumption. }
  apply K. reflexivity.
Qed.

(** X12. [hasLateSubscriptions] is true exactly when some subscription of
    the engine is late and has publishing enabled.  When it is false and no
    subscription is waiting for its first publish,
    [_feed_late_subscription] does nothing. *)
Theorem X12_hasLateSubscriptions_tells_whether_one_is_late :
  forall (w : ES),
    (hasLateSubscriptions w = true <->
     exists r, In r (subscriptions (engine w)) /\
               state (attrs (sub w r)) = LATE /\
               publishingEnabled (attrs (sub w r)) = true) /\
    (hasLateSubscriptions w = false ->
     findSubscriptionWaitingForFirstPublish w = None ->
     _feed_late_subscription w = (Ok tt, w)).
Proof.
  intros w. unfold hasLateSubscriptions. split.
  - unfold findLateSubscriptions. fold (late_and_enabled w). fold (subscriptions (engine w)).
    split.
    + intros H. destruct (filter _ _) as [|r l] eqn:E; [discriminate|].
      exists r. rewrite <- late_and_enabled_spec. apply filter_In. rewrite E. left. reflexivity.
    + intros [r [I L]]. rewrite <- late_and_enabled_spec in L.
      assert (In r (filter (late_and_enabled w) (subscriptions (engine w)))) as F
        by (apply filter_In; split; assumption).
      destruct (filter _ _); [contradiction | reflexivity].
  - intros H F. unfold _feed_late_subscription. unfold bind at 1, gets at 1.
    destruct (_ =? 0); [reflexivity|].
    unfold bind at 1, gets at 1. rewrite F. unfold js_or.
    unfold findLateSubscriptionSortedByPriority.
    destruct (findLateSubscriptions w); [reflexivity | discriminate].
Qed.

(** X13. [_feed_late_subscription] does nothing when no publish request is
    pending.  When one is pending and some subscription is late without ever
    having sent a message, it calls [process_subscription] of such a
    subscription, one with the least [timeToExpiration] among them, whatever
    the priorities are and whether or not publishing is enabled; no other
    subscription is called. *)
Theorem X13_feed_late_serves_first_publish_first :
  forall (w : ES),
    (_publish_request_queue (engine w) = [] -> _feed_late_subscription w = (Ok tt, w)) /\
    (forall r0,
       _publish_request_queue (engine w) <> [] ->
       In r0 (subscriptions (engine w)) ->
       messageSent (attrs (sub w r0)) = false ->
       state (attrs (sub w r0)) = LATE ->
       exists r,
         _feed_late_subscription w =
           call_method r m_process_subscription process_subscription w /\
         In r (subscriptions (engine w)) /\
         messageSent (attrs (sub w r)) = false /\
         state (attrs (sub w r)) = LATE /\
         (forall r', In r' (subscriptions (engine w)) ->
                     messageSent (attrs (sub w r')) = false ->
                     state (attrs (sub w r')) = LATE ->
                     age w r <= age w r') /\
         invocations (store (snd (_feed_late_subscription w))) =
           invocations (store w) ++ [(r, m_process_subscription)]).
Proof.
  intros w. split.
  - intros Q. unfold _feed_late_subscription, bind, gets, pendingPublishRequestCount.
    rewrite Q. reflexivity.
  - intros r0 Q I0 M0 S0.
    destruct (@first_publish_found w) as [r F].
    { exists r0. split; [exact I0|]. apply waiting_for_first_publish_spec. split; assumption. }
    exists r.
    assert (_feed_late_subscription w =
            call_method r m_process_subscription process_subscription w) as E.
    { unfold _feed_late_subscription. unfold bind at 1, gets at 1.
      unfold pendingPublishRequestCount.
      destruct (_publish_request_queue (engine w)) as [|p l];
        [contradiction Q; reflexivity|].
      change (Z.of_nat (length (p :: l)) =? 0) with false. cbv iota.
      unfold bind at 1, gets at 1. rewrite F. reflexivity. }
    split; [exact E|].
    apply first_publish_least_timeToExpiration in F. destruct F as [I [W L]].
    apply waiting_for_first_publish_spec in W. destruct W as [M S].
    split; [exact I|]. split; [exact M|]. split; [exact S|]. split.
    + intros r' I' M' S'. apply L; [exact I'|].
      apply waiting_for_first_publish_spec. split; assumption.
    + rewrite E. apply invocations_call_method.
Qed.

End FeedingLate.

(** ** What no operation does *)

Section Never.
Context {C : Collaborators}.

Ltac unfold_operations :=
  cbv beta zeta delta
    [exec _on_PublishRequest _on_tick _cancelTimeoutRequests onSessionClose
     cancelPendingPublishRequestBeforeChannelChange cancelPendingPublishRequest
     _cancelPendingPublishRequest shutdown on_close_subscription add_subscription
     detach_subscription _feed_late_subscription _feed_closed_subscription
     _handle_too_many_requests call_method run_step send_keep_alive_response
     send_notification_message send_error_for_request send_response_for_request
     send_response_for_shifted shift_publish_request push_publish_request
     process_subscriptionAcknowledgements _process_pending_publish_response
     prepare_timeout_info].

Lemma limit_while l fuel :
  keeps (fun w => maxPublishRequestInQueue (engine w) = l)
        (while_feed_closed_subscription fuel).
Proof. induction fuel; simpl; unfold_operations; keeps_walk assumption. Qed.

Lemma limit_exec l self op :
  keeps (fun w => maxPublishRequestInQueue (engine w) = l) (exec self op).
Proof.
  pose proof (@limit_while l).
  destruct op; unfold_operations; keeps_walk assumption.
Qed.

Lemma limit_reaches self w w' :
  reaches self w w' ->
  maxPublishRequestInQueue (engine w') = maxPublishRequestInQueue (engine w).
Proof.
  intros R. induction R as [|w1 op R IH]; [reflexivity|].
  apply limit_exec. exact IH.
Qed.

(** X14. The limit on queued requests is fixed when the engine is
    constructed: no operation changes it, whether it returns or throws.  It
    is the value of the option, except that a missing option and the option
    0 give 100; so it is never 0, and a negative option is taken as it is. *)
Theorem X14_limit_is_fixed_at_construction :
  forall (self : EngineRef) (options : option Z) (st : Store) (w : ES),
    reaches self (fresh options st) w ->
    maxPublishRequestInQueue (engine w) = configured_limit options /\
    configured_limit options <> 0 /\
    (forall n, options = Some n -> n <> 0 -> configured_limit options = n) /\
    (options = None \/ options = Some 0 -> configured_limit options = 100).
Proof.
  intros self options st w R. split; [apply (limit_reaches R)|].
  unfold configured_limit. simpl. split; [|split].
  - destruct options as [n|]; [|lia].
    destruct (n =? 0) eqn:E; [lia | apply Z.eqb_neq, E].
  - intros n -> N. apply Z.eqb_neq in N. rewrite N. reflexivity.
  - intros [->| ->]; reflexivity.
Qed.

(** With a negative limit the enforcement step cannot succeed. *)
Lemma handle_too_many_negative s :
  maxPublishRequestInQueue (engine s) < 0 ->
  exists e s', _handle_too_many_requests s = (Throw e, s') /\ e <> OutOfFuel.
Proof.
  intros L. unfold _handle_too_many_requests.
  unfold bind at 1, gets at 1. unfold bind at 1, gets at 1.
  unfold pendingPublishRequestCount.
  assert ((maxPublishRequestInQueue (engine s)
             <? Z.of_nat (length (_publish_request_queue (engine s)))) = true) as LT
    by (apply Z.ltb_lt; lia).
  rewrite LT. unfold bind at 1, assert.
  destruct (_ =? _) eqn:E.
  - apply Z.eqb_eq in E.
    destruct (_publish_request_queue (engine s)) as [|pd q] eqn:Q;
      [|simpl length in E; lia].
    unfold ret at 1. cbv iota beta.
    unfold shift_publish_request. unfold bind at 1. unfold bind at 1, gets at 1.
    rewrite Q. unfold ret at 1. cbv iota beta.
    eexists _, _. split; [reflexivity | discriminate].
  - eexists _, _. split; [reflexivity | discriminate].
Qed.

Lemma on_PublishRequest_fuel rq cb : never_out_of_fuel (_on_PublishRequest rq cb).
Proof. unfold_operations. fuel_walk. Qed.

End Never.

Section Logs.
Context {C : Collaborators}.

Ltac unfold_operations :=
  cbv beta zeta delta
    [exec _on_PublishRequest _on_tick _cancelTimeoutRequests onSessionClose
     cancelPendingPublishRequestBeforeChannelChange cancelPendingPublishRequest
     _cancelPendingPublishRequest shutdown on_close_subscription add_subscription
     detach_subscription _feed_late_subscription _feed_closed_subscription
     _handle_too_many_requests call_method run_step send_keep_alive_response
     send_notification_message send_error_for_request send_response_for_request
     send_response_for_shifted shift_publish_request push_publish_request
     process_subscriptionAcknowledgements _process_pending_publish_response
     prepare_timeout_info].

Ltac unfold_operations_to_pending :=
  cbv beta zeta delta
    [exec _on_PublishRequest _on_tick _cancelTimeoutRequests onSessionClose
     cancelPendingPublishRequestBeforeChannelChange cancelPendingPublishRequest
     _cancelPendingPublishRequest shutdown on_close_subscription add_subscription
     detach_subscription _feed_late_subscription _feed_closed_subscription
     _handle_too_many_requests call_method run_step send_keep_alive_response
     send_notification_message send_error_for_request send_response_for_request
     send_response_for_shifted shift_publish_request push_publish_request
     process_subscriptionAcknowledgements prepare_timeout_info].

Ltac logged :=
  first [ assumption
        | apply Forall_app; split; [assumption|];
          constructor; [reflexivity | constructor] ].

Lemma correlated_while fuel :
  keeps (fun w => Forall correlated (calls (store w))) (while_feed_closed_subscription fuel).
Proof. induction fuel; simpl; unfold_operations; keeps_walk logged. Qed.

Lemma correlated_exec self op :
  keeps (fun w => Forall correlated (calls (store w))) (exec self op).
Proof.
  pose proof correlated_while.
  destruct op; unfold_operations; keeps_walk logged.
Qed.

(** X16. Every callback is invoked through [send_response_for_request]:
    whatever operations an engine has gone through since it was constructed
    (with an empty log of invocations), each invocation so far passed the
    callback a response whose [requestHandle] is the [requestHandle] of the
    request passed along with it. *)
Theorem X16_every_response_refers_to_its_request :
  forall (self : EngineRef) (options : option Z) (st : Store) (w : ES)
         (c : CallbackCall),
    calls st = [] ->
    reaches self (fresh options st) w ->
    In c (calls (store w)) ->
    rh_requestHandle (responseHeader (cc_response c)) =
    requestHandle (requestHeader (cc_request c)).
Proof.
  intros self options st w c E R.
  assert (Forall correlated (calls (store w))) as F.
  { induction R as [|w1 op R IH]; [simpl; rewrite E; constructor|].
    apply correlated_exec, IH. }
  rewrite Forall_forall in F. apply F.
Qed.

Ltac stashed :=
  first [ assumption
        | constructor
        | apply Forall_app; split; [assumption|];
          constructor; [split; [reflexivity | discriminate] | constructor] ].

Lemma notifications_process_pending pd :
  keeps (fun w => Forall carries_notification (responses w))
        (_process_pending_publish_response pd).
Proof.
  intros s H. unfold responses in *.
  unfold _process_pending_publish_response, send_response_for_request,
    bind, gets, assert, modify, ret.
  destruct (_publish_response_queue (engine s)) as [|response rest] eqn:R; simpl.
  - rewrite R. constructor.
  - inversion H; subst.
    destruct (pendingPublishRequestCount (engine s) =? 0); simpl.
    + destruct (negb _); simpl; assumption.
    + rewrite R. exact H.
Qed.

Lemma notifications_while fuel :
  keeps (fun w => Forall carries_notification (responses w))
        (while_feed_closed_subscription fuel).
Proof. induction fuel; simpl; unfold_operations; keeps_walk stashed. Qed.

Lemma notifications_exec self op :
  keeps (fun w => Forall carries_notification (responses w)) (exec self op).
Proof.
  pose proof notifications_while. pose proof notifications_process_pending.
  destruct op; unfold_operations_to_pending; keeps_walk stashed.
Qed.

(** X17. Only notifications are stashed: in every state that a freshly
    constructed engine reaches, each response waiting in
    [_publish_response_queue] has the service result Good and carries a
    notification message; no error response is ever kept for a later
    request. *)
Theorem X17_only_notifications_are_stashed :
  forall (self : EngineRef) (options : option Z) (st : Store) (w : ES)
         (r : PublishResponse),
    reaches self (fresh options st) w ->
    In r (_publish_response_queue (engine w)) ->
    serviceResult (responseHeader r) = Good /\ notificationMessage r <> None.
Proof.
  intros self options st w r R.
  assert (Forall carries_notification (responses w)) as F.
  { induction R as [|w1 op R IH]; [constructor|].
    apply notifications_exec, IH. }
  rewrite Forall_forall in F. apply F.
Qed.

End Logs.

(** ** Stashed notifications and refused requests *)

Section Stash.
Context {C : Collaborators}.

(** X18. A notification sent with [force] while no request is pending is
    not lost: it is put at the end of the stash without any callback being
    invoked, and the next [_on_PublishRequest] returns at once with the
    oldest stashed response, completed with that request's handle and the
    results of its acknowledgements; the request is not queued, and the
    stash is shorter by its oldest response. *)
Theorem X18_forced_notification_waits_for_the_next_request :
  forall (s : ES) (param : NotificationParam) (rq : PublishRequest) (cb : option Callback),
    _publish_request_queue (engine s) = [] ->
    Forall (fun r => rh_requestHandle (responseHeader r) <> 0)
           (_publish_response_queue (engine s)) ->
    defaultRequestHandle <> 0 ->
    exists s1 rs s2 oldest rest,
      send_notification_message param true s = (Ok tt, s1) /\
      _publish_response_queue (engine s1) =
        _publish_response_queue (engine s) ++ [notification_response param s] /\
      calls (store s1) = calls (store s) /\
      fst (process_subscriptionAcknowledgements (subscriptionAcknowledgements rq) s1)
        = Ok rs /\
      _on_PublishRequest rq cb s1 = (Ok tt, s2) /\
      _publish_response_queue (engine s) ++ [notification_response param s]
        = oldest :: rest /\
      _publish_response_queue (engine s2) = rest /\
      _publish_request_queue (engine s2) = [] /\
      calls (store s2) =
        calls (store s)
          ++ [answer {| request := rq; results := rs; callback := callback_or_dummy cb |}
                     oldest].
Proof.
  intros s param rq cb Q F H.
  rewrite (send_notification_message_stashes param s Q).
  match goal with |- context [(Ok tt, ?x)] => set (s1 := x) end.
  destruct (acks_returns (subscriptionAcknowledgements rq) s1) as [rs [s1' A]].
  assert (store_only s1 s1') as [EN [CA _]] by (eapply acks_store_only; exact A).
  destruct (_publish_response_queue (engine s) ++ [notification_response param s])
    as [|oldest rest] eqn:ST; [destruct (_publish_response_queue (engine s)); discriminate|].
  assert (rh_requestHandle (responseHeader oldest) <> 0) as HO.
  { assert (Forall (fun r => rh_requestHandle (responseHeader r) <> 0) (oldest :: rest)) as F'.
    { rewrite <- ST. apply Forall_app. split; [exact F|].
      constructor; [exact H | constructor]. }
    inversion F'; assumption. }
  eexists s1, rs, _, oldest, rest.
  split; [reflexivity|]. split; [exact ST|]. split; [reflexivity|].
  split; [rewrite A; reflexivity|].
  split.
  { eapply on_PublishRequest_stashed; [exact A | | | exact HO].
    - unfold responses. rewrite EN. exact ST.
    - unfold requests. rewrite EN. exact Q. }
  split; [reflexivity|]. simpl. rewrite EN, CA. repeat split. exact Q.
Qed.

(** X19. A request with a negative [timeoutHint] that would have to be
    queued (nothing is stashed, the session is open, a subscription is
    attached) is refused by the assertion of [prepare_timeout_info]:
    [_on_PublishRequest] throws an AssertionError after the acknowledgements
    were processed; the request is not queued and its callback is not
    invoked. *)
Theorem X19_negative_timeoutHint_is_refused :
  forall (s : ES) (rq : PublishRequest) (cb : option Callback),
    timeoutHint (requestHeader rq) < 0 ->
    _publish_response_queue (engine s) = [] ->
    isSessionClosed (engine s) = false ->
    subscriptionCount (engine s) <> 0 ->
    exists s1,
      _on_PublishRequest rq cb s = (Throw AssertionError, s1) /\
      snd (process_subscriptionAcknowledgements (subscriptionAcknowledgements rq) s) = s1 /\
      engine s1 = engine s /\
      calls (store s1) = calls (store s).
Proof.
  intros s rq cb TH R SC N.
  destruct (acks_returns (subscriptionAcknowledgements rq) s) as [rs [s1 A]].
  assert (store_only s s1) as [EN [CA _]] by (eapply acks_store_only; exact A).
  exists s1. split; [|rewrite A; repeat split; assumption].
  unfold _on_PublishRequest. cbv zeta.
  erewrite bind_Ok by exact A.
  erewrite bind_Ok by (apply process_pending_none; unfold responses; rewrite EN; exact R).
  unfold bind at 1, gets at 1. rewrite EN, SC.
  unfold bind at 1, gets at 1. rewrite EN.
  apply Z.eqb_neq in N. rewrite N.
  unfold bind at 1, gets at 1.
  unfold prepare_timeout_info. unfold bind at 1. unfold bind at 1.
  assert ((0 <=? timeoutHint (requestHeader rq)) = false) as L by (apply Z.leb_gt; exact TH).
  rewrite L. reflexivity.
Qed.

End Stash.

(** ** Transfers *)

Lemma obj_get_none_all {V} (o : JSObject V) : (forall k, obj_get k o = None) -> o = [].
Proof.
  destruct o as [|[k v] o]; [reflexivity|]. intros H. specialize (H k).
  simpl in H. rewrite Z.eqb_refl in H. discriminate.
Qed.

Lemma obj_get_not_key {V} k (o : JSObject V) : ~ In k (map fst o) -> obj_get k o = None.
Proof.
  induction o as [|[k0 v] o IH]; simpl; intros H; [reflexivity|].
  destruct (k0 =? k) eqn:E.
  - apply Z.eqb_eq in E. exfalso. apply H. left. exact E.
  - apply IH. intros I. apply H. right. exact I.
Qed.

Lemma obj_get_key {V} k (o : JSObject V) : In k (map fst o) -> exists v, obj_get k o = Some v.
Proof.
  induction o as [|[k0 v] o IH]; simpl; intros H; [contradiction|].
  destruct (k0 =? k) eqn:E; [exists v; reflexivity|].
  apply IH. destruct H as [H|H]; [apply Z.eqb_neq in E; contradiction | exact H].
Qed.

Section Transfers.
Context {C : Collaborators}.

Lemma notifyTransfer_returns w s E1 :
  defaultRequestHandle <> 0 ->
  publishEngine (heap (shared w) s) = Some E1 ->
  exists w1,
    notifyTransfer s w = (Ok tt, w1) /\
    (forall e, _subscriptions (engines w1 e) = _subscriptions (engines w e)) /\
    heap (shared w1) = heap (shared w) /\
    invocations (shared w1) = invocations (shared w) ++ [(s, m_notifyTransfer)].
Proof.
  intros H P.
  set (wa := {| engines := engines w;
                shared := log_invocation s m_notifyTransfer (shared w) |}).
  set (es1 := after_forced_notification (transfer_notification (heap (shared w) s))
                (view wa E1)).
  exists {| engines := fun e' => if Nat.eqb e' E1 then engine es1 else engines wa e';
            shared := store es1 |}.
  destruct (forced_notification_frame (transfer_notification (heap (shared w) s))
              (view wa E1)) as [F1 [F2 F3]].
  fold es1 in F1, F2, F3. simpl in F1, F2, F3.
  split; [|split; [|split]].
  - unfold notifyTransfer. unfold bind at 1, modify at 1. fold wa.
    unfold bind at 1, gets at 1. change (heap (shared wa) s) with (heap (shared w) s).
    rewrite P. apply at_engine_Ok. apply forced_notification_returns, H.
  - intros e. simpl. destruct (Nat.eqb e E1) eqn:E; [|reflexivity].
    apply Nat.eqb_eq in E. subst e. exact F1.
  - exact F2.
  - exact F3.
Qed.

(** The state after [transferSubscription] to another engine that does not
    hold the id. *)
Lemma transferSubscription_moves w s E1 E2 sendInitialValues :
  defaultRequestHandle <> 0 ->
  publishEngine (heap (shared w) s) = Some E1 ->
  obj_get (subscription_id (heap (shared w) s)) (_subscriptions (engines w E1)) = Some s ->
  E1 <> E2 ->
  obj_get (subscription_id (heap (shared w) s)) (_subscriptions (engines w E2)) = None ->
  exists w',
    transferSubscription s E2 sendInitialValues w = (Ok tt, w') /\
    _subscriptions (engines w' E1) =
      obj_delete (subscription_id (heap (shared w) s)) (_subscriptions (engines w E1)) /\
    _subscriptions (engines w' E2) =
      obj_set (subscription_id (heap (shared w) s)) s (_subscriptions (engines w E2)) /\
    (forall r, r <> s -> heap (shared w') r = heap (shared w) r) /\
    publishEngine (heap (shared w') s) = Some E2 /\
    subscription_id (heap (shared w') s) = subscription_id (heap (shared w) s).
Proof.
  intros H P G NE G2.
  assert (Nat.eqb E2 E1 = false) as NE21 by (apply Nat.eqb_neq; congruence).
  assert (Nat.eqb E1 E2 = false) as NE12 by (apply Nat.eqb_neq; congruence).
  destruct (notifyTransfer_returns w s H P) as [w1 [N1 [M1 [H1 _]]]].
  unfold transferSubscription.
  unfold bind at 1, gets at 1. rewrite P.
  erewrite bind_Ok by exact N1.
  set (s0 := heap (shared w) s) in *.
  assert (sub (view w1 E1) s = s0) as S1 by (unfold sub, view; simpl; rewrite H1; reflexivity).
  erewrite bind_Ok.
  2:{ apply at_engine_Ok. apply detach_subscription_returns.
      - rewrite S1. exact P.
      - rewrite S1. unfold getSubscriptionById, view. simpl. rewrite M1. exact G. }
  rewrite S1.
  match goal with |- context [bind (at_engine E2 _) _ ?x] => set (wc := x) end.
  assert (sub (view wc E2) s = set_publishEngine None s0) as S2
    by (unfold sub, view, wc; simpl; rewrite Nat.eqb_refl; reflexivity).
  erewrite bind_Ok.
  2:{ apply at_engine_Ok. apply add_subscription_returns.
      - rewrite S2. reflexivity.
      - rewrite S2. unfold view, wc, getSubscriptionById. simpl. rewrite NE21, M1. exact G2. }
  rewrite S2. simpl subscription_id.
  unfold bind at 1, call_hook at 1, modify at 1.
  destruct sendInitialValues.
  - eexists. split; [reflexivity|].
    simpl. rewrite !Nat.eqb_refl, ?NE12, ?NE21, !M1. simpl.
    repeat split.
    intros r N. apply Nat.eqb_neq in N. rewrite N, H1. reflexivity.
  - eexists. split; [reflexivity|].
    simpl. rewrite !Nat.eqb_refl, ?NE12, ?NE21, !M1. simpl.
    repeat split.
    intros r N. apply Nat.eqb_neq in N. rewrite N, H1. reflexivity.
Qed.

(** X20. [transferSubscription] to another engine that already holds a
    subscription under the same id fails after the subscription has been
    detached: [notifyTransfer] has sent its notification through the source
    engine, the source engine no longer holds the id, the destination
    refuses with an AssertionError and still holds what it held, and the
    subscription is left in neither engine with its [publishEngine] set to
    the destination; [resetLifeTimeCounter] is not invoked. *)
Theorem X20_transfer_to_engine_holding_the_id_loses_the_subscription :
  forall (w : World) (s other : SubRef) (E1 E2 : EngineRef) (sendInitialValues : bool),
    defaultRequestHandle <> 0 ->
    publishEngine (heap (shared w) s) = Some E1 ->
    getSubscriptionById (subscription_id (heap (shared w) s)) (engines w E1) = Some s ->
    E1 <> E2 ->
    getSubscriptionById (subscription_id (heap (shared w) s)) (engines w E2) = Some other ->
    exists w',
      transferSubscription s E2 sendInitialValues w = (Throw AssertionError, w') /\
      getSubscriptionById (subscription_id (heap (shared w) s)) (engines w' E1) = None /\
      getSubscriptionById (subscription_id (heap (shared w) s)) (engines w' E2)
        = Some other /\
      publishEngine (heap (shared w') s) = Some E2 /\
      invocations (shared w') = invocations (shared w) ++ [(s, m_notifyTransfer)].
Proof.
  intros w s other E1 E2 sendInitialValues H P G NE G2.
  unfold getSubscriptionById in *.
  assert (Nat.eqb E2 E1 = false) as NE21 by (apply Nat.eqb_neq; congruence).
  assert (Nat.eqb E1 E2 = false) as NE12 by (apply Nat.eqb_neq; congruence).
  destruct (notifyTransfer_returns w s H P) as [w1 [N1 [M1 [H1 I1]]]].
  unfold transferSubscription.
  unfold bind at 1, gets at 1. rewrite P.
  erewrite bind_Ok by exact N1.
  set (s0 := heap (shared w) s) in *.
  assert (sub (view w1 E1) s = s0) as S1 by (unfold sub, view; simpl; rewrite H1; reflexivity).
  erewrite bind_Ok.
  2:{ apply at_engine_Ok. apply detach_subscription_returns.
      - rewrite S1. exact P.
      - rewrite S1. unfold getSubscriptionById, view. simpl. rewrite M1. exact G. }
  rewrite S1.
  match goal with |- context [bind (at_engine E2 _) _ ?x] => set (wc := x) end.
  assert (sub (view wc E2) s = set_publishEngine None s0) as S2
    by (unfold sub, view, wc; simpl; rewrite Nat.eqb_refl; reflexivity).
  assert (add_subscription E2 s (view wc E2) =
          (Throw AssertionError,
           on_store (heap_write s (set_publishEngine (Some E2) (set_publishEngine None s0)))
                    (view wc E2))) as A.
  { unfold add_subscription. unfold bind at 1, gets at 1. rewrite S2.
    simpl publishEngine. cbv iota.
    unfold bind at 1, modify at 1. rewrite Nat.eqb_refl.
    unfold bind at 1, assert, ret at 1. cbv iota beta.
    unfold bind at 1, gets at 1. unfold obj_has, view, wc. simpl.
    rewrite NE21, M1, G2. reflexivity. }
  unfold bind at 1, at_engine at 1. fold (view wc E2). rewrite A.
  eexists. split; [reflexivity|].
  simpl. rewrite !Nat.eqb_refl, ?NE12, ?NE21, !M1, I1.
  split; [apply obj_get_delete|]. repeat split. exact G2.
Qed.

(** Walking through the keys taken from the source engine's subscription
    map: each subscription is found under its key when its turn comes, and
    is moved. *)
Lemma transfer_keys src dest ks :
  defaultRequestHandle <> 0 ->
  src <> dest ->
  forall w,
    NoDup ks ->
    (forall k, In k ks ->
       exists r, obj_get k (_subscriptions (engines w src)) = Some r /\
                 subscription_id (heap (shared w) r) = k /\
                 publishEngine (heap (shared w) r) = Some src) ->
    (forall k, In k ks -> obj_get k (_subscriptions (engines w dest)) = None) ->
    exists w',
      forEach (transfer_key src dest) ks w = (Ok tt, w') /\
      (forall k, In k ks ->
         obj_get k (_subscriptions (engines w' src)) = None /\
         exists r, obj_get k (_subscriptions (engines w src)) = Some r /\
                   obj_get k (_subscriptions (engines w' dest)) = Some r /\
                   publishEngine (heap (shared w') r) = Some dest /\
                   subscription_id (heap (shared w') r) = k) /\
      (forall k, ~ In k ks ->
         obj_get k (_subscriptions (engines w' src)) =
           obj_get k (_subscriptions (engines w src)) /\
         obj_get k (_subscriptions (engines w' dest)) =
           obj_get k (_subscriptions (engines w dest))) /\
      (forall r, (forall k, In k ks -> obj_get k (_subscriptions (engines w src)) <> Some r) ->
                 heap (shared w') r = heap (shared w) r).
Proof.
  intros H NE. induction ks as [|k ks IH]; intros w ND Src Dst.
  - exists w. split; [reflexivity|]. split; [intros k []|]. split; [split; reflexivity|].
    reflexivity.
  - inversion ND as [|k' ks' NI ND']; subst k' ks'.
    destruct (Src k (or_introl eq_refl)) as [r [G [I P]]].
    pose proof (Dst k (or_introl eq_refl)) as G2.
    destruct (@transferSubscription_moves w r src dest false H P) as
      [w1 [T [SM [DM [HF [P1 I1]]]]]];
      [rewrite I; exact G | exact NE | rewrite I; exact G2 |].
    rewrite I in SM, DM, I1.
    assert (forall k', In k' ks -> k' <> k) as NK by (intros k' K ->; contradiction).
    assert (forall k' r', In k' ks ->
              obj_get k' (_subscriptions (engines w src)) = Some r' -> r' <> r) as NR.
    { intros k' r' K G' ->. destruct (Src k' (or_intror K)) as [r' [G'' [I' _]]].
      rewrite G' in G''. inversion G''; subst r'. apply (NK k' K). congruence. }
    destruct (IH w1 ND') as [w' [F [In' [Out' HF']]]].
    { intros k' K. destruct (Src k' (or_intror K)) as [r' [G' [I' P']]].
      exists r'. rewrite SM, (obj_get_delete_other _ (NK k' K)).
      rewrite (HF r' (NR k' r' K G')). repeat split; assumption. }
    { intros k' K. rewrite DM, (obj_get_set_other _ _ (NK k' K)). apply Dst. right. exact K. }
    exists w'. split.
    { cbn [forEach]. erewrite bind_Ok; [exact F|].
      unfold transfer_key. unfold bind at 1, gets at 1. rewrite G.
      unfold bind at 1, gets at 1. rewrite P, Nat.eqb_refl.
      unfold bind at 1. simpl assert. unfold ret at 1. cbv iota beta. exact T. }
    assert (heap (shared w') r = heap (shared w1) r) as HR.
    { apply HF'. intros k' K. rewrite SM, (obj_get_delete_other _ (NK k' K)).
      intros G'. apply (NR k' r K G'). reflexivity. }
    split; [|split].
    + intros k0 [<-|K].
      * destruct (Out' k NI) as [O1 O2]. split.
        { rewrite O1, SM. apply obj_get_delete. }
        exists r. split; [exact G|]. split.
        { rewrite O2, DM. apply obj_get_set_new. exact G2. }
        rewrite HR. split; assumption.
      * destruct (In' k0 K) as [N [r' [G' R']]]. split; [exact N|].
        exists r'. split; [|exact R'].
        rewrite SM, (obj_get_delete_other _ (NK k0 K)) in G'. exact G'.
    + intros k0 NI0.
      assert (k0 <> k) as N0 by (intros ->; apply NI0; left; reflexivity).
      assert (~ In k0 ks) as NI1 by (intros K; apply NI0; right; exact K).
      destruct (Out' k0 NI1) as [O1 O2]. split.
      * rewrite O1, SM. apply obj_get_delete_other, N0.
      * rewrite O2, DM. apply obj_get_set_other, N0.
    + intros r0 Hr0.
      assert (r0 <> r) as N0 by (intros ->; apply (Hr0 k (or_introl eq_refl)); exact G).
      rewrite <- (HF r0 N0). apply HF'.
      intros k' K. rewrite SM, (obj_get_delete_other _ (NK k' K)).
      apply Hr0. right. exact K.
Qed.

(** X21. [transferSubscriptions] moves every subscription of the source
    engine to another engine, although [transferSubscription] deletes from
    the very object that [_.forEach] is walking through.  When every
    subscription in the source's map is stored under its own id and has the
    source as its [publishEngine], and the destination holds none of these
    ids: the call returns, the source's map is empty, every subscription
    that was in it is found in the destination under the same id with the
    destination as its [publishEngine], and the destination finds under the
    other ids what it found before. *)
Theorem X21_transferSubscriptions_moves_all :
  forall (w : World) (srcPublishEngine destPublishEngine : EngineRef),
    defaultRequestHandle <> 0 ->
    srcPublishEngine <> destPublishEngine ->
    NoDup (map fst (_subscriptions (engines w srcPublishEngine))) ->
    (forall k r,
       getSubscriptionById k (engines w srcPublishEngine) = Some r ->
       subscription_id (heap (shared w) r) = k /\
       publishEngine (heap (shared w) r) = Some srcPublishEngine /\
       getSubscriptionById k (engines w destPublishEngine) = None) ->
    exists w',
      transferSubscriptions srcPublishEngine destPublishEngine w = (Ok tt, w') /\
      _subscriptions (engines w' srcPublishEngine) = [] /\
      (forall k r,
         getSubscriptionById k (engines w srcPublishEngine) = Some r ->
         getSubscriptionById k (engines w' destPublishEngine) = Some r /\
         publishEngine (heap (shared w') r) = Some destPublishEngine /\
         subscription_id (heap (shared w') r) = k) /\
      (forall k,
         getSubscriptionById k (engines w srcPublishEngine) = None ->
         getSubscriptionById k (engines w' destPublishEngine) =
         getSubscriptionById k (engines w destPublishEngine)).
Proof.
  intros w src dest H NE ND WF. unfold getSubscriptionById in *.
  destruct (@transfer_keys src dest (map fst (_subscriptions (engines w src))) H NE w ND)
    as [w' [F [In' [Out' _]]]].
  { intros k K. destruct (obj_get_key _ _ K) as [r G]. exists r.
    destruct (WF k r G) as [I [P _]]. repeat split; assumption. }
  { intros k K. destruct (obj_get_key _ _ K) as [r G]. apply (WF k r G). }
  assert (_subscriptions (engines w' src) = []) as Empty.
  { apply obj_get_none_all. intros k.
    destruct (in_dec Z.eq_dec k (map fst (_subscriptions (engines w src)))) as [K|K].
    - apply (In' k K).
    - rewrite (proj1 (Out' k K)). apply obj_get_not_key, K. }
  exists w'. split; [|split; [exact Empty|split]].
  - unfold transferSubscriptions. unfold bind at 1, gets at 1.
    erewrite bind_Ok by exact F.
    unfold bind, gets, assert, subscriptionCount. rewrite Empty. reflexivity.
  - intros k r G.
    assert (In k (map fst (_subscriptions (engines w src)))) as K.
    { destruct (in_dec Z.eq_dec k (map fst (_subscriptions (engines w src)))) as [K|K];
        [exact K|]. rewrite (obj_get_not_key _ _ K) in G. discriminate. }
    destruct (In' k K) as [_ [r' [G' R']]]. rewrite G in G'. inversion G'; subst r'.
    exact R'.
  - intros k G. apply (Out' k). intros K.
    destruct (obj_get_key _ _ K) as [r G']. congruence.
Qed.

End Transfers.

(** ** Queueing, delivering and draining *)

Section Queueing.
Context {C : Collaborators}.

(** X22. A request that has to wait is put at the end of the queue.  When
    nothing is stashed, the session is open, a subscription is attached, no
    subscription is late once the acknowledgements are processed, no closed
    subscription is waiting to be drained, the queue is below the limit and
    the timeout hint is not negative, [_on_PublishRequest] returns without
    invoking any callback or subscription method other than the
    acknowledgements, and the queue is the old queue followed by the new
    record, which holds the request with its time of receipt and deadline,
    the results of its acknowledgements and its callback. *)
Theorem X22_request_waits_at_the_end_of_the_queue :
  forall (s : ES) (rq : PublishRequest) (cb : option Callback),
    let s1 :=
      snd (process_subscriptionAcknowledgements (subscriptionAcknowledgements rq) s) in
    _publish_response_queue (engine s) = [] ->
    isSessionClosed (engine s) = false ->
    subscriptionCount (engine s) <> 0 ->
    (forall r, In r (subscriptions (engine s)) -> state (attrs (sub s1 r)) <> LATE) ->
    _closed_subscriptions (engine s) = [] ->
    pendingPublishRequestCount (engine s) < maxPublishRequestInQueue (engine s) ->
    0 <= timeoutHint (requestHeader rq) ->
    exists rs s',
      process_subscriptionAcknowledgements (subscriptionAcknowledgements rq) s
        = (Ok rs, s1) /\
      _on_PublishRequest rq cb s = (Ok tt, s') /\
      _publish_request_queue (engine s') =
        _publish_request_queue (engine s)
          ++ [{| request := prepared (clock (store s)) rq; results := rs;
                 callback := callback_or_dummy cb |}] /\
      calls (store s') = calls (store s) /\
      store s' = store s1.
Proof.
  intros s rq cb s1 R SC N NL CL LT TH.
  destruct (acks_returns (subscriptionAcknowledgements rq) s) as [rs [s1' A]].
  assert (s1 = s1') as <- by (unfold s1; rewrite A; reflexivity).
  assert (store_only s s1) as [EN [CA CK]] by (eapply acks_store_only; exact A).
  set (pd := {| request := prepared (clock (store s1)) rq; results := rs;
                callback := callback_or_dummy cb |}).
  assert (_on_PublishRequest rq cb s = (Ok tt, pushed pd s1)) as E.
  { unfold _on_PublishRequest. cbv zeta.
    erewrite bind_Ok by exact A.
    erewrite bind_Ok by (apply process_pending_none; unfold responses; rewrite EN; exact R).
    unfold bind at 1, gets at 1. rewrite EN, SC.
    unfold bind at 1, gets at 1. rewrite EN.
    apply Z.eqb_neq in N. rewrite N.
    unfold bind at 1, gets at 1.
    erewrite bind_Ok by (apply prepare_timeout_info_Ok; exact TH).
    unfold bind at 1, push_publish_request, modify at 1.
    fold (callback_or_dummy cb).
    match goal with |- context [on_engine ?f s1] =>
      change (on_engine f s1) with (pushed pd s1) end.
    erewrite bind_Ok.
    2:{ apply nothing_to_feed. intros r I.
        assert (state (attrs (sub s1 r)) <> LATE) as NLr
          by (apply NL; unfold subscriptions; rewrite <- EN; exact I).
        change (sub (pushed pd s1) r) with (sub s1 r).
        unfold waiting_for_first_publish, late_and_enabled.
        change (sub (pushed pd s1) r) with (sub s1 r).
        destruct (SubscriptionState_eqb (state (attrs (sub s1 r))) LATE) eqn:Q.
        - apply SubscriptionState_eqb_eq in Q. contradiction.
        - rewrite andb_false_r. split; reflexivity. }
    erewrite bind_Ok by (apply feed_closed_nothing; simpl; rewrite EN; exact CL).
    unfold _handle_too_many_requests. unfold bind at 1, gets at 1.
    unfold bind at 1, gets at 1.
    assert ((maxPublishRequestInQueue (engine (pushed pd s1))
               <? pendingPublishRequestCount (engine (pushed pd s1))) = false) as LE.
    { apply Z.ltb_ge. unfold pendingPublishRequestCount in *. simpl.
      rewrite EN, length_app. simpl length. lia. }
    rewrite LE. reflexivity. }
  exists rs, (pushed pd s1). split; [exact A|]. split; [exact E|].
  simpl. rewrite EN. unfold pd. rewrite CK. repeat split. exact CA.
Qed.

(** X23. [send_notification_message] for a subscription that the engine
    holds builds a response that lists the sequence numbers the
    subscription still has available for republishing; it is delivered to
    the oldest pending request or, when none is pending and [force] is set,
    stashed.  Without a pending request and without [force], the call
    throws an AssertionError and nothing is sent, stashed or changed. *)
Theorem X23_notification_lists_available_sequence_numbers :
  forall (s : ES) (param : NotificationParam) (force : bool),
    (_publish_request_queue (engine s) = [] -> force = false ->
     send_notification_message param force s = (Throw AssertionError, s)) /\
    (forall r,
       getSubscriptionById (p_subscriptionId param) (engine s) = Some r ->
       _publish_request_queue (engine s) <> [] \/ force = true ->
       defaultRequestHandle <> 0 ->
       let response :=
         new_PublishResponse Good (p_subscriptionId param) (retained (attrs (sub s r)))
           (p_moreNotifications param)
           (Some {| sequenceNumber := p_sequenceNumber param;
                    publishTime := clock (store s);
                    notificationData := p_notificationData param |}) in
       exists s',
         send_notification_message param force s = (Ok tt, s') /\
         match _publish_request_queue (engine s) with
         | oldest :: rest =>
             _publish_request_queue (engine s') = rest /\
             _publish_response_queue (engine s') = _publish_response_queue (engine s) /\
             calls (store s') = calls (store s) ++ [answer oldest response]
         | [] =>
             _publish_request_queue (engine s') = [] /\
             _publish_response_queue (engine s') =
               _publish_response_queue (engine s) ++ [response] /\
             calls (store s') = calls (store s)
         end).
Proof.
  intros s param force. split.
  - intros Q ->. unfold send_notification_message, bind, gets, assert,
      pendingPublishRequestCount. rewrite Q. reflexivity.
  - intros r G PF H response.
    assert (notification_response param s = response) as NR
      by (unfold notification_response, response; rewrite G; reflexivity).
    destruct (_publish_request_queue (engine s)) as [|oldest rest] eqn:Q.
    + destruct PF as [PF| ->]; [contradiction PF; reflexivity|].
      rewrite send_notification_message_stashes by exact Q.
      eexists. split; [reflexivity|]. simpl. rewrite Q, NR. repeat split.
    + erewrite send_notification_message_delivers by (first [exact H | exact Q]).
      eexists. split; [reflexivity|]. simpl. rewrite NR. repeat split.
Qed.

(** X24. [_feed_closed_subscription] gives each closed subscription one
    turn.  Without a pending request, or with nothing on the closed-drain
    list, it returns [false] and changes nothing.  Otherwise it takes the
    head off the list, whatever happens next: when the head has pending
    notifications its [_publish_pending_notifications] is invoked, once, and
    the result is [true]; when it has none, no subscription is called and
    the result is [false], although other closed subscriptions may be
    waiting behind it. *)
Theorem X24_feed_closed_gives_each_subscription_one_turn :
  forall (s : ES),
    (_publish_request_queue (engine s) = [] \/ _closed_subscriptions (engine s) = [] ->
     _feed_closed_subscription s = (Ok false, s)) /\
    (forall c rest,
       _publish_request_queue (engine s) <> [] ->
       _closed_subscriptions (engine s) = c :: rest ->
       _closed_subscriptions (engine (snd (_feed_closed_subscription s))) = rest /\
       invocations (store (snd (_feed_closed_subscription s))) =
         invocations (store s)
           ++ (if hasPendingNotifications (attrs (sub s c))
               then [(c, m_publish_pending_notifications)] else []) /\
       (forall b s', _feed_closed_subscription s = (Ok b, s') ->
                     b = hasPendingNotifications (attrs (sub s c)))).
Proof.
  intros s. split.
  - intros [Q|CL]; [|apply feed_closed_nothing, CL].
    unfold _feed_closed_subscription, bind, gets, pendingPublishRequestCount.
    rewrite Q. reflexivity.
  - intros c rest Q CL.
    assert (_feed_closed_subscription s =
            (let s0 := on_engine (set_closed_subscriptions rest) s in
             if hasPendingNotifications (attrs (sub s c))
             then (call_method c m_publish_pending_notifications
                     _publish_pending_notifications ;; ret true) s0
             else (Ok false, s0))) as E.
    { unfold _feed_closed_subscription. unfold bind at 1, gets at 1.
      unfold pendingPublishRequestCount.
      destruct (_publish_request_queue (engine s)) as [|p l];
        [contradiction Q; reflexivity|].
      change (Z.of_nat (length (p :: l)) =? 0) with false. cbv iota.
      unfold bind at 1, gets at 1. rewrite CL.
      unfold bind at 1, modify at 1. unfold bind at 1, gets at 1.
      change (sub (on_engine (set_closed_subscriptions rest) s) c) with (sub s c).
      destruct (hasPendingNotifications (attrs (sub s c))); reflexivity. }
    rewrite E. cbv zeta.
    destruct (hasPendingNotifications (attrs (sub s c))).
    + pose proof (@closed_list_call_method C rest c m_publish_pending_notifications
                    _publish_pending_notifications
                    (on_engine (set_closed_subscriptions rest) s) eq_refl) as K.
      pose proof (invocations_call_method c m_publish_pending_notifications
                    _publish_pending_notifications
                    (on_engine (set_closed_subscriptions rest) s)) as I.
      unfold bind.
      destruct (call_method c m_publish_pending_notifications
                  _publish_pending_notifications
                  (on_engine (set_closed_subscriptions rest) s)) as [[[]|e] s1];
        simpl in *; (split; [exact K|]); (split; [exact I|]);
        intros b s' X; inversion X; reflexivity.
    + simpl. rewrite app_nil_r. repeat split.
      intros b s' X. inversion X. reflexivity.
Qed.

End Queueing.

(** ** Counting the subscriptions *)

Lemma keys_obj_delete {V} k (o : JSObject V) :
  map fst (obj_delete k o) = filter (fun k' => negb (k' =? k)) (map fst o).
Proof.
  induction o as [|[k0 v] o IH]; simpl; [reflexivity|].
  destruct (k0 =? k); simpl; rewrite IH; reflexivity.
Qed.

Lemma keys_obj_replace {V} k (v : V) o : map fst (obj_replace k v o) = map fst o.
Proof.
  induction o as [|[k0 v0] o IH]; simpl; [reflexivity|].
  destruct (k0 =? k) eqn:E; simpl; [|rewrite IH; reflexivity].
  apply Z.eqb_eq in E. subst k0. reflexivity.
Qed.

Lemma keys_obj_insert_index {V} k (v : V) o :
  Permutation (map fst (obj_insert_index k v o)) (k :: map fst o).
Proof.
  induction o as [|[k0 v0] o IH]; simpl; [apply Permutation_refl|].
  destruct (negb (is_array_index k0) || (k <? k0)); simpl; [apply Permutation_refl|].
  eapply Permutation_trans; [apply perm_skip, IH | apply perm_swap].
Qed.

Lemma obj_get_absent_key {V} k (o : JSObject V) : obj_get k o = None -> ~ In k (map fst o).
Proof.
  intros G K. destruct (obj_get_key _ _ K) as [v E]. congruence.
Qed.

Lemma NoDup_obj_set {V} k (v : V) o : NoDup (map fst o) -> NoDup (map fst (obj_set k v o)).
Proof.
  intros ND. unfold obj_set, obj_has.
  destruct (obj_get k o) eqn:G; [rewrite keys_obj_replace; exact ND|].
  assert (NoDup (k :: map fst o)) as ND'
    by (constructor; [apply obj_get_absent_key, G | exact ND]).
  destruct (is_array_index k).
  - eapply Permutation_NoDup; [apply Permutation_sym, keys_obj_insert_index | exact ND'].
  - rewrite map_app. simpl.
    eapply Permutation_NoDup; [apply Permutation_cons_append | exact ND'].
Qed.

Lemma NoDup_obj_delete {V} k (o : JSObject V) :
  NoDup (map fst o) -> NoDup (map fst (obj_delete k o)).
Proof. intros ND. rewrite keys_obj_delete. apply NoDup_filter, ND. Qed.

(** In an object, deleting a property that is there leaves one property
    less. *)
Lemma obj_size_delete {V} k (o : JSObject V) (v : V) :
  NoDup (map fst o) -> obj_get k o = Some v -> obj_size (obj_delete k o) = obj_size o - 1.
Proof.
  unfold obj_size. induction o as [|[k0 v0] o IH]; [discriminate|].
  cbn [obj_delete obj_get map fst length]. rewrite Nat2Z.inj_succ.
  intros ND G. inversion ND as [|x l NI ND']; subst x l.
  destruct (k0 =? k) eqn:E.
  - apply Z.eqb_eq in E. subst k0.
    rewrite obj_delete_absent by (apply obj_get_not_key, NI). lia.
  - cbn [length]. rewrite Nat2Z.inj_succ, (IH ND' G). lia.
Qed.

Section Counting.
Context {C : Collaborators}.

Ltac unfold_operations :=
  cbv beta zeta delta
    [exec _on_PublishRequest _on_tick _cancelTimeoutRequests onSessionClose
     cancelPendingPublishRequestBeforeChannelChange cancelPendingPublishRequest
     _cancelPendingPublishRequest shutdown on_close_subscription add_subscription
     detach_subscription _feed_late_subscription _feed_closed_subscription
     _handle_too_many_requests call_method run_step send_keep_alive_response
     send_notification_message send_error_for_request send_response_for_request
     send_response_for_shifted shift_publish_request push_publish_request
     process_subscriptionAcknowledgements _process_pending_publish_response
     prepare_timeout_info].

Ltac keyed :=
  first [ assumption
        | apply NoDup_obj_set; assumption
        | apply NoDup_obj_delete; assumption ].

Lemma keys_while fuel :
  keeps (fun w => NoDup (map fst (_subscriptions (engine w))))
        (while_feed_closed_subscription fuel).
Proof. induction fuel; simpl; unfold_operations; keeps_walk keyed. Qed.

Lemma keys_exec self op :
  keeps (fun w => NoDup (map fst (_subscriptions (engine w)))) (exec self op).
Proof.
  pose proof keys_while.
  destruct op; unfold_operations; keeps_walk keyed.
Qed.

Lemma keys_reaches self options st w :
  reaches self (fresh options st) w -> NoDup (map fst (_subscriptions (engine w))).
Proof.
  intros R. induction R as [|w1 op R IH]; [constructor|].
  apply keys_exec, IH.
Qed.

Lemma subscriptions_while l fuel :
  keeps (fun w => _subscriptions (engine w) = l) (while_feed_closed_subscription fuel).
Proof. induction fuel; simpl; unfold_operations; keeps_walk assumption. Qed.

(** [on_close_subscription], when it returns, has deleted the id and nothing
    else from the subscription map. *)
Lemma on_close_subscription_map r s s' :
  on_close_subscription r s = (Ok tt, s') ->
  obj_has (subscription_id (sub s r)) (_subscriptions (engine s)) = true /\
  _subscriptions (engine s') =
    obj_delete (subscription_id (sub s r)) (_subscriptions (engine s)).
Proof.
  intros E.
  destruct (obj_has (subscription_id (sub s r)) (_subscriptions (engine s))) eqn:K.
  2:{ exfalso. revert E. unfold on_close_subscription.
      unfold bind at 1, gets at 1. unfold bind at 1, gets at 1. rewrite K. discriminate. }
  split; [reflexivity|].
  rewrite on_close_subscription_unfold in E by exact K.
  assert (_subscriptions (engine (closing r s)) =
          obj_delete (subscription_id (sub s r)) (_subscriptions (engine s))) as M
    by (unfold closing; destruct (hasPendingNotifications _); reflexivity).
  destruct (subscriptionCount (engine (closing r s)) =? 0).
  - apply bind_inv in E. destruct E as [[e [_ E]]|[[] [s3 [E3 E]]]]; [discriminate|].
    pose proof (@subscriptions_while (_subscriptions (engine (closing r s)))
                  (S (length (_closed_subscriptions (engine (closing r s)))))
                  (closing r s) eq_refl) as W.
    rewrite E3 in W. simpl in W.
    apply cancelPendingPublishRequest_Ok in E. subst s'. simpl. rewrite W. exact M.
  - inversion E; subst s'. exact M.
Qed.

(** X25. [subscriptionCount] counts the attached subscriptions one by one:
    in every state that a freshly constructed engine reaches,
    [detach_subscription] and [on_close_subscription], when they return,
    leave [subscriptionCount] exactly one lower than it was (and
    [add_subscription] leaves it one higher). *)
Theorem X25_subscriptionCount_moves_by_one :
  forall (self : EngineRef) (options : option Z) (st : Store) (w w' : ES) (r : SubRef),
    reaches self (fresh options st) w ->
    (detach_subscription self r w = (Ok r, w') ->
     subscriptionCount (engine w') = subscriptionCount (engine w) - 1) /\
    (on_close_subscription r w = (Ok tt, w') ->
     subscriptionCount (engine w') = subscriptionCount (engine w) - 1) /\
    (add_subscription self r w = (Ok r, w') ->
     subscriptionCount (engine w') = subscriptionCount (engine w) + 1).
Proof.
  intros self options st w w' r R. apply keys_reaches in R.
  unfold subscriptionCount. split; [|split].
  - unfold detach_subscription. unfold bind at 1, gets at 1.
    unfold bind at 1, assert.
    destruct (match publishEngine (sub w r) with Some e => Nat.eqb e self | None => false end);
      [|discriminate].
    unfold ret at 1. cbv iota beta. unfold bind at 1, gets at 1.
    unfold getSubscriptionById.
    destruct (obj_get (subscription_id (sub w r)) (_subscriptions (engine w))) as [r'|] eqn:G;
      [|discriminate].
    unfold bind at 1, assert. destruct (Nat.eqb r' r); [|discriminate].
    intros E. inversion E; subst w'. simpl.
    eapply obj_size_delete; eassumption.
  - intros E. apply on_close_subscription_map in E. destruct E as [K M].
    rewrite M. unfold obj_has in K.
    destruct (obj_get (subscription_id (sub w r)) (_subscriptions (engine w))) as [r'|] eqn:G;
      [|discriminate].
    eapply obj_size_delete; eassumption.
  - unfold add_subscription. unfold bind at 1, gets at 1.
    unfold bind at 1, modify at 1. unfold bind at 1, assert.
    destruct (Nat.eqb _ self); [|discriminate].
    unfold ret at 1. cbv iota beta. unfold bind at 1, gets at 1.
    simpl engine. unfold obj_has.
    destruct (obj_get (subscription_id (sub w r)) (_subscriptions (engine w))) eqn:G;
      [discriminate|].
    simpl negb. unfold bind at 1, assert, ret at 1. cbv iota beta.
    intros E. inversion E; subst w'. simpl.
    apply obj_size_set_new, G.
Qed.

End Counting.

(** ** The properties at work *)

Lemma X2_channel_change_cancels_pending_requests_witness :
  let s := snd (run (C := v8_collaborators) 0%nat two_requests_at_limit_2
                  (fresh None (store0 0))) in
  defaultRequestHandle (Collaborators := v8_collaborators) <> 0 /\
  exists s',
    cancelPendingPublishRequestBeforeChannelChange (C := v8_collaborators) s = (Ok tt, s') /\
    _publish_request_queue (engine s') = [] /\
    map summary (calls (store s')) =
      [(client_callback 1, 1, BadSecureChannelClosed, false);
       (client_callback 2, 2, BadSecureChannelClosed, false)] /\
    isSessionClosed (engine s') = false.
Proof.
  intros s.
  assert (defaultRequestHandle (Collaborators := v8_collaborators) <> 0) as H
    by (simpl; lia).
  split; [exact H|].
  destruct (@X2_channel_change_cancels_pending_requests v8_collaborators s H)
    as [s' [E [Q [CA [_ [_ [SC _]]]]]]].
  exists s'. split; [exact E|]. split; [exact Q|]. split.
  - rewrite CA. vm_compute. reflexivity.
  - rewrite SC. vm_compute. reflexivity.
Defined.

Lemma X5_add_subscription_registers_the_id_witness :
  let s := fresh None (store0 0) in
  (publishEngine (sub s 1%nat) = None \/ publishEngine (sub s 1%nat) = Some 0%nat) /\
  getSubscriptionById (subscription_id (sub s 1%nat)) (engine s) = None /\
  exists s',
    add_subscription 0%nat 1%nat s = (Ok 1%nat, s') /\
    getSubscriptionById 1 (engine s') = Some 1%nat /\
    subscriptionCount (engine s') = 1 /\
    publishEngine (sub s' 1%nat) = Some 0%nat.
Proof.
  intros s.
  assert (publishEngine (sub s 1%nat) = None \/ publishEngine (sub s 1%nat) = Some 0%nat)
    as P by (left; reflexivity).
  assert (getSubscriptionById (subscription_id (sub s 1%nat)) (engine s) = None) as G
    by reflexivity.
  split; [exact P|]. split; [exact G|].
  destruct (@X5_add_subscription_registers_the_id 0%nat 1%nat s P G)
    as [s' [E [G' [_ [N [PE _]]]]]].
  exists s'. split; [exact E|]. split; [exact G'|]. split; [exact N | exact PE].
Defined.

Lemma X7_add_then_detach_restores_witness :
  let s := snd (run (C := v8_collaborators) 0%nat one_subscription
                  (fresh None (store0 0))) in
  publishEngine (sub s 2%nat) = None /\
  getSubscriptionById (subscription_id (sub s 2%nat)) (engine s) = None /\
  exists s1 s2,
    add_subscription 0%nat 2%nat s = (Ok 2%nat, s1) /\
    detach_subscription 0%nat 2%nat s1 = (Ok 2%nat, s2) /\
    engine s2 = engine s.
Proof.
  intros s.
  assert (publishEngine (sub s 2%nat) = None) as P by reflexivity.
  assert (getSubscriptionById (subscription_id (sub s 2%nat)) (engine s) = None) as G
    by reflexivity.
  split; [exact P|]. split; [exact G|].
  destruct (@X7_add_then_detach_restores 0%nat 2%nat s P G) as [s1 [s2 [E1 [E2 [EN _]]]]].
  exists s1, s2. split; [exact E1|]. split; [exact E2 | exact EN].
Defined.

Lemma X10_closing_the_last_subscription_answers_every_request_witness :
  let s := snd (run (C := v8_collaborators) 0%nat
                  [Op_add_subscription 1%nat; publish_request 1 0 1; publish_request 2 0 2;
                   Env_subscription 1%nat (subscription_object 1 0%nat draining_attrs)]
                  (fresh None (store0 0))) in
  let s' := snd (on_close_subscription (C := v8_collaborators) 1%nat s) in
  getSubscriptionById (subscription_id (sub s 1%nat)) (engine s) <> None /\
  (forall k, k <> subscription_id (sub s 1%nat) -> getSubscriptionById k (engine s) = None) /\
  on_close_subscription (C := v8_collaborators) 1%nat s = (Ok tt, s') /\
  _publish_request_queue (engine s') = [] /\
  _subscriptions (engine s') = [] /\
  map summary (calls (store s')) =
    [(client_callback 1, 1, Good, true); (client_callback 2, 2, BadNoSubscription, false)].
Proof.
  intros s s'.
  assert (getSubscriptionById (subscription_id (sub s 1%nat)) (engine s) <> None) as G
    by (vm_compute; discriminate).
  assert (forall k, k <> subscription_id (sub s 1%nat) ->
                    getSubscriptionById k (engine s) = None) as Only.
  { intros k N. change (subscription_id (sub s 1%nat)) with 1 in N.
    change (getSubscriptionById k (engine s)) with (if 1 =? k then Some 1%nat else None).
    destruct (1 =? k) eqn:E; [apply Z.eqb_eq in E; lia | reflexivity]. }
  assert (on_close_subscription (C := v8_collaborators) 1%nat s = (Ok tt, s')) as E
    by (apply returns_tt; vm_compute; reflexivity).
  split; [exact G|]. split; [exact Only|]. split; [exact E|].
  destruct (proj1 (proj2 (@X10_closing_the_last_subscription_answers_every_request
                            v8_collaborators 1%nat s s' G Only)) E)
    as [Q [M _]].
  split; [exact Q|]. split; [exact M|]. vm_compute. reflexivity.
Defined.

Lemma X14_limit_is_fixed_at_construction_witness :
  let w := snd (run (C := v8_collaborators) 0%nat request_then_close_session
                  (fresh (Some 0) (store0 0))) in
  reaches (C := v8_collaborators) 0%nat (fresh (Some 0) (store0 0)) w /\
  maxPublishRequestInQueue (engine w) = configured_limit (Some 0) /\
  configured_limit (Some 0) = 100.
Proof.
  intros w.
  assert (reaches (C := v8_collaborators) 0%nat (fresh (Some 0) (store0 0)) w) as R
    by apply reaches_run.
  split; [exact R|].
  destruct (@X14_limit_is_fixed_at_construction v8_collaborators _ _ _ _ R) as [L [_ [_ D]]].
  split; [exact L|]. apply D. right. reflexivity.
Defined.

Lemma X16_every_response_refers_to_its_request_witness :
  let w := snd (run (C := v8_collaborators) 0%nat request_then_close_session
                  (fresh None (store0 0))) in
  calls (store0 0) = [] /\
  reaches (C := v8_collaborators) 0%nat (fresh None (store0 0)) w /\
  length (calls (store w)) = 3%nat /\
  Forall correlated (calls (store w)).
Proof.
  intros w.
  assert (reaches (C := v8_collaborators) 0%nat (fresh None (store0 0)) w) as R
    by apply reaches_run.
  split; [reflexivity|]. split; [exact R|]. split; [vm_compute; reflexivity|].
  apply Forall_forall. intros c I.
  exact (@X16_every_response_refers_to_its_request v8_collaborators 0%nat None (store0 0) w c
           eq_refl R I).
Defined.

Lemma X17_only_notifications_are_stashed_witness :
  let w := snd (run (C := v8_collaborators) 0%nat one_stashed_notification
                  (fresh None (store0 0))) in
  reaches (C := v8_collaborators) 0%nat (fresh None (store0 0)) w /\
  length (_publish_response_queue (engine w)) = 1%nat /\
  Forall carries_notification (_publish_response_queue (engine w)).
Proof.
  intros w.
  assert (reaches (C := v8_collaborators) 0%nat (fresh None (store0 0)) w) as R
    by apply reaches_run.
  split; [exact R|]. split; [vm_compute; reflexivity|].
  apply Forall_forall. intros r I.
  exact (@X17_only_notifications_are_stashed v8_collaborators _ _ _ _ r R I).
Defined.

Lemma X18_forced_notification_waits_for_the_next_request_witness :
  let s := snd (run (C := v8_collaborators) 0%nat one_subscription
                  (fresh None (store0 0))) in
  let param := {| p_subscriptionId := 1; p_sequenceNumber := 1;
                  p_notificationData := [DataNotification 0];
                  p_moreNotifications := false |} in
  let rq := new_PublishRequest (header 7 0) [] in
  _publish_request_queue (engine s) = [] /\
  Forall (fun r => rh_requestHandle (responseHeader r) <> 0)
         (_publish_response_queue (engine s)) /\
  defaultRequestHandle (Collaborators := v8_collaborators) <> 0 /\
  exists s1 s2,
    send_notification_message (C := v8_collaborators) param true s = (Ok tt, s1) /\
    _on_PublishRequest (C := v8_collaborators) rq (Some (client_callback 1)) s1
      = (Ok tt, s2) /\
    _publish_response_queue (engine s2) = [] /\
    map summary (calls (store s2)) = [(client_callback 1, 7, Good, true)].
Proof.
  intros s param rq.
  assert (_publish_request_queue (engine s) = []) as Q by reflexivity.
  assert (Forall (fun r => rh_requestHandle (responseHeader r) <> 0)
                 (_publish_response_queue (engine s))) as F by constructor.
  assert (defaultRequestHandle (Collaborators := v8_collaborators) <> 0) as H
    by (simpl; lia).
  split; [exact Q|]. split; [exact F|]. split; [exact H|].
  destruct (@X18_forced_notification_waits_for_the_next_request v8_collaborators
              s param rq (Some (client_callback 1)) Q F H)
    as [s1 [rs [s2 [oldest [rest [E1 [_ [_ [A [E2 [ST [R2 [_ CA]]]]]]]]]]]]].
  exists s1, s2. split; [exact E1|]. split; [exact E2|].
  assert (oldest = notification_response (C := v8_collaborators) param s /\ rest = [])
    as [-> ->] by (inversion ST; split; reflexivity).
  split; [exact R2|]. rewrite CA.
  assert (rs = []) as -> by (change (Ok (@nil StatusCode) = Ok rs) in A; congruence).
  vm_compute. reflexivity.
Defined.

Lemma X19_negative_timeoutHint_is_refused_witness :
  let s := snd (run (C := v8_collaborators) 0%nat one_subscription
                  (fresh None (store0 0))) in
  let rq := new_PublishRequest (header 7 (-5)) [] in
  timeoutHint (requestHeader rq) < 0 /\
  _publish_response_queue (engine s) = [] /\
  isSessionClosed (engine s) = false /\
  subscriptionCount (engine s) <> 0 /\
  exists s1,
    _on_PublishRequest (C := v8_collaborators) rq (Some (client_callback 1)) s
      = (Throw AssertionError, s1) /\
    engine s1 = engine s /\
    calls (store s1) = [].
Proof.
  intros s rq.
  assert (timeoutHint (requestHeader rq) < 0) as TH by (simpl; lia).
  assert (_publish_response_queue (engine s) = []) as R by reflexivity.
  assert (isSessionClosed (engine s) = false) as SC by reflexivity.
  assert (subscriptionCount (engine s) <> 0) as N by (vm_compute; discriminate).
  split; [exact TH|]. split; [exact R|]. split; [exact SC|]. split; [exact N|].
  destruct (@X19_negative_timeoutHint_is_refused v8_collaborators s rq
              (Some (client_callback 1)) TH R SC N) as [s1 [E [_ [EN CA]]]].
  exists s1. split; [exact E|]. split; [exact EN|]. rewrite CA. reflexivity.
Defined.

Lemma X20_transfer_to_engine_holding_the_id_loses_the_subscription_witness :
  let w := world_with_the_id_taken in
  defaultRequestHandle (Collaborators := v8_collaborators) <> 0 /\
  publishEngine (heap (shared w) 1%nat) = Some 0%nat /\
  getSubscriptionById (subscription_id (heap (shared w) 1%nat)) (engines w 0%nat)
    = Some 1%nat /\
  0%nat <> 1%nat /\
  getSubscriptionById (subscription_id (heap (shared w) 1%nat)) (engines w 1%nat)
    = Some 2%nat /\
  exists w',
    transferSubscription (C := v8_collaborators) 1%nat 1%nat false w
      = (Throw AssertionError, w') /\
    getSubscriptionById 1 (engines w' 0%nat) = None /\
    getSubscriptionById 1 (engines w' 1%nat) = Some 2%nat /\
    publishEngine (heap (shared w') 1%nat) = Some 1%nat.
Proof.
  intros w.
  assert (defaultRequestHandle (Collaborators := v8_collaborators) <> 0) as H
    by (simpl; lia).
  assert (publishEngine (heap (shared w) 1%nat) = Some 0%nat) as P by reflexivity.
  assert (getSubscriptionById (subscription_id (heap (shared w) 1%nat)) (engines w 0%nat)
          = Some 1%nat) as G by reflexivity.
  assert (0%nat <> 1%nat) as NE by discriminate.
  assert (getSubscriptionById (subscription_id (heap (shared w) 1%nat)) (engines w 1%nat)
          = Some 2%nat) as G2 by reflexivity.
  split; [exact H|]. split; [exact P|]. split; [exact G|]. split; [exact NE|].
  split; [exact G2|].
  destruct (@X20_transfer_to_engine_holding_the_id_loses_the_subscription
              v8_collaborators w 1%nat 2%nat 0%nat 1%nat false H P G NE G2)
    as [w' [E [G1' [G2' [P' _]]]]].
  exists w'. split; [exact E|]. split; [exact G1'|]. split; [exact G2' | exact P'].
Defined.

Lemma X21_transferSubscriptions_moves_all_witness :
  let w := world_of_two_subscriptions in
  defaultRequestHandle (Collaborators := v8_collaborators) <> 0 /\
  0%nat <> 1%nat /\
  NoDup (map fst (_subscriptions (engines w 0%nat))) /\
  (forall k r,
     getSubscriptionById k (engines w 0%nat) = Some r ->
     subscription_id (heap (shared w) r) = k /\
     publishEngine (heap (shared w) r) = Some 0%nat /\
     getSubscriptionById k (engines w 1%nat) = None) /\
  exists w',
    transferSubscriptions (C := v8_collaborators) 0%nat 1%nat w = (Ok tt, w') /\
    _subscriptions (engines w' 0%nat) = [] /\
    getSubscriptionById 1 (engines w' 1%nat) = Some 1%nat /\
    getSubscriptionById 2 (engines w' 1%nat) = Some 2%nat /\
    publishEngine (heap (shared w') 1%nat) = Some 1%nat /\
    publishEngine (heap (shared w') 2%nat) = Some 1%nat.
Proof.
  intros w.
  assert (defaultRequestHandle (Collaborators := v8_collaborators) <> 0) as H
    by (simpl; lia).
  assert (0%nat <> 1%nat) as NE by discriminate.
  assert (NoDup (map fst (_subscriptions (engines w 0%nat)))) as ND.
  { change (NoDup [1; 2]). repeat constructor; simpl; intuition discriminate. }
  assert (forall k r,
            getSubscriptionById k (engines w 0%nat) = Some r ->
            subscription_id (heap (shared w) r) = k /\
            publishEngine (heap (shared w) r) = Some 0%nat /\
            getSubscriptionById k (engines w 1%nat) = None) as WF.
  { intros k r.
    change (getSubscriptionById k (engines w 0%nat))
      with (if 1 =? k then Some 1%nat else if 2 =? k then Some 2%nat else None).
    destruct (1 =? k) eqn:K1; [|destruct (2 =? k) eqn:K2; [|discriminate]];
      intros G; inversion G; subst r.
    - apply Z.eqb_eq in K1. subst k. repeat split.
    - apply Z.eqb_eq in K2. subst k. repeat split. }
  split; [exact H|]. split; [exact NE|]. split; [exact ND|]. split; [exact WF|].
  destruct (@X21_transferSubscriptions_moves_all v8_collaborators w 0%nat 1%nat H NE ND WF)
    as [w' [E [Empty [Moved _]]]].
  exists w'. split; [exact E|]. split; [exact Empty|].
  destruct (Moved 1 1%nat eq_refl) as [G1 [P1 _]].
  destruct (Moved 2 2%nat eq_refl) as [G2 [P2 _]].
  repeat split; assumption.
Defined.

Lemma X22_request_waits_at_the_end_of_the_queue_witness :
  let s := snd (run (C := v8_collaborators) 0%nat
                  [Op_add_subscription 1%nat; publish_request 1 0 1]
                  (fresh None (store0 0))) in
  let rq := new_PublishRequest (header 2 0) [] in
  _publish_response_queue (engine s) = [] /\
  isSessionClosed (engine s) = false /\
  subscriptionCount (engine s) <> 0 /\
  (forall r, In r (subscriptions (engine s)) ->
     state (attrs (sub (snd (process_subscriptionAcknowledgements (C := v8_collaborators)
                               (subscriptionAcknowledgements rq) s)) r)) <> LATE) /\
  _closed_subscriptions (engine s) = [] /\
  pendingPublishRequestCount (engine s) < maxPublishRequestInQueue (engine s) /\
  0 <= timeoutHint (requestHeader rq) /\
  exists s',
    _on_PublishRequest (C := v8_collaborators) rq (Some (client_callback 2)) s
      = (Ok tt, s') /\
    map callback (_publish_request_queue (engine s')) =
      [client_callback 1; client_callback 2] /\
    calls (store s') = calls (store s).
Proof.
  intros s rq.
  assert (_publish_response_queue (engine s) = []) as R by reflexivity.
  assert (isSessionClosed (engine s) = false) as SC by reflexivity.
  assert (subscriptionCount (engine s) <> 0) as N by (vm_compute; discriminate).
  assert (forall r, In r (subscriptions (engine s)) ->
     state (attrs (sub (snd (process_subscriptionAcknowledgements (C := v8_collaborators)
                               (subscriptionAcknowledgements rq) s)) r)) <> LATE) as NL.
  { intros r I. change (In r [1%nat]) in I. destruct I as [<-|[]].
    vm_compute. discriminate. }
  assert (_closed_subscriptions (engine s) = []) as CL by reflexivity.
  assert (pendingPublishRequestCount (engine s) < maxPublishRequestInQueue (engine s)) as LT
    by (vm_compute; reflexivity).
  assert (0 <= timeoutHint (requestHeader rq)) as TH by (simpl; lia).
  split; [exact R|]. split; [exact SC|]. split; [exact N|]. split; [exact NL|].
  split; [exact CL|]. split; [exact LT|]. split; [exact TH|].
  destruct (@X22_request_waits_at_the_end_of_the_queue v8_collaborators s rq
              (Some (client_callback 2)) R SC N NL CL LT TH)
    as [rs [s' [_ [E [Q [CA _]]]]]].
  exists s'. split; [exact E|]. split; [rewrite Q, map_app; reflexivity | exact CA].
Defined.

Lemma X25_subscriptionCount_moves_by_one_witness :
  let w := snd (run (C := v8_collaborators) 0%nat two_subscriptions
                  (fresh None (store0 0))) in
  let w' := snd (detach_subscription 0%nat 1%nat w) in
  reaches (C := v8_collaborators) 0%nat (fresh None (store0 0)) w /\
  detach_subscription 0%nat 1%nat w = (Ok 1%nat, w') /\
  subscriptionCount (engine w') = subscriptionCount (engine w) - 1.
Proof.
  intros w w'.
  assert (reaches (C := v8_collaborators) 0%nat (fresh None (store0 0)) w) as R
    by apply reaches_run.
  assert (detach_subscription 0%nat 1%nat w = (Ok 1%nat, w')) as E
    by (apply returns_value; vm_compute; reflexivity).
  split; [exact R|]. split; [exact E|].
  exact (proj1 (@X25_subscriptionCount_moves_by_one v8_collaborators 0%nat None
                  (store0 0) w w' 1%nat R) E).
Defined.

Lemma X6_add_subscription_refusals_witness :
  let s := snd (run (C := v8_collaborators) 0%nat
                  [Op_add_subscription 1%nat;
                   Env_subscription 2%nat
                     {| subscription_id := 1; publishEngine := None;
                        attrs := idle_attrs 0 |}]
                  (fresh None (store0 0))) in
  (publishEngine (sub s 2%nat) = None \/ publishEngine (sub s 2%nat) = Some 0%nat) /\
  getSubscriptionById (subscription_id (sub s 2%nat)) (engine s) = Some 1%nat /\
  exists s',
    add_subscription 0%nat 2%nat s = (Throw AssertionError, s') /\
    engine s' = engine s /\
    publishEngine (sub s' 2%nat) = Some 0%nat.
Proof.
  intros s.
  assert (publishEngine (sub s 2%nat) = None \/ publishEngine (sub s 2%nat) = Some 0%nat)
    as P by (left; reflexivity).
  assert (getSubscriptionById (subscription_id (sub s 2%nat)) (engine s) = Some 1%nat) as G
    by reflexivity.
  split; [exact P|]. split; [exact G|].
  destruct (proj2 (@X6_add_subscription_refusals 0%nat 2%nat s) 1%nat P G)
    as [s' [E [EN [PE _]]]].
  exists s'. split; [exact E|]. split; [exact EN | exact PE].
Defined.

Lemma X13_feed_late_serves_first_publish_first_witness :
  let w := pushed {| request := new_PublishRequest (header 1 0) []; results := [];
                     callback := client_callback 1 |}
             (snd (run (C := v8_collaborators) 0%nat
                     [Op_add_subscription 1%nat; Op_add_subscription 2%nat;
                      Env_subscription 1%nat (subscription_object 1 0%nat (late_attrs 9 1));
                      Env_subscription 2%nat (subscription_object 2 0%nat first_publish_attrs)]
                     (fresh None (store0 0)))) in
  _publish_request_queue (engine w) <> [] /\
  In 2%nat (subscriptions (engine w)) /\
  messageSent (attrs (sub w 2%nat)) = false /\
  state (attrs (sub w 2%nat)) = LATE /\
  priority (attrs (sub w 2%nat)) < priority (attrs (sub w 1%nat)) /\
  publishingEnabled (attrs (sub w 2%nat)) = false /\
  invocations (store (snd (_feed_late_subscription (C := v8_collaborators) w))) =
    [(2%nat, m_process_subscription)].
Proof.
  intros w.
  assert (_publish_request_queue (engine w) <> []) as Q by (vm_compute; discriminate).
  assert (In 2%nat (subscriptions (engine w))) as I by (right; left; reflexivity).
  assert (messageSent (attrs (sub w 2%nat)) = false) as M by reflexivity.
  assert (state (attrs (sub w 2%nat)) = LATE) as S by reflexivity.
  split; [exact Q|]. split; [exact I|]. split; [exact M|]. split; [exact S|].
  split; [vm_compute; reflexivity|]. split; [reflexivity|].
  destruct (proj2 (@X13_feed_late_serves_first_publish_first v8_collaborators w)
              2%nat Q I M S) as [r [_ [Ir [Mr [_ [_ Inv]]]]]].
  rewrite Inv.
  change (In r [1%nat; 2%nat]) in Ir. destruct Ir as [<-|[<-|[]]].
  - discriminate Mr.
  - reflexivity.
Defined.

(** ** Requests are served in the order of their arrival *)

Section FirstInFirstOut.
Context {C : Collaborators}.

(** X26. Notifications go to the requests in the order in which the
    requests arrived.  Whenever a delivery step returns, be it
    [send_notification_message], [send_keep_alive_response],
    [_feed_late_subscription] or [_feed_closed_subscription], with whatever
    the subscriptions called by it send, the requests it answered are the
    oldest of the queue, answered in their order, each with its own handle
    and the results of its own acknowledgements; the younger requests are
    still queued in their order and none was added. *)
Theorem X26_deliveries_serve_the_oldest_requests_first :
  forall (s s' : ES) (param : NotificationParam) (force : bool)
         (subscriptionId future_sequence_number : Z),
    send_notification_message param force s = (Ok tt, s') \/
    (exists sent,
       send_keep_alive_response subscriptionId future_sequence_number s = (Ok sent, s')) \/
    _feed_late_subscription s = (Ok tt, s') \/
    (exists fed, _feed_closed_subscription s = (Ok fed, s')) ->
    exists consumed answers,
      _publish_request_queue (engine s) = consumed ++ _publish_request_queue (engine s') /\
      calls (store s') = calls (store s) ++ answers /\
      Forall2 answers_to consumed answers.
Proof.
  intros s s' param force subscriptionId future_sequence_number H.
  assert (drains s s') as D.
  { destruct H as [E|[[sent E]|[E|[fed E]]]].
    - eapply drains_send_notification_message; exact E.
    - eapply drains_send_keep_alive_response; exact E.
    - eapply drains_feed_late; exact E.
    - eapply drains_feed_closed; exact E. }
  exact (drains_consumed D).
Qed.

End FirstInFirstOut.

Lemma X26_deliveries_serve_the_oldest_requests_first_witness :
  let s := pushed {| request := new_PublishRequest (header 1 0) []; results := [];
                     callback := client_callback 1 |}
             (pushed {| request := new_PublishRequest (header 2 0) []; results := [];
                        callback := client_callback 2 |}
                (snd (run (C := v8_collaborators) 0%nat
                        [Op_add_subscription 1%nat;
                         Env_subscription 1%nat
                           (subscription_object 1 0%nat first_publish_attrs)]
                        (fresh None (store0 0))))) in
  let s' := snd (_feed_late_subscription (C := v8_collaborators) s) in
  _feed_late_subscription (C := v8_collaborators) s = (Ok tt, s') /\
  map callback (_publish_request_queue (engine s)) = [client_callback 2; client_callback 1] /\
  map callback (_publish_request_queue (engine s')) = [client_callback 1] /\
  exists consumed answers,
    _publish_request_queue (engine s) = consumed ++ _publish_request_queue (engine s') /\
    calls (store s') = calls (store s) ++ answers /\
    Forall2 answers_to consumed answers.
Proof.
  intros s s'.
  assert (_feed_late_subscription (C := v8_collaborators) s = (Ok tt, s')) as E
    by (apply returns_tt; vm_compute; reflexivity).
  split; [exact E|]. split; [reflexivity|]. split; [vm_compute; reflexivity|].
  exact (@X26_deliveries_serve_the_oldest_requests_first v8_collaborators s s'
           {| p_subscriptionId := 0; p_sequenceNumber := 0; p_notificationData := [];
              p_moreNotifications := false |} false 0 0
           (or_intror (or_intror (or_introl E)))).
Defined.

(** * The queue of pending requests over whole runs *)

(** ** Relations that hold whatever the outcome *)

Section Always.
Variable S : Type.
Variable R : S -> S -> Prop.
Hypothesis R_refl : forall s, R s s.
Hypothesis R_trans : forall a b c, R a b -> R b c -> R a c.

Lemma always_ret {A} (a : A) : always R (ret a).
Proof. intros s. apply R_refl. Qed.

Lemma always_throw {A} e : always R (@throw S A e).
Proof. intros s. apply R_refl. Qed.

Lemma always_gets {A} (f : S -> A) : always R (gets f).
Proof. intros s. apply R_refl. Qed.

Lemma always_assert b : always R (@assert S b).
Proof. intros s. destruct b; apply R_refl. Qed.

Lemma always_modify (f : S -> S) : (forall s, R s (f s)) -> always R (modify f).
Proof. intros Hf s. apply Hf. Qed.

Lemma always_bind {A B} (m : M S A) (k : A -> M S B) :
  always R m -> (forall a, always R (k a)) -> always R (bind m k).
Proof.
  intros Hm Hk s. unfold bind. specialize (Hm s).
  destruct (m s) as [[a|e] s1]; simpl in *.
  - eapply R_trans; [exact Hm | apply Hk].
  - exact Hm.
Qed.

Lemma always_gets_bind {A B} (f : S -> A) (k : A -> M S B) :
  (forall s, R s (snd (k (f s) s))) -> always R (bind (gets f) k).
Proof. intros Hk s. apply Hk. Qed.

Lemma always_forEach {A} (f : A -> M S unit) l :
  (forall x, always R (f x)) -> always R (forEach f l).
Proof.
  intros Hf. induction l as [|x l IH]; simpl.
  - apply always_ret.
  - apply always_bind; [apply Hf | intros _; exact IH].
Qed.

Lemma always_mapM {A B} (f : A -> M S B) l :
  (forall x, always R (f x)) -> always R (mapM f l).
Proof.
  intros Hf. induction l as [|x l IH]; simpl.
  - apply always_ret.
  - apply always_bind; [apply Hf | intros y].
    apply always_bind; [exact IH | intros ys; apply always_ret].
Qed.

End Always.

(** Walking through the code of a method to show that a relation holds
    between the states before and after it, whatever the outcome; [rf] and
    [tr] prove that the relation is reflexive and transitive, [on_mod] that a
    change of the state is in the relation. *)
Ltac always_walk rf tr on_mod :=
  repeat match goal with
  | |- always _ _ => solve [auto]
  | |- always _ (bind _ _) => apply (always_bind tr); [|intros ?]
  | |- always _ (ret _) => apply (always_ret _ rf)
  | |- always _ (throw _) => apply (always_throw _ rf)
  | |- always _ (gets _) => apply (always_gets _ rf)
  | |- always _ (assert _) => apply (always_assert _ rf)
  | |- always _ (forEach _ _) => apply (always_forEach rf tr); intros ?
  | |- always _ (mapM _ _) => apply (always_mapM rf tr); intros ?
  | |- always _ (modify _) => apply always_modify; intros ?; on_mod
  | |- always _ (if ?b then _ else _) => destruct b
  | |- always _ (match ?x with _ => _ end) => destruct x
  | |- always _ (let (_, _) := ?x in _) => destruct x
  end.

(** ** Every callback exactly once, also when operations throw (C2) *)

Section EveryOutcome.
Context {C : Collaborators}.
Hypothesis handle : defaultRequestHandle <> 0.

Ltac settled :=
  first [ apply settles_on_store; reflexivity
        | apply settles_on_engine; reflexivity ].

Ltac settles_walk := always_walk settles_refl settles_trans settled.

(** Taking the oldest request off the queue and answering it. *)
Lemma always_settles_shift_send rs :
  rh_requestHandle (responseHeader rs) <> 0 ->
  always settles
    (publishData <- shift_publish_request ;; send_response_for_shifted publishData rs).
Proof.
  intros H s. unfold shift_publish_request, bind at 1, bind at 1, gets.
  destruct (_publish_request_queue (engine s)) as [|pd rest] eqn:Q; simpl.
  - apply settles_refl.
  - rewrite send_response_returns by exact H. simpl.
    apply drains_settles. split; try reflexivity.
    exists [pd], [answer pd rs]. unfold requests. simpl. rewrite Q.
    split; [reflexivity|]. split; [reflexivity|].
    constructor; [apply answer_answers | constructor].
Qed.

Lemma always_settles_send_notification_message param force :
  always settles (send_notification_message param force).
Proof.
  pose proof always_settles_shift_send as SS.
  unfold send_notification_message. cbv zeta.
  settles_walk.
Qed.

Lemma always_settles_send_keep_alive_response i n :
  always settles (send_keep_alive_response i n).
Proof.
  pose proof always_settles_send_notification_message.
  unfold send_keep_alive_response. settles_walk.
Qed.

Lemma always_settles_call_method r m body : always settles (call_method r m body).
Proof.
  pose proof always_settles_send_notification_message.
  pose proof always_settles_send_keep_alive_response.
  unfold call_method, run_step. settles_walk.
Qed.

Lemma always_settles_feed_late : always settles _feed_late_subscription.
Proof.
  pose proof always_settles_call_method.
  unfold _feed_late_subscription. settles_walk.
Qed.

Lemma always_settles_feed_closed : always settles _feed_closed_subscription.
Proof.
  pose proof always_settles_call_method.
  unfold _feed_closed_subscription. settles_walk.
Qed.

Lemma always_settles_handle_too_many : always settles _handle_too_many_requests.
Proof.
  pose proof always_settles_shift_send as SS.
  unfold _handle_too_many_requests. settles_walk.
Qed.

Lemma always_settles_cancelPending code :
  always settles (_cancelPendingPublishRequest code).
Proof.
  intros s. rewrite cancelPending_returns by exact handle.
  eapply settles_cancelPending. apply cancelPending_returns, handle.
Qed.

Lemma always_settles_cancelTimeoutRequests : always settles _cancelTimeoutRequests.
Proof.
  intros s. rewrite cancelTimeoutRequests_returns by exact handle.
  eapply settles_cancelTimeoutRequests. apply cancelTimeoutRequests_returns, handle.
Qed.

Lemma always_settles_while fuel : always settles (while_feed_closed_subscription fuel).
Proof.
  pose proof always_settles_feed_closed.
  induction fuel; simpl; settles_walk.
Qed.

(** Every operation other than [_on_PublishRequest] and [shutdown] settles,
    whether it returns or throws. *)
Lemma always_settles_exec self op :
  admitted op = [] -> is_shutdown op = false -> always settles (exec self op).
Proof.
  pose proof always_settles_send_notification_message.
  pose proof always_settles_send_keep_alive_response.
  pose proof always_settles_cancelPending.
  pose proof always_settles_cancelTimeoutRequests.
  pose proof always_settles_while.
  destruct op; simpl; try discriminate; intros _ _;
    unfold _on_tick, onSessionClose, cancelPendingPublishRequestBeforeChannelChange,
      add_subscription, detach_subscription, on_close_subscription,
      cancelPendingPublishRequest;
    settles_walk.
Qed.

(** [_on_PublishRequest] adds the callback of the record that it accepts to
    the ledger, and nothing when it refuses the request. *)
Lemma ledger_on_PublishRequest_always rq cb s :
  queues_exclusive s -> stash_unsent s ->
  Permutation (ledger (snd (_on_PublishRequest rq cb s)))
              (ledger s ++ (if refused (requestHeader rq) s then []
                            else [callback_or_dummy cb])).
Proof.
  intros X U. unfold _on_PublishRequest, send_error_for_request. cbv zeta.
  destruct (acks_returns (subscriptionAcknowledgements rq) s) as [rs [s1 A]].
  erewrite bind_Ok by exact A.
  pose proof A as SO. apply acks_store_only in SO.
  rewrite <- (ledger_store_only SO). destruct SO as [EN _].
  assert (refused (requestHeader rq) s = refused (requestHeader rq) s1) as RF
    by (unfold refused, responses; rewrite EN; reflexivity).
  rewrite RF. clear RF.
  assert (queues_exclusive s1) as X1
    by (unfold queues_exclusive, responses, requests in *; rewrite EN; exact X).
  assert (stash_unsent s1) as U1
    by (unfold stash_unsent, responses in *; rewrite EN; exact U).
  clear s A EN X U.
  fold (callback_or_dummy cb).
  set (pd := {| request := rq; results := rs; callback := callback_or_dummy cb |}).
  change (callback_or_dummy cb) with (callback pd) at 2.
  destruct (responses s1) as [|response rest] eqn:R.
  - (* nothing stashed *)
    erewrite bind_Ok by (apply process_pending_none; exact R).
    unfold refused. rewrite R.
    unfold bind at 1, gets at 1.
    destruct (isSessionClosed (engine s1)) eqn:SC.
    { rewrite andb_false_r. simpl andb. cbv iota.
      rewrite send_response_returns by exact handle.
      apply (ledger_answered pd _ (fun E => E)). reflexivity. }
    unfold bind at 1, gets at 1.
    destruct (subscriptionCount (engine s1) =? 0) eqn:N.
    + rewrite andb_false_r. cbv iota.
      unfold bind at 1, gets at 1.
      match goal with |- context [if ?b then _ else _] => destruct b end.
      * unfold bind at 1, gets at 1.
        unfold bind at 1, push_publish_request, modify at 1.
        fold (pushed pd s1).
        eapply Permutation_trans; [|rewrite <- ledger_pushed; apply Permutation_refl].
        match goal with |- Permutation (ledger (snd (?m _))) _ =>
          assert (always settles m) as T
        end.
        { pose proof always_settles_feed_closed. settles_walk. }
        apply (settles_ledger (T (pushed pd s1))).
      * rewrite send_response_returns by exact handle.
        apply (ledger_answered pd _ (fun E => E)). reflexivity.
    + unfold bind at 1, gets at 1.
      unfold bind at 1, prepare_timeout_info, bind at 1, assert.
      destruct (0 <=? timeoutHint (requestHeader rq)) eqn:TH.
      * assert ((timeoutHint (requestHeader rq) <? 0) = false) as TH'
          by (apply Z.ltb_ge, Z.leb_le, TH).
        rewrite TH'. simpl andb. cbv iota.
        unfold ret at 1. cbv iota beta. unfold ret at 1. cbv iota beta.
        unfold bind at 1, push_publish_request, modify at 1.
        match goal with |- context [on_engine ?f s1] =>
          match f with context [?x :: nil] =>
            change (on_engine f s1) with (pushed x s1);
            change (callback pd) with (callback x)
          end
        end.
        eapply Permutation_trans; [|rewrite <- ledger_pushed; apply Permutation_refl].
        match goal with |- Permutation (ledger (snd (?m _))) _ =>
          assert (always settles m) as T
        end.
        { pose proof always_settles_feed_late. pose proof always_settles_feed_closed.
          pose proof always_settles_handle_too_many. settles_walk. }
        apply (settles_ledger (T _)).
      * assert ((timeoutHint (requestHeader rq) <? 0) = true) as TH'
          by (apply Z.ltb_lt; apply Z.leb_gt in TH; exact TH).
        rewrite TH'. simpl. rewrite app_nil_r. apply Permutation_refl.
  - (* a stashed response *)
    assert (requests s1 = []) as Q by (destruct X1 as [X1|X1]; congruence).
    assert (rh_requestHandle (responseHeader response) <> 0) as H.
    { unfold stash_unsent in U1. rewrite R in U1. inversion U1; subst. congruence. }
    erewrite bind_Ok by (apply process_pending_some; eassumption).
    unfold refused. rewrite R. rewrite andb_false_r. simpl andb. cbv iota.
    simpl. apply ledger_answered. reflexivity.
Qed.

(** What [shutdown] does. *)
Lemma shutdown_always s :
  shutdown s =
  if subscriptionCount (engine s) =? 0
  then (Ok tt, on_engine (set_closed_subscriptions [])
                 (on_engine (set_publish_response_queue [])
                    (on_engine (set_publish_request_queue []) s)))
  else (Throw AssertionError, s).
Proof.
  unfold shutdown. unfold bind at 1, gets at 1. unfold bind at 1.
  destruct (subscriptionCount (engine s) =? 0); reflexivity.
Qed.

(** The ledger after one operation, whatever its outcome. *)
Lemma ledger_exec_always self op s :
  queues_exclusive s -> stash_unsent s ->
  Permutation (ledger (snd (exec self op s)) ++ discarded self op s)
              (ledger s ++ accepted op s).
Proof.
  intros X U.
  destruct (is_shutdown op) eqn:SD.
  - destruct op; try discriminate. unfold discarded, accepted. simpl exec.
    rewrite shutdown_always.
    destruct (subscriptionCount (engine s) =? 0); simpl.
    + unfold ledger, requests. simpl. rewrite !app_nil_r. apply Permutation_refl.
    + rewrite !app_nil_r. apply Permutation_refl.
  - assert (discarded self op s = []) as D by (destruct op; try reflexivity; discriminate).
    rewrite D, app_nil_r.
    destruct (admitted op) eqn:AD.
    + assert (accepted op s = []) as AC by (destruct op; try reflexivity; discriminate).
      rewrite AC, app_nil_r.
      apply (settles_ledger (always_settles_exec self op AD SD s)).
    + destruct op; try discriminate.
      apply (@ledger_on_PublishRequest_always (new_PublishRequest h acks) cb s X U).
Qed.

Lemma ledger_run_on self ops s :
  queues_exclusive s -> stash_unsent s ->
  Permutation (ledger (run_on self ops s) ++ discarded_by self ops s)
              (ledger s ++ accepted_by self ops s).
Proof.
  revert s. induction ops as [|op ops IH]; simpl; intros s X U.
  - apply Permutation_refl.
  - pose proof (ledger_exec_always self op X U) as P1.
    pose proof (IH _ (exclusive_exec self op X) (stash_unsent_exec self op U)) as P2.
    eapply Permutation_trans.
    { eapply Permutation_trans; [apply Permutation_app_head, Permutation_app_comm|].
      rewrite app_assoc. apply Permutation_app_tail, P2. }
    rewrite <- app_assoc.
    eapply Permutation_trans; [apply Permutation_app_head, Permutation_app_comm|].
    rewrite !app_assoc. apply Permutation_app_tail, P1.
Qed.

Lemma no_shutdown_nothing_discarded self ops s :
  existsb is_shutdown ops = false -> discarded_by self ops s = [].
Proof.
  revert s. induction ops as [|op ops IH]; simpl; intros s H; [reflexivity|].
  apply orb_false_iff in H. destruct H as [H1 H2].
  rewrite (IH _ H2), app_nil_r. destruct op; try reflexivity; discriminate.
Qed.

(** A refused request: the call throws and leaves the engine and the log of
    callbacks as they were. *)
Lemma refused_throws rq cb s :
  refused (requestHeader rq) s = true ->
  exists s',
    _on_PublishRequest rq cb s = (Throw AssertionError, s') /\
    engine s' = engine s /\ calls (store s') = calls (store s).
Proof.
  unfold refused. intros RF.
  apply andb_true_iff in RF. destruct RF as [RF N].
  apply andb_true_iff in RF. destruct RF as [RF SC].
  apply andb_true_iff in RF. destruct RF as [TH R].
  destruct (acks_returns (subscriptionAcknowledgements rq) s) as [rs [s1 A]].
  pose proof A as SO. apply acks_store_only in SO. destruct SO as [EN [CL _]].
  exists s1. split; [|split; assumption].
  unfold _on_PublishRequest. cbv zeta.
  erewrite bind_Ok by exact A.
  erewrite bind_Ok
    by (apply process_pending_none; unfold responses in *; rewrite EN;
        destruct (_publish_response_queue (engine s)); [reflexivity | discriminate]).
  unfold bind at 1, gets at 1. rewrite EN.
  apply negb_true_iff in SC. rewrite SC.
  unfold bind at 1, gets at 1. rewrite EN.
  apply negb_true_iff in N. rewrite N.
  unfold bind at 1, gets at 1.
  unfold bind at 1, prepare_timeout_info, bind at 1, assert.
  apply Z.ltb_lt in TH.
  assert ((0 <=? timeoutHint (requestHeader rq)) = false) as TH' by (apply Z.leb_gt, TH).
  rewrite TH'. reflexivity.
Qed.

End EveryOutcome.

Section ExactlyOnceEveryOutcome.
Context {C : Collaborators}.

(** C2, as amended.  Operations may return or throw; the caller catches what
    they throw and goes on.  After any sequence of public operations on a
    freshly constructed engine, with an empty callback log at the start and
    provided a new PublishResponse has a request handle other than 0: the
    callbacks invoked so far, the callbacks of the requests still pending
    and the callbacks of the requests that were pending when a [shutdown]
    returned are, with multiplicity, exactly the callbacks of the accepted
    records.  So a record's callback is never invoked twice (when the
    callbacks given to [_on_PublishRequest] are all different, no callback
    occurs twice in the log), a record that has left the queue was answered
    exactly once unless a [shutdown] that returned found it pending, and
    without [shutdown] nothing is discarded.  Every call of
    [_on_PublishRequest] accepts its record, except the call that
    [prepare_timeout_info] refuses for a negative [timeoutHint]: that call
    throws an AssertionError and leaves the engine and the callback log as
    they were. *)
Theorem C2_callback_once_unless_shutdown :
  forall (self : EngineRef) (options : option Z) (st : Store) (ops : list Op),
    defaultRequestHandle <> 0 ->
    calls st = [] ->
    let w := run_on self ops (fresh options st) in
    Permutation
      (map cc_callback (calls (store w))
         ++ map callback (_publish_request_queue (engine w))
         ++ discarded_by self ops (fresh options st))
      (accepted_by self ops (fresh options st)) /\
    (NoDup (accepted_by self ops (fresh options st)) ->
     NoDup (map cc_callback (calls (store w)))) /\
    (existsb is_shutdown ops = false ->
     discarded_by self ops (fresh options st) = []) /\
    (forall h acks cb s,
       accepted (Op_on_PublishRequest h acks cb) s = [] ->
       timeoutHint h < 0 /\
       exists s',
         exec self (Op_on_PublishRequest h acks cb) s = (Throw AssertionError, s') /\
         engine s' = engine s /\ calls (store s') = calls (store s)).
Proof.
  intros self options st ops H H0 w.
  assert (Permutation
            (map cc_callback (calls (store w))
               ++ map callback (_publish_request_queue (engine w))
               ++ discarded_by self ops (fresh options st))
            (accepted_by self ops (fresh options st))) as P.
  { pose proof (@ledger_run_on C H self ops (fresh options st)) as P.
    unfold ledger, requests in P. simpl in P. rewrite H0 in P. simpl in P.
    rewrite <- app_assoc in P. apply P.
    - left. reflexivity.
    - constructor. }
  split; [exact P|]. split; [|split].
  - intros ND. apply Permutation_sym in P.
    apply (Permutation_NoDup P) in ND.
    apply NoDup_app_remove_r in ND. exact ND.
  - apply no_shutdown_nothing_discarded.
  - intros h acks cb s AC. unfold accepted in AC.
    destruct (refused h s) eqn:RF; [|discriminate].
    split.
    + unfold refused in RF. destruct (timeoutHint h <? 0) eqn:TH; [|discriminate].
      apply Z.ltb_lt, TH.
    + apply (@refused_throws C (new_PublishRequest h acks) cb s RF).
Qed.

End ExactlyOnceEveryOutcome.

Lemma C2_callback_once_unless_shutdown_witness :
  let ops := shutdown_twice_and_a_refused_request in
  let w := run_on (C := v8_collaborators) 0%nat ops (fresh None (store0 0)) in
  defaultRequestHandle (Collaborators := v8_collaborators) <> 0 /\
  calls (store0 0) = [] /\
  accepted_by (C := v8_collaborators) 0%nat ops (fresh None (store0 0))
    = [client_callback 1; client_callback 3] /\
  discarded_by (C := v8_collaborators) 0%nat ops (fresh None (store0 0))
    = [client_callback 1] /\
  Permutation
    (map cc_callback (calls (store w))
       ++ map callback (_publish_request_queue (engine w))
       ++ discarded_by (C := v8_collaborators) 0%nat ops (fresh None (store0 0)))
    (accepted_by (C := v8_collaborators) 0%nat ops (fresh None (store0 0))) /\
  (NoDup (accepted_by (C := v8_collaborators) 0%nat ops (fresh None (store0 0))) ->
   NoDup (map cc_callback (calls (store w)))).
Proof.
  intros ops w.
  assert (defaultRequestHandle (Collaborators := v8_collaborators) <> 0) as H
    by (simpl; lia).
  assert (calls (store0 0) = []) as H0 by reflexivity.
  split; [exact H|]. split; [exact H0|].
  split; [vm_compute; reflexivity|]. split; [vm_compute; reflexivity|].
  destruct (@C2_callback_once_unless_shutdown v8_collaborators 0%nat None (store0 0)
              ops H H0) as [P [N _]].
  split; [exact P | exact N].
Defined.

(** ** The bound on the queue when operations throw (C3) *)

Section BoundEveryOutcome.
Context {C : Collaborators}.

(** An operation that does not strand a request keeps the queue within the
    limit. *)
Lemma exec_within_unstranded self op s :
  within_limit s -> strands self op s = false -> within_limit (snd (exec self op s)).
Proof.
  intros W ST. unfold strands in ST.
  pose proof (@limit_exec C _ self op s eq_refl) as L.
  destruct (exec self op s) as [[[]|e] s'] eqn:E; simpl in *.
  - eapply exec_within; eassumption.
  - apply Nat.ltb_ge in ST. destruct W as [W1 W2].
    unfold within_limit, pendingPublishRequestCount, requests in *.
    rewrite L. split; lia.
Qed.

Lemma reaches_unstranded_within self options st w :
  match options with Some n => 0 <= n | None => True end ->
  reaches_unstranded self (fresh options st) w -> within_limit w.
Proof.
  intros H R. induction R as [|w1 op R IH ST].
  - apply fresh_within, H.
  - apply exec_within_unstranded; assumption.
Qed.

End BoundEveryOutcome.

Lemma shrinks_refl w : shrinks w w.
Proof. apply Nat.le_refl. Qed.

Lemma shrinks_trans a b c : shrinks a b -> shrinks b c -> shrinks a c.
Proof. unfold shrinks. intros H1 H2. lia. Qed.

Section Stranding.
Context {C : Collaborators}.

Ltac shrunk := unfold shrinks, requests; simpl; lia.

Ltac shrinks_walk := always_walk shrinks_refl shrinks_trans shrunk.

Lemma always_shrinks_shift : always shrinks shift_publish_request.
Proof.
  unfold shift_publish_request. apply always_gets_bind. intros s.
  unfold shrinks, requests.
  destruct (_publish_request_queue (engine s)) as [|pd rest] eqn:Q; simpl.
  - rewrite Q. apply Nat.le_refl.
  - lia.
Qed.

Lemma always_shrinks_send_response pd rs :
  always shrinks (send_response_for_request pd rs).
Proof. unfold send_response_for_request. shrinks_walk. Qed.

Lemma always_shrinks_cancelTimeoutRequests : always shrinks _cancelTimeoutRequests.
Proof.
  pose proof always_shrinks_send_response.
  unfold _cancelTimeoutRequests.
  apply (always_bind shrinks_trans); [apply (always_gets _ shrinks_refl) | intros n].
  destruct (n =? 0); [apply (always_ret _ shrinks_refl)|].
  apply (always_bind shrinks_trans); [apply (always_gets _ shrinks_refl) | intros t].
  apply always_gets_bind. intros s. rewrite partition_filter. unfold fst, snd at 2.
  unfold bind at 1, modify at 1.
  match goal with |- shrinks s (snd (forEach ?f ?l ?w)) =>
    apply shrinks_trans with w;
      [|apply (always_forEach shrinks_refl shrinks_trans f l); intros x; auto]
  end.
  unfold shrinks, requests. simpl. apply filter_length_le.
Qed.

Lemma always_shrinks_while fuel : always shrinks (while_feed_closed_subscription fuel).
Proof.
  pose proof always_shrinks_shift. pose proof always_shrinks_send_response.
  induction fuel; simpl;
    unfold _feed_closed_subscription, call_method, run_step, send_keep_alive_response,
      send_notification_message, send_response_for_shifted;
    shrinks_walk.
Qed.

(** Only [_on_PublishRequest] makes the queue longer. *)
Lemma always_shrinks_exec self op :
  admitted op = [] -> always shrinks (exec self op).
Proof.
  pose proof always_shrinks_shift. pose proof always_shrinks_send_response.
  pose proof always_shrinks_cancelTimeoutRequests. pose proof always_shrinks_while.
  destruct op; simpl; try discriminate; intros _;
    unfold _on_tick, onSessionClose, cancelPendingPublishRequestBeforeChannelChange,
      add_subscription, detach_subscription, on_close_subscription, shutdown,
      cancelPendingPublishRequest, _cancelPendingPublishRequest, send_error_for_request,
      send_keep_alive_response, send_notification_message, send_response_for_shifted;
    shrinks_walk.
Qed.

Lemma drains_shrinks w w' : drains w w' -> shrinks w w'.
Proof. apply drains_length. Qed.

Lemma throws_short_bind {A B} (m : M ES A) (k : A -> M ES B) :
  follows_ok shrinks m -> throws_short m -> (forall a, throws_short (k a)) ->
  throws_short (bind m k).
Proof.
  intros F Hm Hk s e s' E. apply bind_inv in E.
  destruct E as [[e' [E _]]|[a [s1 [E1 E2]]]].
  - eapply Hm, E.
  - apply F in E1. apply Hk in E2. unfold shrinks in E1.
    destruct E2 as [E2|E2]; [left; lia | right; exact E2].
Qed.

Lemma throws_short_send_notification_message param force :
  throws_short (send_notification_message param force).
Proof.
  intros s e s'. unfold send_notification_message.
  unfold bind at 1, gets at 1. unfold pendingPublishRequestCount, requests.
  destruct (_publish_request_queue (engine s)) as [|pd rest] eqn:Q.
  - simpl length. simpl Z.of_nat. simpl Z.ltb. simpl orb.
    destruct force; unfold bind, assert, gets, ret, throw, modify; simpl; intros E.
    + discriminate.
    + inversion E; subst. right. exact Q.
  - assert ((0 <? Z.of_nat (length (pd :: rest))) = true) as P
      by (apply Z.ltb_lt; simpl length; lia).
    assert ((Z.of_nat (length (pd :: rest)) =? 0) = false) as P'
      by (apply Z.eqb_neq; simpl length; lia).
    rewrite P, P'. simpl orb.
    unfold shift_publish_request, send_response_for_shifted, send_response_for_request.
    unfold bind, assert, gets, ret, throw, modify. rewrite Q.
    destruct (negb _); simpl; intros E; inversion E; subst.
    left. simpl. lia.
Qed.

Lemma throws_short_send_keep_alive_response i n :
  throws_short (send_keep_alive_response i n).
Proof.
  intros s e s'. unfold send_keep_alive_response.
  unfold bind at 1, gets at 1.
  destruct (getSubscriptionById i (engine s)); [|discriminate].
  unfold bind at 1, gets at 1.
  destruct (_ =? 0); [discriminate|].
  intros E. apply bind_inv in E.
  destruct E as [[e' [E _]]|[a [s1 [_ E]]]]; [|discriminate].
  eapply throws_short_send_notification_message, E.
Qed.

Lemma throws_short_run_step r st : throws_short (run_step r st).
Proof.
  destruct st; simpl.
  - apply throws_short_send_notification_message.
  - intros s e s' E. apply bind_inv in E.
    destruct E as [[e' [E _]]|[a [s1 [_ E]]]]; [|discriminate].
    eapply throws_short_send_keep_alive_response, E.
  - intros s e s' E. discriminate.
Qed.

Lemma throws_short_steps r steps : throws_short (forEach (run_step r) steps).
Proof.
  induction steps as [|st steps IH]; simpl.
  - intros s e s' E. discriminate.
  - apply throws_short_bind.
    + intros s a s' E. apply drains_shrinks. eapply drains_run_step, E.
    + apply throws_short_run_step.
    + intros _. exact IH.
Qed.

Lemma throws_short_call_method r m body : throws_short (call_method r m body).
Proof.
  intros s e s'. unfold call_method. unfold bind at 1, modify at 1.
  unfold bind at 1, gets at 1. intros E.
  apply throws_short_steps in E. exact E.
Qed.

Lemma throws_short_feed_late : throws_short _feed_late_subscription.
Proof.
  intros s e s'. unfold _feed_late_subscription.
  unfold bind at 1, gets at 1. destruct (_ =? 0); [discriminate|].
  unfold bind at 1, gets at 1.
  destruct (js_or _ _); [|discriminate].
  apply throws_short_call_method.
Qed.

Lemma throws_short_feed_closed : throws_short _feed_closed_subscription.
Proof.
  intros s e s'. unfold _feed_closed_subscription.
  unfold bind at 1, gets at 1. destruct (_ =? 0); [discriminate|].
  unfold bind at 1, gets at 1.
  destruct (_closed_subscriptions (engine s)) as [|c rest]; [discriminate|].
  unfold bind at 1, modify at 1. unfold bind at 1, gets at 1.
  match goal with |- context [if ?b then _ else _] => destruct b end; [|discriminate].
  intros E. apply bind_inv in E.
  destruct E as [[e' [E _]]|[a [s1 [_ E]]]]; [|discriminate].
  apply throws_short_call_method in E. exact E.
Qed.

(** Within one of the limit, the enforcement step throws only after it has
    taken the oldest request off the queue. *)
Lemma handle_too_many_throws s e s' :
  0 <= maxPublishRequestInQueue (engine s) ->
  pendingPublishRequestCount (engine s) <= maxPublishRequestInQueue (engine s) + 1 ->
  _handle_too_many_requests s = (Throw e, s') ->
  (length (requests s') < length (requests s))%nat.
Proof.
  intros W0 W. unfold _handle_too_many_requests.
  unfold bind at 1, gets at 1. unfold bind at 1, gets at 1.
  destruct (_ <? _) eqn:L; [|discriminate].
  apply Z.ltb_lt in L.
  assert ((pendingPublishRequestCount (engine s)
             =? maxPublishRequestInQueue (engine s) + 1) = true) as N
    by (apply Z.eqb_eq; lia).
  rewrite N.
  unfold shift_publish_request, send_response_for_shifted, send_response_for_request.
  unfold bind, assert, gets, ret, throw, modify. unfold requests.
  unfold pendingPublishRequestCount in L.
  destruct (_publish_request_queue (engine s)) as [|pd rest] eqn:Q.
  - simpl in L. lia.
  - destruct (negb _); simpl; intros E; inversion E; subst. simpl. lia.
Qed.

(** After the new record was pushed in the queueing branch, a throw leaves
    the queue no longer than it was before the push. *)
Lemma queueing_throws_short pd s e s' :
  within_limit s ->
  (_feed_late_subscription ;; _feed_closed_subscription ;; _handle_too_many_requests)
    (pushed pd s) = (Throw e, s') ->
  (length (requests s') <= length (requests s))%nat.
Proof.
  intros [W1 W2] E.
  assert (length (requests (pushed pd s)) = S (length (requests s))) as LP
    by (unfold requests; simpl; rewrite length_app; simpl; lia).
  apply bind_inv in E. destruct E as [[e' [E _]]|[[] [s2 [E2 E]]]].
  { apply throws_short_feed_late in E. destruct E as [E|E]; [lia | rewrite E; simpl; lia]. }
  apply drains_feed_late in E2.
  apply bind_inv in E. destruct E as [[e' [E _]]|[b [s3 [E3 E]]]].
  { apply throws_short_feed_closed in E. pose proof (drains_length E2).
    destruct E as [E|E]; [lia | rewrite E; simpl; lia]. }
  apply drains_feed_closed in E3.
  pose proof (drains_length E2). pose proof (drains_length E3).
  apply handle_too_many_throws in E.
  - lia.
  - rewrite (drains_limit E3), (drains_limit E2). simpl. lia.
  - rewrite (drains_limit E3), (drains_limit E2). simpl.
    unfold pendingPublishRequestCount, requests in *. lia.
Qed.

Lemma always_shrinks_process_pending pd :
  always shrinks (_process_pending_publish_response pd).
Proof.
  pose proof always_shrinks_send_response.
  unfold _process_pending_publish_response. shrinks_walk.
Qed.

(** [_on_PublishRequest] strands a request only in the closed-drain branch:
    nothing is stashed, the session is open, no subscription is attached and
    the first closed subscription has notifications to deliver. *)
Lemma on_PublishRequest_strands rq cb s e s' :
  within_limit s ->
  _on_PublishRequest rq cb s = (Throw e, s') ->
  (length (requests s) < length (requests s'))%nat ->
  responses s = [] /\ isSessionClosed (engine s) = false /\
  subscriptionCount (engine s) = 0 /\ closed_head_pending s = true.
Proof.
  intros W E G. unfold _on_PublishRequest in E. cbv zeta in E.
  fold (callback_or_dummy cb) in E.
  destruct (acks_returns (subscriptionAcknowledgements rq) s) as [rs [s1 A]].
  erewrite bind_Ok in E by exact A.
  assert (subscriptionCount (engine s) = 0 -> s1 = s) as S0.
  { intros N. rewrite acks_without_subscriptions in A by exact N. congruence. }
  apply acks_store_only in A. destruct A as [EN _].
  assert (requests s1 = requests s) as Q1 by (unfold requests; rewrite EN; reflexivity).
  assert (within_limit s1) as W1 by (unfold within_limit in *; rewrite EN; exact W).
  rewrite <- Q1 in G. rewrite <- EN. unfold responses. rewrite <- EN.
  fold (responses s1).
  set (pd := {| request := rq; results := rs; callback := callback_or_dummy cb |}) in *.
  assert (forall A (m : M ES A) w e0, always shrinks m -> m w = (Throw e0, s') ->
            (length (requests w) <= length (requests s1))%nat -> False) as NO.
  { intros A m w e0 T Em L. specialize (T w). rewrite Em in T. unfold shrinks in T.
    simpl in T. lia. }
  apply bind_inv in E. destruct E as [[e' [E _]]|[b [s2 [E2 E]]]].
  { exfalso. eapply NO; [apply always_shrinks_process_pending | exact E | lia]. }
  apply process_pending_Ok in E2.
  destruct E2 as [[-> [R ->]]|[-> _]]; [|discriminate].
  unfold bind at 1, gets at 1 in E.
  destruct (isSessionClosed (engine s1)) eqn:SC.
  { exfalso. eapply NO; [apply always_shrinks_send_response | exact E | lia]. }
  unfold bind at 1, gets at 1 in E.
  destruct (subscriptionCount (engine s1) =? 0) eqn:N.
  - apply Z.eqb_eq in N. rewrite EN in N. specialize (S0 N). subst s1.
    unfold bind at 1, gets at 1 in E. fold (closed_head_pending s) in E.
    destruct (closed_head_pending s) eqn:HP.
    + repeat split; assumption.
    + exfalso. eapply NO; [apply always_shrinks_send_response | exact E | lia].
  - exfalso.
    unfold bind at 1, gets at 1 in E.
    unfold bind at 1, prepare_timeout_info, bind at 1, assert in E.
    destruct (0 <=? timeoutHint (requestHeader rq)).
    + unfold ret at 1 in E. cbv iota beta in E. unfold ret at 1 in E. cbv iota beta in E.
      unfold bind at 1, push_publish_request, modify at 1 in E.
      match type of E with context [on_engine ?f s1] =>
        match f with context [?x :: nil] =>
          change (on_engine f s1) with (pushed x s1) in E
        end
      end.
      apply queueing_throws_short in E; [lia | exact W1].
    + simpl in E. inversion E; subst. lia.
Qed.

(** An operation strands a request only if it is a call of
    [_on_PublishRequest] that goes into the closed-drain branch. *)
Lemma strands_in_closed_drain self op s :
  within_limit s ->
  strands self op s = true ->
  (exists h acks cb, op = Op_on_PublishRequest h acks cb) /\
  responses s = [] /\ isSessionClosed (engine s) = false /\
  subscriptionCount (engine s) = 0 /\ closed_head_pending s = true.
Proof.
  intros W ST. unfold strands in ST.
  apply andb_true_iff in ST. destruct ST as [T G]. apply Nat.ltb_lt in G.
  destruct (admitted op) eqn:AD.
  - exfalso. pose proof (always_shrinks_exec self op AD s) as SH.
    unfold shrinks in SH. lia.
  - destruct op; try discriminate.
    split; [eexists _, _, _; reflexivity|].
    simpl exec in *.
    destruct (_on_PublishRequest (new_PublishRequest h acks) cb s) as [[[]|e] s'] eqn:E;
      [discriminate|].
    eapply on_PublishRequest_strands; eassumption.
Qed.

End Stranding.

Section BoundedQueue.
Context {C : Collaborators}.

Lemma reaches_unstranded_run_on self ops w0 w :
  reaches_unstranded self w0 w ->
  strands_in self ops w = false ->
  reaches_unstranded self w0 (run_on self ops w).
Proof.
  revert w. induction ops as [|op ops IH]; simpl; intros w R ST; [exact R|].
  apply orb_false_iff in ST. destruct ST as [ST1 ST2].
  apply IH; [|exact ST2]. apply unstranded_exec; assumption.
Qed.

(** C3, as amended.  Operations may return or throw.  On an engine
    constructed without the option [maxPublishRequestInQueue] or with one
    that is not negative, and as long as no operation has stranded a request
    (thrown and left the queue longer than it found it): the queue holds at
    most [maxPublishRequestInQueue] requests, in particular after every
    return of [_on_PublishRequest].  When, in the queueing branch, the queue
    is over the limit after the new record was pushed and the late and
    closed subscriptions were fed, it is over by exactly one and holds the
    requests of before followed by the new record;
    [_handle_too_many_requests] then removes the oldest request and answers
    it with a status-only BadTooManyPublishRequests response, and the new
    record stays queued.  Only a call of [_on_PublishRequest] that goes into
    the closed-drain branch (nothing stashed, the session open, no
    subscription attached, the first closed subscription with notifications
    to deliver) can strand a request. *)
Theorem C3_queue_bounded_oldest_evicted :
  forall (self : EngineRef) (options : option Z) (st : Store) (w : ES),
    match options with Some n => 0 <= n | None => True end ->
    reaches_unstranded self (fresh options st) w ->
    pendingPublishRequestCount (engine w) <= maxPublishRequestInQueue (engine w) /\
    (forall (rq : PublishRequest) (cb : option Callback) (w' : ES),
       _on_PublishRequest rq cb w = (Ok tt, w') ->
       pendingPublishRequestCount (engine w') <= maxPublishRequestInQueue (engine w') /\
       forall rs s1 s2 b s3,
         process_subscriptionAcknowledgements (subscriptionAcknowledgements rq) w
           = (Ok rs, s1) ->
         responses s1 = [] ->
         isSessionClosed (engine s1) = false ->
         subscriptionCount (engine s1) <> 0 ->
         let publishData :=
           {| request := prepared (clock (store s1)) rq; results := rs;
              callback := callback_or_dummy cb |} in
         _feed_late_subscription (pushed publishData s1) = (Ok tt, s2) ->
         _feed_closed_subscription s2 = (Ok b, s3) ->
         maxPublishRequestInQueue (engine s3) < pendingPublishRequestCount (engine s3) ->
         pendingPublishRequestCount (engine s3) = maxPublishRequestInQueue (engine s3) + 1 /\
         exists oldest rest,
           _publish_request_queue (engine w) = oldest :: rest /\
           _publish_request_queue (engine s3) = oldest :: rest ++ [publishData] /\
           _publish_request_queue (engine w') = rest ++ [publishData] /\
           calls (store w') =
             calls (store s3)
               ++ [answer oldest (status_only_response BadTooManyPublishRequests)] /\
           notificationMessage (status_only_response BadTooManyPublishRequests) = None /\
           serviceResult (responseHeader (status_only_response BadTooManyPublishRequests))
             = BadTooManyPublishRequests) /\
    (forall op : Op,
       strands self op w = true ->
       (exists h acks cb, op = Op_on_PublishRequest h acks cb) /\
       _publish_response_queue (engine w) = [] /\
       isSessionClosed (engine w) = false /\
       subscriptionCount (engine w) = 0 /\
       closed_head_pending w = true).
Proof.
  intros self options st w Hopt R.
  assert (within_limit w) as W by (eapply reaches_unstranded_within; eassumption).
  split; [apply W|]. split; [|intros op ST; apply (strands_in_closed_drain self op W ST)].
  intros rq cb w' E.
  split; [eapply on_PublishRequest_within; eassumption|].
  intros rs s1 s2 b s3 A Hresp Hclosed Hcount publishData Hlate Hfeed Hover.
  apply on_PublishRequest_Ok in E. destruct E as [rs' [s1' [A' K]]].
  rewrite A in A'. inversion A'; subst rs' s1'. clear A'.
  apply acks_store_only in A. destruct A as [A _].
  assert (within_limit s1) as W1 by (unfold within_limit in *; rewrite A; exact W).
  destruct K as [? ? X| | |? ? ? ? ? ?|s2' s3' _ _ _ _ Hlate' [b' Hfeed'] Hlimit];
    try congruence; try (unfold responses in *; congruence).
  fold publishData in Hlate'. rewrite Hlate in Hlate'. inversion Hlate'; subst s2'.
  rewrite Hfeed in Hfeed'. inversion Hfeed'; subst s3' b'.
  assert (drains (pushed publishData s1) s3) as D.
  { eapply drains_trans; [eapply drains_feed_late, Hlate | eapply drains_feed_closed, Hfeed]. }
  assert (requests s3 = requests s1 ++ [publishData] /\
          pendingPublishRequestCount (engine s1) = maxPublishRequestInQueue (engine s1))
    as [Q N] by (eapply over_limit_nothing_consumed; eassumption).
  pose proof (drains_limit D) as M. simpl in M.
  apply handle_too_many_Ok in Hlimit.
  destruct Hlimit as [[L _]|[N' [oldest [rest' [Q' ->]]]]]; [exfalso; lia|].
  split; [exact N'|].
  unfold requests in *. rewrite A in Q.
  destruct (_publish_request_queue (engine w)) as [|o rest] eqn:QW.
  { exfalso. destruct W1 as [W1 _]. unfold pendingPublishRequestCount in N.
    rewrite A, QW in N. rewrite A in W1. simpl in N. lia. }
  rewrite Q in Q'. simpl in Q'. inversion Q'; subst oldest rest'.
  exists o, rest. repeat split. exact Q.
Qed.

End BoundedQueue.

Lemma C3_queue_bounded_oldest_evicted_witness :
  let w := run_on (C := v8_collaborators) 0%nat two_requests_and_two_throws
             (fresh (Some 2) (store0 0)) in
  let rq := new_PublishRequest (header 3 0) [] in
  let cb := Some (client_callback 3) in
  let w' := snd (_on_PublishRequest (C := v8_collaborators) rq cb w) in
  let publishData :=
    {| request := prepared (clock (store w)) rq; results := [];
       callback := client_callback 3 |} in
  let s2 := snd (_feed_late_subscription (C := v8_collaborators) (pushed publishData w)) in
  let s3 := snd (_feed_closed_subscription (C := v8_collaborators) s2) in
  0 <= 2 /\
  reaches_unstranded (C := v8_collaborators) 0%nat (fresh (Some 2) (store0 0)) w /\
  fst (run (C := v8_collaborators) 0%nat two_requests_and_two_throws
         (fresh (Some 2) (store0 0))) = Throw AssertionError /\
  pendingPublishRequestCount (engine w) <= maxPublishRequestInQueue (engine w) /\
  _on_PublishRequest (C := v8_collaborators) rq cb w = (Ok tt, w') /\
  pendingPublishRequestCount (engine w') <= maxPublishRequestInQueue (engine w') /\
  maxPublishRequestInQueue (engine s3) < pendingPublishRequestCount (engine s3) /\
  pendingPublishRequestCount (engine s3) = maxPublishRequestInQueue (engine s3) + 1 /\
  exists oldest rest,
    _publish_request_queue (engine w) = oldest :: rest /\
    _publish_request_queue (engine s3) = oldest :: rest ++ [publishData] /\
    _publish_request_queue (engine w') = rest ++ [publishData] /\
    calls (store w') =
      calls (store s3)
        ++ [answer oldest
              (status_only_response (C := v8_collaborators) BadTooManyPublishRequests)].
Proof.
  intros w rq cb w' publishData s2 s3.
  assert (0 <= 2) as H0 by lia.
  assert (reaches_unstranded (C := v8_collaborators) 0%nat (fresh (Some 2) (store0 0)) w)
    as R by (apply (@reaches_unstranded_run_on v8_collaborators 0%nat
                      two_requests_and_two_throws);
             [apply unstranded_refl | vm_compute; reflexivity]).
  assert (_on_PublishRequest (C := v8_collaborators) rq cb w = (Ok tt, w')) as E
    by (apply returns_tt; vm_compute; reflexivity).
  assert (process_subscriptionAcknowledgements (C := v8_collaborators)
            (subscriptionAcknowledgements rq) w = (Ok [], w)) as A by reflexivity.
  assert (responses w = []) as H1 by (vm_compute; reflexivity).
  assert (isSessionClosed (engine w) = false) as H2 by (vm_compute; reflexivity).
  assert (subscriptionCount (engine w) <> 0) as H3 by (vm_compute; discriminate).
  assert (_feed_late_subscription (C := v8_collaborators) (pushed publishData w)
          = (Ok tt, s2)) as F1 by (apply returns_tt; vm_compute; reflexivity).
  assert (_feed_closed_subscription (C := v8_collaborators) s2 = (Ok false, s3)) as F2
    by (apply returns_value; vm_compute; reflexivity).
  assert (maxPublishRequestInQueue (engine s3) < pendingPublishRequestCount (engine s3))
    as H4 by (vm_compute; reflexivity).
  destruct (@C3_queue_bounded_oldest_evicted v8_collaborators 0%nat (Some 2) (store0 0)
              w H0 R) as [B0 [AFTER _]].
  destruct (AFTER rq cb w' E) as [B EV].
  destruct (EV [] w s2 false s3 A H1 H2 H3 F1 F2 H4)
    as [N [oldest [rest [Q0 [Q3 [Q' [L _]]]]]]].
  split; [exact H0|]. split; [exact R|]. split; [vm_compute; reflexivity|].
  split; [exact B0|]. split; [exact E|]. split; [exact B|].
  split; [exact H4|]. split; [exact N|].
  exists oldest, rest. split; [exact Q0|]. split; [exact Q3|]. split; [exact Q' | exact L].
Defined.

(** *** C3: the queue over its limit *)

(** With the option -1, which the constructor keeps, [_on_PublishRequest]
    returns (no subscription: BadNoSubscription) with an empty queue, and 0
    is more than the limit -1.  And with the limit 1 and one request
    pending, a call of [_on_PublishRequest] in the closed-drain branch, for
    a closed subscription that does not send anything, throws the
    AssertionError of [assert(verif === self._publish_request_queue.length)]
    after it has pushed its record; the next call returns with two requests
    in the queue. *)
Lemma C3_queue_exceeds_limit :
  (let w := fresh (Some (-1)) (store0 0) in
   let w' := snd (exec (C := v8_collaborators) 0%nat (publish_request 1 0 1) w) in
   exec (C := v8_collaborators) 0%nat (publish_request 1 0 1) w = (Ok tt, w') /\
   maxPublishRequestInQueue (engine w') = -1 /\
   pendingPublishRequestCount (engine w') = 0) /\
  (let w := snd (run (C := quiet_collaborators) 0%nat
                   pending_request_and_closed_subscription
                   (fresh (Some 1) (store0 0))) in
   let w2 := snd (exec (C := quiet_collaborators) 0%nat (publish_request 2 0 2) w) in
   let w3 := snd (exec (C := quiet_collaborators) 0%nat (publish_request 3 0 3) w2) in
   run (C := quiet_collaborators) 0%nat pending_request_and_closed_subscription
     (fresh (Some 1) (store0 0)) = (Ok tt, w) /\
   maxPublishRequestInQueue (engine w) = 1 /\
   pendingPublishRequestCount (engine w) = 1 /\
   exec (C := quiet_collaborators) 0%nat (publish_request 2 0 2) w
     = (Throw AssertionError, w2) /\
   strands (C := quiet_collaborators) 0%nat (publish_request 2 0 2) w = true /\
   pendingPublishRequestCount (engine w2) = 2 /\
   exec (C := quiet_collaborators) 0%nat (publish_request 3 0 3) w2 = (Ok tt, w3) /\
   maxPublishRequestInQueue (engine w3) = 1 /\
   pendingPublishRequestCount (engine w3) = 2).
Proof.
  split.
  - intros w w'. split; [apply returns_tt; vm_compute; reflexivity|].
    split; vm_compute; reflexivity.
  - intros w w2 w3.
    split; [apply returns_tt; vm_compute; reflexivity|].
    split; [vm_compute; reflexivity|]. split; [vm_compute; reflexivity|].
    split; [vm_compute; reflexivity|].
    split; [vm_compute; reflexivity|]. split; [vm_compute; reflexivity|].
    split; [apply returns_tt; vm_compute; reflexivity|].
    split; vm_compute; reflexivity.
Qed.

(** ** The deadline that a queued request carries (C5) *)

Section Deadlines.
Context {C : Collaborators}.















End Deadlines.

Section TimeoutOfQueuedRequests.
Context {C : Collaborators}.


End TimeoutOfQueuedRequests.


(** *** C5: a request that never times out *)


(** ** A negative limit: requests are queued although the call throws *)

Lemma consumes_refl w : consumes w w.
Proof. exists []. reflexivity. Qed.

Lemma consumes_trans a b c : consumes a b -> consumes b c -> consumes a c.
Proof.
  intros [c1 Q1] [c2 Q2]. exists (c1 ++ c2). rewrite Q1, Q2. apply app_assoc.
Qed.

Section NegativeLimit.
Context {C : Collaborators}.

Ltac consumed := exists []; reflexivity.

Ltac consumes_walk := always_walk consumes_refl consumes_trans consumed.

Lemma always_consumes_shift : always consumes shift_publish_request.
Proof.
  unfold shift_publish_request. apply always_gets_bind. intros s.
  unfold consumes, requests.
  destruct (_publish_request_queue (engine s)) as [|pd rest] eqn:Q; simpl.
  - exists []. simpl. rewrite Q. reflexivity.
  - exists [pd]. reflexivity.
Qed.

(** Feeding the subscriptions and enforcing the limit only take the oldest
    requests off the queue, whether they return or throw. *)
Lemma always_consumes_tail :
  always consumes
    (_feed_late_subscription ;; _feed_closed_subscription ;; _handle_too_many_requests).
Proof.
  pose proof always_consumes_shift.
  unfold _feed_late_subscription, _feed_closed_subscription, _handle_too_many_requests,
    call_method, run_step, send_keep_alive_response, send_notification_message,
    send_response_for_shifted, send_response_for_request.
  consumes_walk.
Qed.

(** In the queueing branch with a [timeoutHint] that is not negative,
    [_on_PublishRequest] pushes the record and goes on to feed the
    subscriptions and to enforce the limit. *)
Lemma on_PublishRequest_queueing rq cb s :
  responses s = [] ->
  isSessionClosed (engine s) = false ->
  subscriptionCount (engine s) <> 0 ->
  0 <= timeoutHint (requestHeader rq) ->
  exists rs s1,
    process_subscriptionAcknowledgements (subscriptionAcknowledgements rq) s = (Ok rs, s1) /\
    _on_PublishRequest rq cb s =
    (_feed_late_subscription ;; _feed_closed_subscription ;; _handle_too_many_requests)
      (pushed {| request := prepared (clock (store s1)) rq; results := rs;
                 callback := callback_or_dummy cb |} s1).
Proof.
  intros R SC N TH.
  destruct (acks_returns (subscriptionAcknowledgements rq) s) as [rs [s1 A]].
  exists rs, s1. split; [exact A|].
  pose proof A as SO. apply acks_store_only in SO. destruct SO as [EN _].
  unfold _on_PublishRequest. cbv zeta.
  erewrite bind_Ok by exact A.
  erewrite bind_Ok
    by (apply process_pending_none; unfold responses in *; rewrite EN; exact R).
  unfold bind at 1, gets at 1. rewrite EN, SC.
  unfold bind at 1, gets at 1. rewrite EN.
  apply Z.eqb_neq in N. rewrite N.
  unfold bind at 1, gets at 1.
  erewrite bind_Ok by (apply prepare_timeout_info_Ok; exact TH).
  reflexivity.
Qed.

(** X15. On an engine constructed with a negative limit, in every state it
    reaches in which nothing is stashed, the session is open and a
    subscription is attached, [_on_PublishRequest] throws (an AssertionError
    or a TypeError) instead of returning.  Unless the [timeoutHint] is
    negative, the record has been pushed before: after the throw the queue
    is the queue of before followed by the new record, less the oldest
    requests that the feeding steps have taken off. *)
Theorem X15_negative_limit_queues_the_request_and_throws :
  forall (self : EngineRef) (n : Z) (st : Store) (w : ES)
         (rq : PublishRequest) (cb : option Callback),
    n < 0 ->
    reaches self (fresh (Some n) st) w ->
    _publish_response_queue (engine w) = [] ->
    isSessionClosed (engine w) = false ->
    subscriptionCount (engine w) <> 0 ->
    exists e w',
      _on_PublishRequest rq cb w = (Throw e, w') /\
      (e = AssertionError \/ e = TypeError) /\
      (timeoutHint (requestHeader rq) < 0 ->
       _publish_request_queue (engine w') = _publish_request_queue (engine w)) /\
      (0 <= timeoutHint (requestHeader rq) ->
       exists rs consumed,
         _publish_request_queue (engine w)
           ++ [{| request := prepared (clock (store w)) rq; results := rs;
                  callback := callback_or_dummy cb |}]
         = consumed ++ _publish_request_queue (engine w')).
Proof.
  intros self n st w rq cb N R RS SC CN.
  assert (maxPublishRequestInQueue (engine w) < 0) as L.
  { rewrite (limit_reaches R). simpl.
    destruct (n =? 0) eqn:E; [apply Z.eqb_eq in E; lia | exact N]. }
  destruct (_on_PublishRequest rq cb w) as [[[]|e] w'] eqn:E.
  - exfalso. apply on_PublishRequest_Ok in E. destruct E as [rs [s1 [A K]]].
    apply acks_store_only in A. destruct A as [EN _].
    destruct K as [response rest Hresp Hreq Hs' | Hresp Hclosed Hs'
                  | Hresp Hclosed Hcount Hhead Hs' | Hresp Hclosed Hcount Hhead Hfeed Hverif
                  | s2 s3 Hresp Hclosed Hcount Hhint Hlate Hfeed Hlimit].
    + unfold responses in Hresp. rewrite EN in Hresp. congruence.
    + rewrite EN in Hclosed. congruence.
    + rewrite EN in Hcount. contradiction.
    + rewrite EN in Hcount. contradiction.
    + apply drains_feed_late in Hlate. destruct Hfeed as [b Hfeed].
      apply drains_feed_closed in Hfeed.
      destruct (@handle_too_many_negative C s3) as [e [s4 [X _]]]; [|congruence].
      rewrite (drains_limit Hfeed), (drains_limit Hlate). simpl. rewrite EN. exact L.
  - exists e, w'. split; [reflexivity|]. split; [|split].
    + pose proof (on_PublishRequest_fuel rq cb w) as F. rewrite E in F. simpl in F.
      destruct e; [left; reflexivity | right; reflexivity | contradiction F; reflexivity].
    + intros TH.
      destruct (@refused_throws C rq cb w) as [s' [E' [EN _]]].
      { unfold refused, responses. rewrite RS, SC.
        apply Z.ltb_lt in TH. rewrite TH. apply Z.eqb_neq in CN. rewrite CN. reflexivity. }
      rewrite E in E'. inversion E'; subst. rewrite EN. reflexivity.
    + intros TH.
      destruct (@on_PublishRequest_queueing rq cb w RS SC CN TH) as [rs [s1 [A E']]].
      apply acks_store_only in A. destruct A as [EN [_ CK]].
      rewrite E in E'.
      pose proof (always_consumes_tail
                    (pushed {| request := prepared (clock (store s1)) rq; results := rs;
                               callback := callback_or_dummy cb |} s1)) as [consumed Q].
      rewrite <- E' in Q. simpl in Q. unfold requests in Q. simpl in Q.
      exists rs, consumed. rewrite <- EN, <- CK. exact Q.
Qed.

End NegativeLimit.

Lemma X15_negative_limit_queues_the_request_and_throws_witness :
  let w := snd (run (C := v8_collaborators) 0%nat one_subscription
                  (fresh (Some (-1)) (store0 0))) in
  let thrown := _on_PublishRequest (C := v8_collaborators)
                  (new_PublishRequest (header 1 0) []) (Some (client_callback 1)) w in
  -1 < 0 /\
  reaches (C := v8_collaborators) 0%nat (fresh (Some (-1)) (store0 0)) w /\
  _publish_response_queue (engine w) = [] /\
  isSessionClosed (engine w) = false /\
  subscriptionCount (engine w) <> 0 /\
  fst thrown = Throw AssertionError /\
  map callback (_publish_request_queue (engine (snd thrown))) = [client_callback 1] /\
  map summary (calls (store (snd (onSessionClose (C := v8_collaborators) (snd thrown)))))
    = [(client_callback 1, 1, BadSessionClosed, false)] /\
  exists e w',
    _on_PublishRequest (C := v8_collaborators) (new_PublishRequest (header 1 0) [])
      (Some (client_callback 1)) w = (Throw e, w') /\
    (e = AssertionError \/ e = TypeError) /\
    (0 <= 0 ->
     exists rs consumed,
       _publish_request_queue (engine w)
         ++ [{| request := prepared (clock (store w)) (new_PublishRequest (header 1 0) []);
                results := rs; callback := client_callback 1 |}]
       = consumed ++ _publish_request_queue (engine w')).
Proof.
  intros w thrown.
  assert (-1 < 0) as N by lia.
  assert (reaches (C := v8_collaborators) 0%nat (fresh (Some (-1)) (store0 0)) w) as R
    by apply reaches_run.
  assert (_publish_response_queue (engine w) = []) as RS by reflexivity.
  assert (isSessionClosed (engine w) = false) as SC by reflexivity.
  assert (subscriptionCount (engine w) <> 0) as CN by (vm_compute; discriminate).
  split; [exact N|]. split; [exact R|]. split; [exact RS|]. split; [exact SC|].
  split; [exact CN|]. split; [vm_compute; reflexivity|].
  split; [vm_compute; reflexivity|]. split; [vm_compute; reflexivity|].
  destruct (@X15_negative_limit_queues_the_request_and_throws v8_collaborators _ _ _ _
              (new_PublishRequest (header 1 0) []) (Some (client_callback 1)) N R RS SC CN)
    as [e [w' [E [K [_ Q]]]]].
  exists e, w'. split; [exact E|]. split; [exact K | exact Q].
Defined.
